(** * The Win32 platform layer of V8 (src/base/platform/platform-win32.cc)

    A shallow embedding of the virtual-memory allocator, the memory-mapped
    file, the symbol loader and the timezone cache, each over an explicit
    interface to the operating system, followed by the theorems that settle
    the specification's claims about them.

    Conventions.
    - Addresses, handles, sizes and DWORDs are [Z]; the null pointer is [0].
    - The operating system is a parameter: a record of functions over a
      hidden state.  Every call the C++ code makes is threaded through that
      state and recorded in the trace of the run.
    - [CHECK] is V8's release-mode assertion: a false condition ends the
      process ([Aborted]).  [DCHECK]s only exist in debug builds; they are
      the preconditions of the theorems, not steps of the functions. *)

From Stdlib Require Import ZArith List Bool String Ascii Lia.
Import ListNotations.
Local Open Scope Z_scope.

(** ** Runs: state, trace of OS calls, and process abort *)

Section Runs.
Context {St Ev : Type}.

Inductive outcome (A : Type) : Type :=
| Returned (a : A)
| Aborted.

Record run (A : Type) : Type := mkRun {
  out : outcome A;
  trace : list Ev;
  final : St
}.

Definition M (A : Type) : Type := St -> run A.

Definition ret {A} (a : A) : M A :=
  fun p => mkRun A (Returned A a) [] p.

Definition bind {A B} (m : M A) (f : A -> M B) : M B :=
  fun p =>
    let r := m p in
    match out A r with
    | Aborted _ => mkRun B (Aborted B) (trace A r) (final A r)
    | Returned _ a =>
        let r' := f a (final A r) in
        mkRun B (out B r') (trace A r ++ trace B r') (final B r')
    end.

(** [CHECK(cond)]: fatal when the condition is false. *)
Definition CHECK (cond : bool) : M unit :=
  fun p => mkRun unit (if cond then Returned unit tt else Aborted unit) [] p.

(** What a run establishes: [post m p Q] holds when the outcome, the
    trace and the final state of [m] started in [p] satisfy [Q]. *)
Definition post {A} (m : M A) (p : St)
           (Q : outcome A -> list Ev -> St -> Prop) : Prop :=
  Q (out A (m p)) (trace A (m p)) (final A (m p)).
End Runs.

Arguments Returned {A} a.
Arguments Aborted {A}.
Arguments mkRun {St Ev A} out trace final.
Arguments out {St Ev A} r.
Arguments trace {St Ev A} r.
Arguments final {St Ev A} r.
Arguments M St Ev A : clear implicits.

Declare Scope run_scope.
Delimit Scope run_scope with run.
Notation "x <- c1 ;; c2" := (bind c1 (fun x => c2))
  (at level 61, c1 at next level, right associativity) : run_scope.
Notation "c1 ;;; c2" := (bind c1 (fun _ => c2))
  (at level 61, right associativity) : run_scope.

(** ** Address arithmetic of src/base/macros.h *)

(** Modelled from the spec: [RoundUp] of src/base/macros.h, a header that
    platform-win32.cc includes.  The spec's step 5 calls its result "the
    aligned sub-address inside" the padded region: the least multiple of
    [m] that is not below [x]. *)
Definition RoundUp (x m : Z) : Z := (x + m - 1) / m * m.

(** Modelled from the spec: [AlignedAddress] of src/base/macros.h, the
    same header ("normalize the hint to the requested alignment"): the
    greatest multiple of [alignment] that is not above [address]. *)
Definition AlignedAddress (address alignment : Z) : Z :=
  address / alignment * alignment.

(** ** Virtual memory *)

Module VM.

(** Constants of <windows.h>. *)
Definition MEM_COMMIT : Z := 0x1000.
Definition MEM_RESERVE : Z := 0x2000.
Definition MEM_DECOMMIT : Z := 0x4000.
Definition MEM_RELEASE : Z := 0x8000.
Definition MEM_RESET : Z := 0x80000.
Definition PAGE_NOACCESS : Z := 0x01.
Definition PAGE_READONLY : Z := 0x02.
Definition PAGE_READWRITE : Z := 0x04.
Definition PAGE_EXECUTE_READ : Z := 0x20.
Definition PAGE_EXECUTE_READWRITE : Z := 0x40.
Definition PAGE_TARGETS_INVALID : Z := 0x40000000.

(** [OS::MemoryPermission]. *)
Inductive MemoryPermission : Type :=
| kNoAccess
| kNoAccessWillJitLater
| kRead
| kReadWrite
| kReadWriteExecute
| kReadExecute.

Definition MemoryPermission_eqb (a b : MemoryPermission) : bool :=
  match a, b with
  | kNoAccess, kNoAccess
  | kNoAccessWillJitLater, kNoAccessWillJitLater
  | kRead, kRead
  | kReadWrite, kReadWrite
  | kReadWriteExecute, kReadWriteExecute
  | kReadExecute, kReadExecute => true
  | _, _ => false
  end.

(** The part of Windows the allocator talks to.  [IsWow64Process] answers
    [None] when the call fails and [Some b] when it stores [b] through its
    out-parameter.  [GetProcAddress_DiscardVirtualMemory] stands for
    [GetProcAddress(GetModuleHandle(L"Kernel32.dll"), "DiscardVirtualMemory")];
    [DiscardVirtualMemory] is the call through the pointer so obtained. *)
Record Win32 : Type := {
  os_state : Type;
  V8_HOST_ARCH_32_BIT : bool;
  IsWindows10OrGreater : bool;
  dwAllocationGranularity : Z;
  VirtualAlloc : Z -> Z -> Z -> Z -> os_state -> Z * os_state;
  VirtualFree : Z -> Z -> Z -> os_state -> bool * os_state;
  IsWow64Process : os_state -> option bool * os_state;
  GetProcAddress_DiscardVirtualMemory : os_state -> Z * os_state;
  DiscardVirtualMemory : Z -> Z -> os_state -> Z * os_state
}.

Inductive event : Type :=
| EvVirtualAlloc (lpAddress dwSize flAllocationType flProtect : Z) (result : Z)
| EvVirtualFree (lpAddress dwSize dwFreeType : Z) (result : bool)
| EvIsWow64Process (result : option bool)
| EvGetProcAddress (result : Z)
| EvDiscardVirtualMemory (address size : Z) (result : Z).

Section WithOS.
Variable K : Win32.

(** The process: the state of the OS and the function-local statics
    [use_aslr] (of [RandomizedVirtualAlloc], initially -1) and
    [discard_virtual_memory] (of [DiscardSystemPages], initially the
    sentinel -1). *)
Record process : Type := mkProcess {
  os : os_state K;
  use_aslr : Z;
  discard_virtual_memory : Z
}.

Definition initial_process (s : os_state K) : process :=
  mkProcess s (-1) (-1).

Definition Mem := M process event.

Local Open Scope run_scope.

(** *** Calls into the OS *)

Definition call_VirtualAlloc (addr size flags protect : Z) : Mem Z :=
  fun p =>
    let (r, s) := VirtualAlloc K addr size flags protect (os p) in
    mkRun (Returned r) [EvVirtualAlloc addr size flags protect r]
          (mkProcess s (use_aslr p) (discard_virtual_memory p)).

Definition call_VirtualFree (addr size free_type : Z) : Mem bool :=
  fun p =>
    let (r, s) := VirtualFree K addr size free_type (os p) in
    mkRun (Returned r) [EvVirtualFree addr size free_type r]
          (mkProcess s (use_aslr p) (discard_virtual_memory p)).

Definition call_IsWow64Process : Mem (option bool) :=
  fun p =>
    let (r, s) := IsWow64Process K (os p) in
    mkRun (Returned r) [EvIsWow64Process r]
          (mkProcess s (use_aslr p) (discard_virtual_memory p)).

Definition call_GetProcAddress : Mem Z :=
  fun p =>
    let (r, s) := GetProcAddress_DiscardVirtualMemory K (os p) in
    mkRun (Returned r) [EvGetProcAddress r]
          (mkProcess s (use_aslr p) (discard_virtual_memory p)).

Definition call_DiscardVirtualMemory (addr size : Z) : Mem Z :=
  fun p =>
    let (r, s) := DiscardVirtualMemory K addr size (os p) in
    mkRun (Returned r) [EvDiscardVirtualMemory addr size r]
          (mkProcess s (use_aslr p) (discard_virtual_memory p)).

Definition get_use_aslr : Mem Z :=
  fun p => mkRun (Returned (use_aslr p)) [] p.

Definition set_use_aslr (v : Z) : Mem unit :=
  fun p => mkRun (Returned tt) []
                 (mkProcess (os p) v (discard_virtual_memory p)).

Definition get_discard_virtual_memory : Mem Z :=
  fun p => mkRun (Returned (discard_virtual_memory p)) [] p.

Definition set_discard_virtual_memory (v : Z) : Mem unit :=
  fun p => mkRun (Returned tt) [] (mkProcess (os p) (use_aslr p) v).

(** *** Word sizes *)

(** [size_t] and [uintptr_t] have the width of the host. *)
Definition pointer_bits : Z := if V8_HOST_ARCH_32_BIT K then 32 else 64.

Definition wrap_size_t (z : Z) : Z := z mod 2 ^ pointer_bits.

(** *** The functions of platform-win32.cc *)

(** [OS::AllocatePageSize]: the allocation granularity reported by
    [GetSystemInfo] (the function caches it in a static). *)
Definition AllocatePageSize : Z := dwAllocationGranularity K.

Definition GetProtectionFromMemoryPermission (access : MemoryPermission) : Z :=
  match access with
  | kNoAccess
  | kNoAccessWillJitLater => PAGE_NOACCESS
  | kRead => PAGE_READONLY
  | kReadWrite => PAGE_READWRITE
  | kReadWriteExecute =>
      if IsWindows10OrGreater K
      then Z.lor PAGE_EXECUTE_READWRITE PAGE_TARGETS_INVALID
      else PAGE_EXECUTE_READWRITE
  | kReadExecute =>
      if IsWindows10OrGreater K
      then Z.lor PAGE_EXECUTE_READ PAGE_TARGETS_INVALID
      else PAGE_EXECUTE_READ
  end.

(** The prologue of [RandomizedVirtualAlloc] that settles [use_aslr]:
    on a 32-bit host it asks [IsWow64Process] once, on a 64-bit host it
    sets the static to [TRUE] on every call. *)
Definition settle_use_aslr : Mem Z :=
  if V8_HOST_ARCH_32_BIT K then
    u <- get_use_aslr ;;
    if u =? -1 then
      r <- call_IsWow64Process ;;
      match r with
      | Some b => set_use_aslr (if b then 1 else 0) ;;; ret (if b then 1 else 0)
      | None => set_use_aslr 0 ;;; ret 0
      end
    else ret u
  else
    set_use_aslr 1 ;;; ret 1.

Definition RandomizedVirtualAlloc (size flags protect hint : Z) : Mem Z :=
  aslr <- settle_use_aslr ;;
  base <- (if negb (aslr =? 0) && negb (protect =? PAGE_READWRITE)
           then call_VirtualAlloc hint size flags protect
           else ret 0) ;;
  if base =? 0
  then call_VirtualAlloc 0 size flags protect
  else ret base.

(** [OS::Free]. *)
Definition Free (address size : Z) : Mem bool :=
  call_VirtualFree address 0 MEM_RELEASE.

(** [OS::Release]. *)
Definition Release (address size : Z) : Mem bool :=
  call_VirtualFree address size MEM_DECOMMIT.

Definition kMaxAttempts : nat := 3.

(** The [for] loop of [OS::Allocate]; [n] counts the attempts that are
    left and [base] is the variable of that name. *)
Fixpoint Allocate_loop (n : nat) (size alignment padded_size flags protect hint
                        base : Z) : Mem Z :=
  match n with
  | O => ret base
  | S n' =>
      base <- RandomizedVirtualAlloc padded_size flags protect hint ;;
      if base =? 0 then ret 0
      else
        ok <- Free base padded_size ;;
        CHECK ok ;;;
        let aligned_base := RoundUp base alignment in
        base <- call_VirtualAlloc aligned_base size flags protect ;;
        if negb (base =? 0) then ret base
        else Allocate_loop n' size alignment padded_size flags protect hint base
  end.

(** The [flags] of [OS::Allocate]: reserve, and commit unless the
    permission is [kNoAccess]. *)
Definition Allocate_flags (access : MemoryPermission) : Z :=
  if MemoryPermission_eqb access kNoAccess
  then MEM_RESERVE
  else Z.lor MEM_RESERVE MEM_COMMIT.

(** [OS::Allocate]. *)
Definition Allocate (hint size alignment : Z) (access : MemoryPermission)
  : Mem Z :=
  let page_size := AllocatePageSize in
  let hint := AlignedAddress hint alignment in
  let flags := Allocate_flags access in
  let protect := GetProtectionFromMemoryPermission access in
  base <- RandomizedVirtualAlloc size flags protect hint ;;
  if base =? 0 then ret 0
  else
    let aligned_base := RoundUp base alignment in
    if base =? aligned_base then ret base
    else
      ok <- Free base size ;;
      CHECK ok ;;;
      let hint := 0 in
      let padded_size := wrap_size_t (size + wrap_size_t (alignment - page_size)) in
      Allocate_loop kMaxAttempts size alignment padded_size flags protect hint
                    base.

(** [OS::SetPermissions]. *)
Definition SetPermissions (address size : Z) (access : MemoryPermission)
  : Mem bool :=
  if MemoryPermission_eqb access kNoAccess
  then call_VirtualFree address size MEM_DECOMMIT
  else
    let protect := GetProtectionFromMemoryPermission access in
    r <- call_VirtualAlloc address size MEM_COMMIT protect ;;
    ret (negb (r =? 0)).

(** [OS::DiscardSystemPages]. *)
Definition DiscardSystemPages (address size : Z) : Mem bool :=
  d <- get_discard_virtual_memory ;;
  (if d =? -1
   then f <- call_GetProcAddress ;; set_discard_virtual_memory f
   else ret tt) ;;;
  discard_function <- get_discard_virtual_memory ;;
  discarded <- (if negb (discard_function =? 0)
                then r <- call_DiscardVirtualMemory address size ;;
                     ret (r =? 0)
                else ret false) ;;
  if (discarded : bool) then ret true
  else
    ptr <- call_VirtualAlloc address size MEM_RESET PAGE_READWRITE ;;
    CHECK (negb (ptr =? 0)) ;;;
    ret (negb (ptr =? 0)).

End WithOS.

Arguments os {K} p.
Arguments use_aslr {K} p.
Arguments discard_virtual_memory {K} p.

(** *** Reading traces *)

(** The allocation and release requests of a trace, in order. *)
Definition is_memory_event (e : event) : bool :=
  match e with
  | EvVirtualAlloc _ _ _ _ _ | EvVirtualFree _ _ _ _ => true
  | _ => false
  end.

Definition memory_events (tr : list event) : list event :=
  filter is_memory_event tr.

Definition failed_free (e : event) : bool :=
  match e with
  | EvVirtualFree _ _ _ false => true
  | _ => false
  end.

(** What Windows documents of [VirtualAlloc]: addresses are not negative,
    and a request at an address on the allocation granularity is granted
    there or not at all. *)
Definition VirtualAlloc_contract (K : Win32) : Prop :=
  forall addr size flags protect s,
    let r := fst (VirtualAlloc K addr size flags protect s) in
    0 <= r /\
    (addr <> 0 -> addr mod dwAllocationGranularity K = 0 -> r = 0 \/ r = addr).

(** How a run of the allocator may end: with null or an address that is a
    multiple of the alignment, or with the process aborting on a release
    that failed.  The alignment is promised only of a Windows that keeps
    its contract and of a call that keeps the preconditions on the
    alignment. *)
Definition Allocate_ends_well (K : Win32) (alignment : Z) (o : outcome Z)
           (tr : list event) : Prop :=
  match o with
  | Returned a =>
      VirtualAlloc_contract K ->
      0 < dwAllocationGranularity K ->
      alignment mod dwAllocationGranularity K = 0 ->
      dwAllocationGranularity K <= alignment ->
      a = 0 \/ a mod alignment = 0
  | Aborted => existsb failed_free tr = true
  end.

(** Was the address [hint] handed to [VirtualAlloc]? *)
Definition hint_passed (hint : Z) (tr : list event) : bool :=
  existsb (fun e => match e with
                    | EvVirtualAlloc a _ _ _ _ => a =? hint
                    | _ => false
                    end) tr.

Definition executable_or_no_access (access : MemoryPermission) : bool :=
  match access with
  | kNoAccess | kNoAccessWillJitLater | kReadWriteExecute | kReadExecute => true
  | kRead | kReadWrite => false
  end.

(** The requests of one [RandomizedVirtualAlloc] without a hint for
    [padded_size] bytes that ends with [base]: one request, or a failed one
    and its repetition. *)
Definition padded_request (padded_size flags protect : Z)
           (req : list event) (base : Z) : Prop :=
  req = [EvVirtualAlloc 0 padded_size flags protect base] \/
  req = [EvVirtualAlloc 0 padded_size flags protect 0;
         EvVirtualAlloc 0 padded_size flags protect base].

(** The padded retries as the specification describes them: at most [n]
    attempts, each one a padded request, the release of the padded region
    and a request for [size] bytes pinned at the aligned address inside
    it.  The retries end with the first pinned request that is granted,
    with a padded request that fails (out of memory), with the process
    aborting because a release failed, or, all attempts spent, with null. *)
Inductive padded_retries (size alignment padded_size flags protect : Z)
  : nat -> list event -> outcome Z -> Prop :=
| retries_spent :
    padded_retries size alignment padded_size flags protect O [] (Returned 0)
| retries_out_of_memory n req :
    padded_request padded_size flags protect req 0 ->
    padded_retries size alignment padded_size flags protect (S n) req (Returned 0)
| retries_release_failed n req base :
    base <> 0 ->
    padded_request padded_size flags protect req base ->
    padded_retries size alignment padded_size flags protect (S n)
      (req ++ [EvVirtualFree base 0 MEM_RELEASE false]) Aborted
| retries_granted n req base a :
    base <> 0 ->
    padded_request padded_size flags protect req base ->
    a <> 0 ->
    padded_retries size alignment padded_size flags protect (S n)
      (req ++ [EvVirtualFree base 0 MEM_RELEASE true;
               EvVirtualAlloc (RoundUp base alignment) size flags protect a])
      (Returned a)
| retries_again n req base rest o :
    base <> 0 ->
    padded_request padded_size flags protect req base ->
    padded_retries size alignment padded_size flags protect n rest o ->
    padded_retries size alignment padded_size flags protect (S n)
      (req ++ [EvVirtualFree base 0 MEM_RELEASE true;
               EvVirtualAlloc (RoundUp base alignment) size flags protect 0]
           ++ rest) o.

(** Requests pinned at an address, and those of them that were refused. *)
Definition pinned_request (e : event) : bool :=
  match e with
  | EvVirtualAlloc a _ _ _ _ => negb (a =? 0)
  | _ => false
  end.

Definition refused_pinned_request (e : event) : bool :=
  match e with
  | EvVirtualAlloc a _ _ _ r => negb (a =? 0) && (r =? 0)
  | _ => false
  end.

(** *** A scripted Windows, to run the allocator on

    The state is the list of answers still to be given to [VirtualAlloc]:
    for a request without an address the answer is the base returned (0 for
    a failure); for a request pinned at an address, 0 makes it fail and
    anything else grants exactly that address (a negative address is never
    granted).  An exhausted script fails every request.  [VirtualFree]
    always succeeds, the process runs under WOW64, and
    [DiscardVirtualMemory] is not exported by Kernel32. *)
Definition scripted (arch32 win10 : bool) (granularity : Z) : Win32 := {|
  os_state := list N;
  V8_HOST_ARCH_32_BIT := arch32;
  IsWindows10OrGreater := win10;
  dwAllocationGranularity := granularity;
  VirtualAlloc := fun addr _ _ _ s =>
    match s with
    | [] => (0, [])
    | a :: s' =>
        ((if addr =? 0 then Z.of_N a
          else if (Z.of_N a =? 0) || (addr <? 0) then 0 else addr), s')
    end;
  VirtualFree := fun _ _ _ s => (true, s);
  IsWow64Process := fun s => (Some true, s);
  GetProcAddress_DiscardVirtualMemory := fun s => (0, s);
  DiscardVirtualMemory := fun _ _ s => (1, s)
|}.

(** A 64-bit Windows 10 with the usual 64 KiB allocation granularity. *)
Definition win64 : Win32 := scripted false true 0x10000.

End VM.

(** ** Memory-mapped files *)

Module MappedFile.

(** Constants of <windows.h>. *)
Definition GENERIC_READ : Z := 0x80000000.
Definition GENERIC_WRITE : Z := 0x40000000.
Definition FILE_SHARE_READ : Z := 0x1.
Definition FILE_SHARE_WRITE : Z := 0x2.
Definition OPEN_EXISTING : Z := 3.
Definition OPEN_ALWAYS : Z := 4.
Definition INVALID_HANDLE_VALUE : Z := -1.
Definition PAGE_READONLY : Z := 0x02.
Definition PAGE_READWRITE : Z := 0x04.
Definition FILE_MAP_READ : Z := 0x4.
Definition FILE_MAP_ALL_ACCESS : Z := 0xF001F.

Inductive FileMode : Type := kReadOnly | kReadWrite.

Definition FileMode_eqb (a b : FileMode) : bool :=
  match a, b with
  | kReadOnly, kReadOnly | kReadWrite, kReadWrite => true
  | _, _ => false
  end.

(** The file and mapping calls.  The arguments that the code always passes
    as [nullptr] or 0 (security attributes, template file, flags, the view
    offset) are left out. *)
Record Win32 : Type := {
  os_state : Type;
  (** name, desired access, share mode, creation disposition *)
  CreateFileA : string -> Z -> Z -> Z -> os_state -> Z * os_state;
  GetFileSize : Z -> os_state -> Z * os_state;
  (** file, protection, maximum size high, maximum size low *)
  CreateFileMapping : Z -> Z -> Z -> Z -> os_state -> Z * os_state;
  (** mapping, desired access, number of bytes *)
  MapViewOfFile : Z -> Z -> Z -> os_state -> Z * os_state;
  UnmapViewOfFile : Z -> os_state -> bool * os_state;
  CloseHandle : Z -> os_state -> bool * os_state
}.

Inductive event : Type :=
| EvCreateFileA (name : string) (access share disposition : Z) (result : Z)
| EvGetFileSize (file : Z) (result : Z)
| EvCreateFileMapping (file protection size_high size_low : Z) (result : Z)
| EvMapViewOfFile (mapping access bytes : Z) (result : Z)
| EvMemmove (dest src bytes : Z)
| EvUnmapViewOfFile (memory : Z) (result : bool)
| EvCloseHandle (handle : Z) (result : bool).

(** [class Win32MemoryMappedFile]. *)
Record Win32MemoryMappedFile : Type := mkFile {
  file_ : Z;
  file_mapping_ : Z;
  memory_ : Z;
  size_ : Z
}.

Definition memory (f : Win32MemoryMappedFile) : Z := memory_ f.
Definition size (f : Win32MemoryMappedFile) : Z := size_ f.

Section WithOS.
Variable K : Win32.

Definition IO := M (os_state K) event.

Local Open Scope run_scope.

Definition call_CreateFileA name access share disposition : IO Z :=
  fun s =>
    let (r, s') := CreateFileA K name access share disposition s in
    mkRun (Returned r) [EvCreateFileA name access share disposition r] s'.

Definition call_GetFileSize file : IO Z :=
  fun s =>
    let (r, s') := GetFileSize K file s in
    mkRun (Returned r) [EvGetFileSize file r] s'.

Definition call_CreateFileMapping file protection size_high size_low : IO Z :=
  fun s =>
    let (r, s') := CreateFileMapping K file protection size_high size_low s in
    mkRun (Returned r)
          [EvCreateFileMapping file protection size_high size_low r] s'.

Definition call_MapViewOfFile mapping access bytes : IO Z :=
  fun s =>
    let (r, s') := MapViewOfFile K mapping access bytes s in
    mkRun (Returned r) [EvMapViewOfFile mapping access bytes r] s'.

Definition call_memmove dest src bytes : IO unit :=
  fun s => mkRun (Returned tt) [EvMemmove dest src bytes] s.

Definition call_UnmapViewOfFile memory : IO bool :=
  fun s =>
    let (r, s') := UnmapViewOfFile K memory s in
    mkRun (Returned r) [EvUnmapViewOfFile memory r] s'.

Definition call_CloseHandle handle : IO bool :=
  fun s =>
    let (r, s') := CloseHandle K handle s in
    mkRun (Returned r) [EvCloseHandle handle r] s'.

(** [OS::MemoryMappedFile::open]; [None] is the null result. *)
Definition open (name : string) (mode : FileMode)
  : IO (option Win32MemoryMappedFile) :=
  let access :=
    if FileMode_eqb mode kReadWrite
    then Z.lor GENERIC_READ GENERIC_WRITE
    else GENERIC_READ in
  file <- call_CreateFileA name access (Z.lor FILE_SHARE_READ FILE_SHARE_WRITE)
                           OPEN_EXISTING ;;
  if file =? INVALID_HANDLE_VALUE then ret None
  else
    size <- call_GetFileSize file ;;
    if size =? 0 then ret (Some (mkFile file 0 0 0))
    else
      let protection :=
        if FileMode_eqb mode kReadOnly then PAGE_READONLY else PAGE_READWRITE in
      file_mapping <- call_CreateFileMapping file protection 0 size ;;
      if file_mapping =? 0 then ret None
      else
        let view_access :=
          if FileMode_eqb mode kReadOnly then FILE_MAP_READ
          else FILE_MAP_ALL_ACCESS in
        memory <- call_MapViewOfFile file_mapping view_access size ;;
        ret (Some (mkFile file file_mapping memory size)).

(** [OS::MemoryMappedFile::create]; [static_cast<DWORD>(size)] keeps the
    low 32 bits of the size. *)
Definition create (name : string) (size initial : Z)
  : IO (option Win32MemoryMappedFile) :=
  file <- call_CreateFileA name (Z.lor GENERIC_READ GENERIC_WRITE)
                           (Z.lor FILE_SHARE_READ FILE_SHARE_WRITE)
                           OPEN_ALWAYS ;;
  if file =? 0 then ret None
  else if size =? 0 then ret (Some (mkFile file 0 0 0))
  else
    file_mapping <- call_CreateFileMapping file PAGE_READWRITE 0
                                           (size mod 2 ^ 32) ;;
    if file_mapping =? 0 then ret None
    else
      memory <- call_MapViewOfFile file_mapping FILE_MAP_ALL_ACCESS size ;;
      (if negb (memory =? 0) then call_memmove memory initial size
       else ret tt) ;;;
      ret (Some (mkFile file file_mapping memory size)).

(** [Win32MemoryMappedFile::~Win32MemoryMappedFile]. *)
Definition destroy (f : Win32MemoryMappedFile) : IO unit :=
  (if negb (memory_ f =? 0)
   then call_UnmapViewOfFile (memory_ f) ;;; ret tt
   else ret tt) ;;;
  (if negb (file_mapping_ f =? 0)
   then call_CloseHandle (file_mapping_ f) ;;; ret tt
   else ret tt) ;;;
  call_CloseHandle (file_ f) ;;;
  ret tt.
End WithOS.

(** *** Resources a trace has acquired

    The handles and views that the OS handed out during a run, read off
    its trace: what a destructor may legitimately release. *)
Definition acquired_handle (h : Z) (e : event) : bool :=
  match e with
  | EvCreateFileA _ _ _ _ r => (r =? h) && negb (r =? INVALID_HANDLE_VALUE)
  | EvCreateFileMapping _ _ _ _ r => (r =? h) && negb (r =? 0)
  | _ => false
  end.

Definition acquired_view (m : Z) (e : event) : bool :=
  match e with
  | EvMapViewOfFile _ _ _ r => (r =? m) && negb (r =? 0)
  | _ => false
  end.

(** An event passes when it releases nothing, or something that the trace
    [tr] acquired. *)
Definition releases_only_acquired (tr : list event) (e : event) : bool :=
  match e with
  | EvUnmapViewOfFile m _ => existsb (acquired_view m) tr
  | EvCloseHandle h _ => existsb (acquired_handle h) tr
  | _ => true
  end.

(** An object built by the run with trace [tr] is safely destructible when
    its destructor, whatever the state it runs in, releases only what the
    run acquired. *)
Definition safely_destructible (K : Win32) (tr : list event)
           (f : Win32MemoryMappedFile) : Prop :=
  forall s, forallb (releases_only_acquired tr) (trace (destroy K f s)) = true.

(** Requests that the OS refused: a file that cannot be opened or a
    mapping object that cannot be created, and a view that cannot be
    mapped. *)
Definition failed_file_or_mapping (e : event) : bool :=
  match e with
  | EvCreateFileA _ _ _ _ r => r =? INVALID_HANDLE_VALUE
  | EvCreateFileMapping _ _ _ _ r => r =? 0
  | _ => false
  end.

Definition failed_mapping (e : event) : bool :=
  match e with
  | EvCreateFileMapping _ _ _ _ r => r =? 0
  | _ => false
  end.

Definition failed_view (e : event) : bool :=
  match e with
  | EvMapViewOfFile _ _ _ r => r =? 0
  | _ => false
  end.

Definition zero_length (e : event) : bool :=
  match e with
  | EvGetFileSize _ r => r =? 0
  | _ => false
  end.

(** The file was opened with a handle that is one. *)
Definition opened_file (e : event) : bool :=
  match e with
  | EvCreateFileA _ _ _ _ r => negb (r =? INVALID_HANDLE_VALUE) && negb (r =? 0)
  | _ => false
  end.

(** *** A scripted Windows, to run the file functions on

    Every call that hands out a handle, a size or a pointer takes the next
    answer of the script (0 once it is exhausted); releasing succeeds. *)
Definition next_answer (s : list Z) : Z * list Z :=
  match s with
  | [] => (0, [])
  | a :: s' => (a, s')
  end.

Definition scripted : Win32 := {|
  os_state := list Z;
  CreateFileA := fun _ _ _ _ => next_answer;
  GetFileSize := fun _ => next_answer;
  CreateFileMapping := fun _ _ _ _ => next_answer;
  MapViewOfFile := fun _ _ _ => next_answer;
  UnmapViewOfFile := fun _ s => (true, s);
  CloseHandle := fun _ s => (true, s)
|}.

End MappedFile.

(** ** Shared-library addresses for stack traces *)

Module Symbols.

Local Open Scope string_scope.
Local Open Scope Z_scope.

(** Constants of <windows.h>, <dbghelp.h> and <tlhelp32.h>. *)
Definition INVALID_HANDLE_VALUE : Z := -1.
Definition SYMOPT_LOAD_LINES : Z := 0x10.
Definition SYMOPT_FAIL_CRITICAL_ERRORS : Z := 0x200.
Definition TH32CS_SNAPMODULE : Z := 0x8.
Definition ERROR_INVALID_HANDLE : Z := 6.
Definition ERROR_MOD_NOT_FOUND : Z := 126.

Definition DBGHELP_FUNCTION_LIST : list string :=
  [ "SymInitialize"; "SymGetOptions"; "SymSetOptions"; "SymGetSearchPath";
    "SymLoadModule64"; "StackWalk64"; "SymGetSymFromAddr64";
    "SymGetLineFromAddr64"; "SymFunctionTableAccess64"; "SymGetModuleBase64" ].

Definition TLHELP32_FUNCTION_LIST : list string :=
  [ "CreateToolhelp32Snapshot"; "Module32FirstW"; "Module32NextW" ].

(** The fields of [MODULEENTRY32W] that the code reads. *)
Record MODULEENTRY32W : Type := mkEntry {
  szExePath : string;
  szModule : string;
  modBaseAddr : Z;
  modBaseSize : Z
}.

(** Modelled from the spec: [OS::SharedLibraryAddress] of platform.h, the
    entry [{module_name, base_address, end_address}] of the symbol table. *)
Record SharedLibraryAddress : Type := mkAddress {
  library_path : string;
  start : Z;
  end_ : Z
}.

(** The diagnostic libraries.  A snapshot is a finite list of module
    entries, fixed when [CreateToolhelp32Snapshot] takes it;
    [Module32FirstW] and [Module32NextW] walk that list, so the walk is a
    recursion over it.  [GetCurrentProcess] is the constant pseudo-handle.
    [kStackWalkMaxNameLen] is the constant of that name of platform.h, a
    parameter here. *)
Record Win32 : Type := {
  os_state : Type;
  pointer_bits : Z;
  kStackWalkMaxNameLen : Z;
  GetCurrentProcess : Z;
  GetCurrentProcessId : Z;
  LoadLibrary : string -> os_state -> Z * os_state;
  GetProcAddress : Z -> string -> os_state -> Z * os_state;
  SymInitialize : Z -> os_state -> bool * os_state;
  SymGetOptions : os_state -> Z * os_state;
  SymSetOptions : Z -> os_state -> Z * os_state;
  SymGetSearchPath : Z -> Z -> os_state -> bool * os_state;
  CreateToolhelp32Snapshot : Z -> Z -> os_state
                             -> (Z * list MODULEENTRY32W) * os_state;
  SymLoadModule64 : Z -> MODULEENTRY32W -> os_state -> Z * os_state;
  GetLastError : os_state -> Z;
  CloseHandle : Z -> os_state -> bool * os_state
}.

Inductive event : Type :=
| EvLoadLibrary (name : string) (result : Z)
| EvGetProcAddress (module : Z) (name : string) (result : Z)
| EvSymInitialize (process_handle : Z) (result : bool)
| EvSymGetOptions (result : Z)
| EvSymSetOptions (options : Z) (result : Z)
| EvSymGetSearchPath (process_handle length : Z) (result : bool)
| EvCreateToolhelp32Snapshot (flags pid : Z) (result : Z)
| EvModule32FirstW (snapshot : Z) (result : option MODULEENTRY32W)
| EvModule32NextW (snapshot : Z) (result : option MODULEENTRY32W)
| EvSymLoadModule64 (process_handle : Z) (entry : MODULEENTRY32W) (result : Z)
| EvPrint (err : Z)
| EvCloseHandle (handle : Z) (result : bool).

(** The table of dynamically loaded function pointers ([DLL_FUNC_VAR]),
    keyed by function name; a name that is absent is [nullptr]. *)
Definition dll_table := list (string * Z).

Fixpoint dll_func_var (name : string) (t : dll_table) : Z :=
  match t with
  | [] => 0
  | (n, v) :: t' => if String.eqb n name then v else dll_func_var name t'
  end.

Definition set_dll_func_var (name : string) (v : Z) (t : dll_table)
  : dll_table := (name, v) :: t.

Section WithOS.
Variable K : Win32.

(** The process: the OS, the function pointers, and the statics
    [dbghelp_loaded] (of [LoadDbgHelpAndTlHelp32]), [symbols_loaded] and
    [result] (of [LoadSymbols]). *)
Record process : Type := mkProcess {
  os : os_state K;
  dll_funcs : dll_table;
  dbghelp_loaded : bool;
  symbols_loaded : bool;
  result : list SharedLibraryAddress
}.

Definition initial_process (s : os_state K) : process :=
  mkProcess s [] false false [].

Definition Dbg := M process event.

Local Open Scope run_scope.

Definition with_os (p : process) (s : os_state K) : process :=
  mkProcess s (dll_funcs p) (dbghelp_loaded p) (symbols_loaded p) (result p).

(** A call into the OS that answers [r] and is logged as [ev r]. *)
Definition os_call {A} (f : os_state K -> A * os_state K) (ev : A -> event)
  : Dbg A :=
  fun p =>
    let (r, s) := f (os p) in
    mkRun (Returned r) [ev r] (with_os p s).

Definition get {A} (f : process -> A) : Dbg A :=
  fun p => mkRun (Returned (f p)) [] p.

Definition put (f : process -> process) : Dbg unit :=
  fun p => mkRun (Returned tt) [] (f p).

Definition set_result (v : list SharedLibraryAddress) (p : process) :=
  mkProcess (os p) (dll_funcs p) (dbghelp_loaded p) (symbols_loaded p) v.

Definition set_symbols_loaded (v : bool) (p : process) :=
  mkProcess (os p) (dll_funcs p) (dbghelp_loaded p) v (result p).

Definition set_dbghelp_loaded (v : bool) (p : process) :=
  mkProcess (os p) (dll_funcs p) v (symbols_loaded p) (result p).

Definition set_dll_funcs (v : dll_table) (p : process) :=
  mkProcess (os p) v (dbghelp_loaded p) (symbols_loaded p) (result p).

(** [LOAD_DLL_FUNC] applied to every name of a function list. *)
Fixpoint LOAD_DLL_FUNCS (module : Z) (names : list string) : Dbg unit :=
  match names with
  | [] => ret tt
  | name :: names' =>
      f <- os_call (GetProcAddress K module name)
                   (EvGetProcAddress module name) ;;
      t <- get dll_funcs ;;
      put (set_dll_funcs (set_dll_func_var name f t)) ;;;
      LOAD_DLL_FUNCS module names'
  end.

(** [DLL_FUNC_LOADED] over both lists, closed with [true]. *)
Definition DLL_FUNCS_LOADED (t : dll_table) : bool :=
  forallb (fun name => negb (dll_func_var name t =? 0))
          (DBGHELP_FUNCTION_LIST ++ TLHELP32_FUNCTION_LIST).

Definition LoadDbgHelpAndTlHelp32 : Dbg bool :=
  loaded <- get dbghelp_loaded ;;
  if (loaded : bool) then ret true
  else
    module <- os_call (LoadLibrary K "dbghelp.dll") (EvLoadLibrary "dbghelp.dll") ;;
    if module =? 0 then ret false
    else
      LOAD_DLL_FUNCS module DBGHELP_FUNCTION_LIST ;;;
      module <- os_call (LoadLibrary K "kernel32.dll")
                        (EvLoadLibrary "kernel32.dll") ;;
      if module =? 0 then ret false
      else
        LOAD_DLL_FUNCS module TLHELP32_FUNCTION_LIST ;;;
        t <- get dll_funcs ;;
        let result := DLL_FUNCS_LOADED t in
        put (set_dbghelp_loaded result) ;;;
        ret result.

(** The name pushed for a module: [WideCharToMultiByte] is asked for the
    length with the terminating NUL, so the [std::string] ends in it. *)
Definition lib_name (e : MODULEENTRY32W) : string :=
  szExePath e ++ String Ascii.zero EmptyString.

Definition wrap_uintptr (z : Z) : Z := z mod 2 ^ pointer_bits K.

(** The [while (cont)] loop of [LoadSymbols] over the entries that the
    snapshot still holds; [first] tells whether the entry at the head is
    delivered by [Module32FirstW] or by [Module32NextW].  The loop answers
    whether it ran to the end. *)
Fixpoint LoadSymbols_loop (process_handle snapshot : Z) (first : bool)
         (entries : list MODULEENTRY32W) : Dbg bool :=
  let walk := if first then EvModule32FirstW snapshot
              else EvModule32NextW snapshot in
  match entries with
  | [] => os_call (fun s => (None, s)) walk ;;; ret true
  | module_entry :: entries' =>
      os_call (fun s => (Some module_entry, s)) walk ;;;
      base <- os_call (SymLoadModule64 K process_handle module_entry)
                      (EvSymLoadModule64 process_handle module_entry) ;;
      stop <- (if base =? 0 then
                 err <- get (fun p => GetLastError K (os p)) ;;
                 ret (negb (err =? ERROR_MOD_NOT_FOUND)
                      && negb (err =? ERROR_INVALID_HANDLE))
               else ret false) ;;
      if (stop : bool)
      then put (set_result []) ;;; ret false
      else
        r <- get result ;;
        put (set_result
               (r ++ [mkAddress (lib_name module_entry)
                                (modBaseAddr module_entry)
                                (wrap_uintptr (modBaseAddr module_entry
                                               + modBaseSize module_entry))])%list) ;;;
        LoadSymbols_loop process_handle snapshot false entries'
  end.

Definition LoadSymbols (process_handle : Z)
  : Dbg (list SharedLibraryAddress) :=
  loaded <- get symbols_loaded ;;
  if (loaded : bool) then get result
  else
    ok <- os_call (SymInitialize K process_handle)
                  (EvSymInitialize process_handle) ;;
    if negb ok then get result
    else
      options <- os_call (SymGetOptions K) EvSymGetOptions ;;
      let options := Z.lor options SYMOPT_LOAD_LINES in
      let options := Z.lor options SYMOPT_FAIL_CRITICAL_ERRORS in
      options <- os_call (SymSetOptions K options) (EvSymSetOptions options) ;;
      ok <- os_call (SymGetSearchPath K process_handle
                                      (kStackWalkMaxNameLen K))
                    (EvSymGetSearchPath process_handle
                                        (kStackWalkMaxNameLen K)) ;;
      if negb ok then
        err <- get (fun p => GetLastError K (os p)) ;;
        os_call (fun s => (tt, s)) (fun _ => EvPrint err) ;;;
        get result
      else
        snap <- os_call (CreateToolhelp32Snapshot K TH32CS_SNAPMODULE
                                                  (GetCurrentProcessId K))
                        (fun r => EvCreateToolhelp32Snapshot
                                    TH32CS_SNAPMODULE (GetCurrentProcessId K)
                                    (fst r)) ;;
        let snapshot := fst snap in
        if snapshot =? INVALID_HANDLE_VALUE then get result
        else
          finished <- LoadSymbols_loop process_handle snapshot true (snd snap) ;;
          if (finished : bool) then
            os_call (CloseHandle K snapshot) (EvCloseHandle snapshot) ;;;
            put (set_symbols_loaded true) ;;;
            get result
          else get result.

(** [OS::GetSharedLibraryAddresses]. *)
Definition GetSharedLibraryAddresses : Dbg (list SharedLibraryAddress) :=
  loaded <- LoadDbgHelpAndTlHelp32 ;;
  if negb loaded then ret []
  else
    let process_handle := GetCurrentProcess K in
    LoadSymbols process_handle.
End WithOS.

Arguments os {K} p.
Arguments dll_funcs {K} p.
Arguments dbghelp_loaded {K} p.
Arguments symbols_loaded {K} p.
Arguments result {K} p.

(** *** A scripted Windows, to run the symbol loader on

    The state is the list of answers still to be given to [LoadLibrary] (0
    once it is exhausted).  Every function asked of a loaded module is
    found, the symbol engine initializes, and the snapshot holds
    [modules]. *)
Definition scripted (modules : list MODULEENTRY32W) : Win32 := {|
  os_state := list Z;
  pointer_bits := 64;
  kStackWalkMaxNameLen := 256;
  GetCurrentProcess := -1;
  GetCurrentProcessId := 4242;
  LoadLibrary := fun _ s =>
    match s with
    | [] => (0, [])
    | a :: s' => (a, s')
    end;
  GetProcAddress := fun module _ s => (module + 1, s);
  SymInitialize := fun _ s => (true, s);
  SymGetOptions := fun s => (0, s);
  SymSetOptions := fun options s => (options, s);
  SymGetSearchPath := fun _ _ s => (true, s);
  CreateToolhelp32Snapshot := fun _ _ s => ((77, modules), s);
  SymLoadModule64 := fun _ e s => (modBaseAddr e, s);
  GetLastError := fun _ => 0;
  CloseHandle := fun _ s => (true, s)
|}.

Definition two_modules : list MODULEENTRY32W :=
  [ mkEntry "C:/v8/d8.exe" "d8.exe" 0x400000 0x200000;
    mkEntry "C:/Windows/System32/ntdll.dll" "ntdll.dll" 0x7FF800000000 0x1F0000 ].

End Symbols.

(** ** Local time and the timezone cache *)

Module Tz.

Local Open Scope string_scope.
Local Open Scope Z_scope.

(** Two's-complement wrap-around of the 32-bit [LONG] and the 64-bit
    [int64_t]. *)
Definition wrap_signed (bits z : Z) : Z :=
  (z + 2 ^ (bits - 1)) mod 2 ^ bits - 2 ^ (bits - 1).

Definition wrap32 : Z -> Z := wrap_signed 32.
Definition wrap64 : Z -> Z := wrap_signed 64.

Definition INT_MAX : Z := 2147483647.
Definition TIME_ZONE_ID_INVALID : Z := 0xFFFFFFFF.

Record SYSTEMTIME : Type := mkSystemTime {
  wYear : Z;
  wMonth : Z;
  wDayOfWeek : Z;
  wDay : Z;
  wHour : Z;
  wMinute : Z;
  wSecond : Z;
  wMilliseconds : Z
}.

(** [TIME_ZONE_INFORMATION]; the names are held as the UTF-8 strings that
    [WideCharToMultiByte] makes of them. *)
Record TIME_ZONE_INFORMATION : Type := mkTzInfo {
  Bias : Z;
  StandardName : string;
  StandardDate : SYSTEMTIME;
  StandardBias : Z;
  DaylightName : string;
  DaylightDate : SYSTEMTIME;
  DaylightBias : Z
}.

(** [struct tm]. *)
Record tm : Type := mkTm {
  tm_sec : Z;
  tm_min : Z;
  tm_hour : Z;
  tm_mday : Z;
  tm_mon : Z;
  tm_year : Z;
  tm_wday : Z;
  tm_yday : Z;
  tm_isdst : Z
}.

(** The time functions of Windows and of the C runtime.
    [GetTimeZoneInformation] answers its return value and the structure it
    filled in (the code zeroes the structure first); [localtime_s] answers
    [None] for a nonzero error code; [TimeCurrentMillis] is the clock
    behind [OS::TimeCurrentMillis], read in whole milliseconds. *)
Record Win32 : Type := {
  os_state : Type;
  _tzset : os_state -> os_state;
  GetTimeZoneInformation : os_state -> (Z * TIME_ZONE_INFORMATION) * os_state;
  localtime_s : Z -> os_state -> option tm;
  TimeCurrentMillis : os_state -> Z * os_state
}.

Inductive event : Type :=
| EvTzset
| EvGetTimeZoneInformation (result : Z)
| EvLocaltime (posix_time : Z) (result : option tm)
| EvTimeCurrentMillis (result : Z).

(** [class WindowsTimezoneCache]. *)
Record WindowsTimezoneCache : Type := mkCache {
  initialized_ : bool;
  std_tz_name_ : string;
  dst_tz_name_ : string;
  tzinfo_ : TIME_ZONE_INFORMATION
}.

(** [class Win32Time]: a timestamp in units of 100 ns since 1601-01-01. *)
Record Win32Time : Type := mkTime { t_ : Z }.

Definition kTzNameSize : Z := 128.
Definition kTimeEpoc : Z := 116444736000000000.
Definition kTimeScaler : Z := 10000.
Definition kMsPerMinute : Z := 60000.

(** [WindowsTimezoneCache::Clear]. *)
Definition Clear (c : WindowsTimezoneCache) : WindowsTimezoneCache :=
  mkCache false (std_tz_name_ c) (dst_tz_name_ c) (tzinfo_ c).

(** [WindowsTimezoneCache::GuessTimezoneNameFromBias]. *)
Definition GuessTimezoneNameFromBias (bias : Z) : string :=
  let kHour := 60 in
  let b := wrap32 (- bias) in
  if b =? -9 * kHour then "Alaska"
  else if b =? -8 * kHour then "Pacific"
  else if b =? -7 * kHour then "Mountain"
  else if b =? -6 * kHour then "Central"
  else if b =? -5 * kHour then "Eastern"
  else if b =? -4 * kHour then "Atlantic"
  else if b =? 0 * kHour then "GMT"
  else if b =? 1 * kHour then "Central Europe"
  else if b =? 2 * kHour then "Eastern Europe"
  else if b =? 3 * kHour then "Russia"
  else if b =? 5 * kHour + 30 then "India"
  else if b =? 8 * kHour then "China"
  else if b =? 9 * kHour then "Japan"
  else if b =? 12 * kHour then "New Zealand"
  else "Local".

(** The first [n] characters of a string: what a buffer of [n + 1] bytes
    keeps of it. *)
Definition truncate (n : Z) (s : string) : string :=
  String.substring 0 (Z.to_nat n) s.

Definition starts_with_at (s : string) : bool :=
  match s with
  | String c _ => Ascii.eqb c "@"%char
  | EmptyString => false
  end.

Definition is_empty (s : string) : bool :=
  match s with
  | EmptyString => true
  | _ => false
  end.

(** The fallback rule of [InitializeIfNeeded] (Central European Time),
    written into the structure [tz] that the failed call left. *)
Definition fall_back_to_CET (tz : TIME_ZONE_INFORMATION) : TIME_ZONE_INFORMATION :=
  let sd := StandardDate tz in
  let dd := DaylightDate tz in
  mkTzInfo (-60)
           (StandardName tz)
           (mkSystemTime (wYear sd) 10 (wDayOfWeek sd) 5 3
                         (wMinute sd) (wSecond sd) (wMilliseconds sd))
           0
           (DaylightName tz)
           (mkSystemTime (wYear dd) 3 (wDayOfWeek dd) 5 2
                         (wMinute dd) (wSecond dd) (wMilliseconds dd))
           (-60).

Section WithOS.
Variable K : Win32.

Definition TzM := M (os_state K) event.

Local Open Scope run_scope.

Definition call_tzset : TzM unit :=
  fun s => mkRun (Returned tt) [EvTzset] (_tzset K s).

Definition call_GetTimeZoneInformation : TzM (Z * TIME_ZONE_INFORMATION) :=
  fun s =>
    let (r, s') := GetTimeZoneInformation K s in
    mkRun (Returned r) [EvGetTimeZoneInformation (fst r)] s'.

Definition call_localtime_s (posix_time : Z) : TzM (option tm) :=
  fun s =>
    let r := localtime_s K posix_time s in
    mkRun (Returned r) [EvLocaltime posix_time r] s.

Definition call_TimeCurrentMillis : TzM Z :=
  fun s =>
    let (r, s') := TimeCurrentMillis K s in
    mkRun (Returned r) [EvTimeCurrentMillis r] s'.

(** [WindowsTimezoneCache::InitializeIfNeeded].  The names the OS gives
    fit their buffers, and so do the guessed ones. *)
Definition InitializeIfNeeded (c : WindowsTimezoneCache)
  : TzM WindowsTimezoneCache :=
  if initialized_ c then ret c
  else
    call_tzset ;;;
    r <- call_GetTimeZoneInformation ;;
    let tzinfo :=
      if fst r =? TIME_ZONE_ID_INVALID then fall_back_to_CET (snd r)
      else snd r in
    let std_tz_name := truncate (kTzNameSize - 1) (StandardName tzinfo) in
    let dst_tz_name := truncate (kTzNameSize - 1) (DaylightName tzinfo) in
    let std_tz_name :=
      if is_empty std_tz_name || starts_with_at std_tz_name
      then GuessTimezoneNameFromBias (Bias tzinfo) ++ " Standard Time"
      else std_tz_name in
    let dst_tz_name :=
      if is_empty dst_tz_name || starts_with_at dst_tz_name
      then GuessTimezoneNameFromBias (Bias tzinfo) ++ " Daylight Time"
      else dst_tz_name in
    ret (mkCache true std_tz_name dst_tz_name tzinfo).

(** [Win32Time::Win32Time(double jstime)]; [jstime] is the value that
    [static_cast<int64_t>] makes of the double. *)
Definition Win32Time_of_jstime (jstime : Z) : Win32Time :=
  mkTime (wrap64 (wrap64 (jstime * kTimeScaler) + kTimeEpoc)).

(** [Win32Time::ToJSTime].  The quotient is an integer of magnitude
    below 2^53, which the conversion to [double] keeps as it is. *)
Definition ToJSTime (t : Win32Time) : Z :=
  Z.quot (wrap64 (t_ t - kTimeEpoc)) kTimeScaler.

(** [Win32Time::LocalOffset].  [ms] is the double [ToJSTime()] of the
    rounded time; the tests on [ms / 1000] are stated on [ms], and the
    cast to [time_t] truncates the quotient. *)
Definition LocalOffset (t : Win32Time) (c : WindowsTimezoneCache)
  : TzM (Z * WindowsTimezoneCache) :=
  c <- InitializeIfNeeded c ;;
  let rounded_to_second :=
    mkTime (Z.quot (Z.quot (t_ t) 1000) kTimeScaler * 1000 * kTimeScaler) in
  let ms := ToJSTime rounded_to_second in
  if (ms >? INT_MAX * 1000) || (ms <? 0) then ret (0, c)
  else
    let posix_time := Z.quot ms 1000 in
    r <- call_localtime_s posix_time ;;
    match r with
    | None => ret (0, c)
    | Some posix_local_time_struct =>
        if tm_isdst posix_local_time_struct >? 0 then
          ret (wrap32 (Bias (tzinfo_ c) + DaylightBias (tzinfo_ c))
               * - kMsPerMinute, c)
        else if tm_isdst posix_local_time_struct =? 0 then
          ret (wrap32 (Bias (tzinfo_ c) + StandardBias (tzinfo_ c))
               * - kMsPerMinute, c)
        else
          ret (Bias (tzinfo_ c) * - kMsPerMinute, c)
    end.

(** [Win32Time::InDST]. *)
Definition InDST (t : Win32Time) (c : WindowsTimezoneCache)
  : TzM (bool * WindowsTimezoneCache) :=
  c <- InitializeIfNeeded c ;;
  if negb (wMonth (StandardDate (tzinfo_ c)) =? 0)
     || negb (wMonth (DaylightDate (tzinfo_ c)) =? 0)
  then
    r <- LocalOffset t c ;;
    let offset := fst r in
    let dstofs :=
      wrap32 (- wrap32 (Bias (tzinfo_ (snd r)) + DaylightBias (tzinfo_ (snd r))))
      * kMsPerMinute in
    ret (offset =? dstofs, snd r)
  else ret (false, c).

(** [Win32Time::DaylightSavingsOffset]. *)
Definition DaylightSavingsOffset (t : Win32Time) (c : WindowsTimezoneCache)
  : TzM (Z * WindowsTimezoneCache) :=
  r <- InDST t c ;;
  ret (if fst r then 60 * kMsPerMinute else 0, snd r).

(** [Win32Time::LocalTimezone]. *)
Definition LocalTimezone (t : Win32Time) (c : WindowsTimezoneCache)
  : TzM (string * WindowsTimezoneCache) :=
  r <- InDST t c ;;
  ret (if fst r then dst_tz_name_ (snd r) else std_tz_name_ (snd r), snd r).

(** [WindowsTimezoneCache::LocalTimezone]. *)
Definition Cache_LocalTimezone (time : Z) (c : WindowsTimezoneCache)
  : TzM (string * WindowsTimezoneCache) :=
  LocalTimezone (Win32Time_of_jstime time) c.

(** [WindowsTimezoneCache::LocalTimeOffset]: neither argument is used. *)
Definition Cache_LocalTimeOffset (time_ms : Z) (is_utc : bool)
           (c : WindowsTimezoneCache) : TzM (Z * WindowsTimezoneCache) :=
  now <- call_TimeCurrentMillis ;;
  let t := Win32Time_of_jstime now in
  r1 <- LocalOffset t c ;;
  r2 <- DaylightSavingsOffset t (snd r1) ;;
  ret (wrap64 (fst r1 - fst r2), snd r2).

(** [WindowsTimezoneCache::DaylightSavingsOffset]. *)
Definition Cache_DaylightSavingsOffset (time : Z) (c : WindowsTimezoneCache)
  : TzM (Z * WindowsTimezoneCache) :=
  DaylightSavingsOffset (Win32Time_of_jstime time) c.
End WithOS.

(** The cache as [InitializeIfNeeded] leaves it: the cached rule set. *)
Definition cached (K : Win32) (c : WindowsTimezoneCache) (s : os_state K)
  : WindowsTimezoneCache :=
  match out (InitializeIfNeeded K c s) with
  | Returned c' => c'
  | Aborted => c
  end.

(** *** The specification's reading of [LocalOffset]

    The timestamp rounded down to whole seconds, as seconds since
    1970-01-01. *)
Definition posix_seconds (t : Win32Time) : Z :=
  (t_ t / 10000000 * 10000000 - kTimeEpoc) / 10000000.

(** The offsets, in milliseconds east of UTC, of the cached rules. *)
Definition standard_offset (tz : TIME_ZONE_INFORMATION) : Z :=
  - (Bias tz + StandardBias tz) * kMsPerMinute.

Definition daylight_offset (tz : TIME_ZONE_INFORMATION) : Z :=
  - (Bias tz + DaylightBias tz) * kMsPerMinute.

Definition plain_offset (tz : TIME_ZONE_INFORMATION) : Z :=
  - Bias tz * kMsPerMinute.

(** The local offset in the words of the specification, with the one
    case added that the code has besides: 0 outside the range in which
    local time is representable (the seconds do not fit a non-negative
    32-bit [time_t], or the conversion refuses them), and otherwise the
    daylight or the standard offset according to the breakdown; a
    breakdown that does not tell (a negative [tm_isdst]) gives the offset
    of the bias alone. *)
Definition LocalOffset_spec (tz : TIME_ZONE_INFORMATION)
           (localtime : Z -> option tm) (t : Win32Time) : Z :=
  let posix := posix_seconds t in
  if (posix <? 0) || (INT_MAX <? posix) then 0
  else match localtime posix with
       | None => 0
       | Some breakdown =>
           if 0 <? tm_isdst breakdown then daylight_offset tz
           else if tm_isdst breakdown =? 0 then standard_offset tz
           else plain_offset tz
       end.

Definition in_LONG (z : Z) : Prop := - 2 ^ 31 <= z < 2 ^ 31.

Definition in_int64 (z : Z) : Prop := - 2 ^ 63 <= z < 2 ^ 63.

(** *** A scripted Windows, to run the time functions on

    The zone rules and the local-time conversion are fixed; the state is
    the list of readings that the clock still has to give (0 once it is
    exhausted). *)
Definition scripted (id : Z) (tz : TIME_ZONE_INFORMATION)
           (localtime : Z -> option tm) : Win32 := {|
  os_state := list Z;
  _tzset := fun s => s;
  GetTimeZoneInformation := fun s => ((id, tz), s);
  localtime_s := fun posix_time _ => localtime posix_time;
  TimeCurrentMillis := fun s =>
    match s with
    | [] => (0, [])
    | now :: s' => (now, s')
    end
|}.

Definition no_date : SYSTEMTIME := mkSystemTime 0 0 0 0 0 0 0 0.

(** A breakdown of which only the daylight-saving flag matters. *)
Definition breakdown (isdst : Z) : tm := mkTm 0 0 0 1 0 70 4 0 isdst.

(** Lord Howe Island: UTC+10:30, and UTC+11 (a shift of half an hour) from
    the first Sunday of October to the first Sunday of April. *)
Definition lord_howe_rules : TIME_ZONE_INFORMATION :=
  mkTzInfo (-630)
           "Lord Howe Standard Time" (mkSystemTime 0 4 0 1 2 0 0 0) 0
           "Lord Howe Daylight Time" (mkSystemTime 0 10 0 1 2 0 0 0) (-30).

(** Daylight saving from 2023-09-30 15:30 UTC (1696087800) on; seconds
    past 0x7fffd27f are refused, as the 32-bit [localtime_s] does. *)
Definition lord_howe_localtime (posix_time : Z) : option tm :=
  if 0x7fffd27f <? posix_time then None
  else Some (breakdown (if 1696087800 <=? posix_time then 1 else 0)).

Definition lord_howe : Win32 := scripted 2 lord_howe_rules lord_howe_localtime.

(** A zone without daylight saving: no transition dates. *)
Definition utc_rules : TIME_ZONE_INFORMATION :=
  mkTzInfo 0 "Coordinated Universal Time" no_date 0
             "Coordinated Universal Time" no_date 0.

Definition utc : Win32 :=
  scripted 0 utc_rules (fun _ => Some (breakdown 0)).

(** A zone whose standard bias is not zero, under a conversion that
    cannot tell whether daylight saving applies. *)
Definition odd_rules : TIME_ZONE_INFORMATION :=
  mkTzInfo 480
           "Odd Standard Time" (mkSystemTime 0 11 0 1 2 0 0 0) 60
           "Odd Daylight Time" (mkSystemTime 0 3 0 2 2 0 0 0) (-60).

Definition odd : Win32 := scripted 1 odd_rules (fun _ => Some (breakdown (-1))).

(** A freshly constructed cache: only [initialized_] is set. *)
Definition new_cache : WindowsTimezoneCache :=
  mkCache false "" "" (mkTzInfo 0 "" no_date 0 "" no_date 0).

End Tz.

(** ** More of the timezone cache and of [Win32Time] *)

Module TzMore.

Import Tz.
Local Open Scope string_scope.
Local Open Scope Z_scope.

(** A zone name that can be shown: not empty, not a resource identifier
    (those start with an at sign), and short enough for the buffer of
    [kTzNameSize] bytes with its terminating NUL. *)
Definition presentable (name : string) : Prop :=
  is_empty name = false /\
  starts_with_at name = false /\
  (String.length name <= Z.to_nat (kTzNameSize - 1))%nat.

(** A Windows that cannot tell the time zone: [GetTimeZoneInformation]
    fails and leaves the zeroed structure as it was. *)
Definition zeroed : TIME_ZONE_INFORMATION :=
  mkTzInfo 0 "" no_date 0 "" no_date 0.

Definition clueless : Win32 :=
  scripted TIME_ZONE_ID_INVALID zeroed (fun _ => Some (breakdown 0)).

(** The Azores: UTC-1, and UTC+0 in summer, so that the daylight offset
    is zero. *)
Definition azores_rules : TIME_ZONE_INFORMATION :=
  mkTzInfo 60
           "Azores Standard Time" (mkSystemTime 0 10 0 5 1 0 0 0) 0
           "Azores Daylight Time" (mkSystemTime 0 3 0 5 0 0 0 0) (-60).

Definition azores : Win32 :=
  scripted 2 azores_rules
           (fun posix_time =>
              Some (breakdown (if 1700000000 <=? posix_time then 0 else 1))).

(** Central European Time, with the usual shift of one hour. *)
Definition cet_rules : TIME_ZONE_INFORMATION :=
  mkTzInfo (-60)
           "W. Europe Standard Time" (mkSystemTime 0 10 0 5 3 0 0 0) 0
           "W. Europe Daylight Time" (mkSystemTime 0 3 0 5 2 0 0 0) (-60).

(** Daylight saving before 2023-10-29 01:00 UTC (1698541200). *)
Definition cet : Win32 :=
  scripted 2 cet_rules
           (fun posix_time =>
              Some (breakdown (if posix_time <? 1698541200 then 1 else 0))).

(** Rules with the biases of Central Europe and no transition dates,
    under a conversion that reports daylight saving all the same. *)
Definition dateless_rules : TIME_ZONE_INFORMATION :=
  mkTzInfo (-60) "Dateless Standard Time" no_date 0
                 "Dateless Daylight Time" no_date (-60).

Definition dateless : Win32 :=
  scripted 2 dateless_rules (fun _ => Some (breakdown 1)).

(** Whether the rules have a transition date: the test of [InDST]. *)
Definition has_transitions (tz : TIME_ZONE_INFORMATION) : bool :=
  negb (wMonth (StandardDate tz) =? 0) || negb (wMonth (DaylightDate tz) =? 0).

(** A [LONG] whose negation is a [LONG] too. *)
Definition negatable_LONG (z : Z) : Prop := - 2 ^ 31 < z < 2 ^ 31.

(** The timestamps that [Win32Time(double)] takes without overflow. *)
Definition convertible (jstime : Z) : Prop :=
  in_int64 (jstime * kTimeScaler) /\
  in_int64 (jstime * kTimeScaler + kTimeEpoc).

End TzMore.

(** ** The clock of [Win32Time::SetToCurrentTime] *)

Module Clock.

Local Open Scope Z_scope.

(** [GetSystemTimeAsFileTime] gives the time in units of 100 ns since
    1601; [timeGetTime] the milliseconds since the system started, a
    [DWORD]. *)
Record Win32 : Type := {
  os_state : Type;
  GetSystemTimeAsFileTime : os_state -> Z * os_state;
  timeGetTime : os_state -> Z * os_state
}.

Inductive event : Type :=
| EvGetSystemTimeAsFileTime (result : Z)
| EvTimeGetTime (result : Z).

Definition kHundredNanosecondsPerSecond : Z := 10000000.
Definition kMaxClockElapsedTime : Z := 60 * kHundredNanosecondsPerSecond.

Definition wrap_DWORD (z : Z) : Z := z mod 2 ^ 32.

Section WithOS.
Variable K : Win32.

(** The process: the OS and the statics [initialized], [init_time] and
    [init_ticks] of [SetToCurrentTime], zero when the process starts. *)
Record process : Type := mkProcess {
  os : os_state K;
  initialized : bool;
  init_time : Z;
  init_ticks : Z
}.

Definition initial_process (s : os_state K) : process :=
  mkProcess s false 0 0.

Definition ClockM := M process event.

Local Open Scope run_scope.

Definition call_GetSystemTimeAsFileTime : ClockM Z :=
  fun p =>
    let (r, s) := GetSystemTimeAsFileTime K (os p) in
    mkRun (Returned r) [EvGetSystemTimeAsFileTime r]
          (mkProcess s (initialized p) (init_time p) (init_ticks p)).

Definition call_timeGetTime : ClockM Z :=
  fun p =>
    let (r, s) := timeGetTime K (os p) in
    mkRun (Returned r) [EvTimeGetTime r]
          (mkProcess s (initialized p) (init_time p) (init_ticks p)).

Definition get_statics : ClockM (bool * Z * Z) :=
  fun p => mkRun (Returned (initialized p, init_time p, init_ticks p)) [] p.

Definition set_statics (i : bool) (time ticks : Z) : ClockM unit :=
  fun p => mkRun (Returned tt) [] (mkProcess (os p) i time ticks).

(** [Win32Time::SetToCurrentTime]; the result is the [t_] it sets. *)
Definition SetToCurrentTime : ClockM Z :=
  st <- get_statics ;;
  let '(initialized, init_time, init_ticks) := st in
  let needs_resync := negb initialized in
  time_now <- call_GetSystemTimeAsFileTime ;;
  ticks_now <- call_timeGetTime ;;
  let needs_resync := needs_resync || (ticks_now <? init_ticks) in
  let needs_resync :=
    needs_resync
    || (Tz.wrap64 (time_now - init_time) >? kMaxClockElapsedTime) in
  let needs_resync := needs_resync || (time_now <? init_time) in
  synced <- (if needs_resync then
               init_time <- call_GetSystemTimeAsFileTime ;;
               ticks_now <- call_timeGetTime ;;
               set_statics true init_time ticks_now ;;;
               ret (init_time, ticks_now, ticks_now)
             else ret (init_time, init_ticks, ticks_now)) ;;
  let '(init_time, init_ticks, ticks_now) := synced in
  let elapsed := wrap_DWORD (ticks_now - init_ticks) in
  ret (Tz.wrap64 (init_time + elapsed * 10000)).
End WithOS.

Arguments os {K} p.
Arguments initialized {K} p.
Arguments init_time {K} p.
Arguments init_ticks {K} p.

(** What [timeGetTime] is documented to return: a [DWORD]. *)
Definition ticks_are_DWORDs (K : Win32) : Prop :=
  forall s, 0 <= fst (timeGetTime K s) < 2 ^ 32.

(** A scripted clock: the state is the list of pairs still to be read,
    the system time by [GetSystemTimeAsFileTime] and the tick count by
    the [timeGetTime] that follows it. *)
Definition scripted : Win32 := {|
  os_state := list (N * N);
  GetSystemTimeAsFileTime := fun s =>
    match s with
    | [] => (0, [])
    | (time, _) :: _ => (Z.of_N time mod 2 ^ 62, s)
    end;
  timeGetTime := fun s =>
    match s with
    | [] => (0, [])
    | (_, ticks) :: s' => (Z.of_N ticks mod 2 ^ 32, s')
    end
|}.

(** The times [GetSystemTimeAsFileTime] gives: units of 100 ns since
    1601, below 2^62 for any date before the year 16000. *)
Definition times_are_FILETIMEs (K : Win32) : Prop :=
  forall s, 0 <= fst (GetSystemTimeAsFileTime K s) < 2 ^ 62.

(** The statics hold a time and a tick count that the OS gave, or the
    zeroes of the start. *)
Definition statics_in_range {K : Win32} (p : process K) : Prop :=
  0 <= init_time p < 2 ^ 62 /\ 0 <= init_ticks p < 2 ^ 32.

(** When the clock is resynchronised: at the first call, when the tick
    count has wrapped around, when more than a minute of system time has
    passed since the last synchronisation, and when the system time has
    gone backwards. *)
Definition resyncs {K : Win32} (p : process K) (time_now ticks_now : Z) : bool :=
  negb (initialized p)
  || (ticks_now <? init_ticks p)
  || (init_time p + kMaxClockElapsedTime <? time_now)
  || (time_now <? init_time p).

End Clock.

(** ** More of the allocator: what a run holds and what it has given back *)

Module VMMore.

Import VM.

(** The bases of the regions that [VirtualAlloc] granted in a trace, and
    the addresses of the regions that [VirtualFree] released as a whole,
    both in order. *)
Definition granted (tr : list event) : list Z :=
  flat_map (fun e => match e with
                     | EvVirtualAlloc _ _ _ _ r => if r =? 0 then [] else [r]
                     | _ => []
                     end) tr.

Definition released (tr : list event) : list Z :=
  flat_map (fun e => match e with
                     | EvVirtualFree a _ free_type true =>
                         if free_type =? MEM_RELEASE then [a] else []
                     | _ => []
                     end) tr.

(** The regions a caller holds after a run that returned [a]. *)
Definition held (a : Z) : list Z := if a =? 0 then [] else [a].

(** The books of a run of the allocator balance when every region it was
    granted was released again, in the order of the grants, but for the
    region it returns; a run that aborts does so on the one region that
    the OS refused to take back. *)
Definition balanced (o : outcome Z) (tr : list event) : Prop :=
  match o with
  | Returned a => granted tr = released tr ++ held a
  | Aborted =>
      exists base before,
        granted tr = released tr ++ [base] /\
        tr = before ++ [EvVirtualFree base 0 MEM_RELEASE false]
  end.


(** A Windows on which [DiscardVirtualMemory] is found at [0x7FFA0000]
    and succeeds on every second call, starting with a failure; the state
    counts the calls. *)
Definition discarding : Win32 := {|
  os_state := nat;
  V8_HOST_ARCH_32_BIT := false;
  IsWindows10OrGreater := true;
  dwAllocationGranularity := 0x10000;
  VirtualAlloc := fun addr _ _ _ s => (addr, s);
  VirtualFree := fun _ _ _ s => (true, s);
  IsWow64Process := fun s => (Some false, s);
  GetProcAddress_DiscardVirtualMemory := fun s => (0x7FFA0000, s);
  DiscardVirtualMemory := fun _ _ s =>
    ((if Nat.even s then 87 else 0), S s)
|}.

End VMMore.

(** ** Random addresses for [OS::Allocate] hints *)

Module Random.

(** The platform random number generator: [NextBytes] fills a
    [uintptr_t]. *)
Record Win32 : Type := {
  rng_state : Type;
  V8_HOST_ARCH_64_BIT : bool;
  (** [kPageSizeBits], a constant that this file takes from a header;
      a parameter here. *)
  kPageSizeBits : Z;
  SetSeed : Z -> rng_state -> rng_state;
  NextBytes : rng_state -> Z * rng_state
}.

Inductive event : Type :=
| EvSetSeed (seed : Z)
| EvNextBytes (result : Z).

Section WithOS.
Variable K : Win32.

Definition Rng := M (rng_state K) event.

Local Open Scope run_scope.

Definition pointer_bits : Z := if V8_HOST_ARCH_64_BIT K then 64 else 32.

Definition wrap_uintptr (z : Z) : Z := z mod 2 ^ pointer_bits.

Definition kAllocationRandomAddressMin : Z :=
  if V8_HOST_ARCH_64_BIT K then 0x0000000080000000 else 0x04000000.

Definition kAllocationRandomAddressMax : Z :=
  if V8_HOST_ARCH_64_BIT K then 0x000003FFFFFF0000 else 0x3FFF0000.

Definition call_SetSeed (seed : Z) : Rng unit :=
  fun s => mkRun (Returned tt) [EvSetSeed seed] (SetSeed K seed s).

Definition call_NextBytes : Rng Z :=
  fun s =>
    let (r, s') := NextBytes K s in
    mkRun (Returned (wrap_uintptr r)) [EvNextBytes (wrap_uintptr r)] s'.

(** [OS::SetRandomMmapSeed]. *)
Definition SetRandomMmapSeed (seed : Z) : Rng unit :=
  if negb (seed =? 0) then call_SetSeed seed else ret tt.

(** [OS::GetRandomMmapAddr]. *)
Definition GetRandomMmapAddr : Rng Z :=
  address <- call_NextBytes ;;
  let address := wrap_uintptr (Z.shiftl address (kPageSizeBits K)) in
  let address := wrap_uintptr (address + kAllocationRandomAddressMin) in
  let address := Z.land address kAllocationRandomAddressMax in
  ret address.
End WithOS.

(** A generator that gives the numbers of a list, then zeroes. *)
Definition scripted (arch64 : bool) (page_size_bits : Z) : Win32 := {|
  rng_state := list Z;
  V8_HOST_ARCH_64_BIT := arch64;
  kPageSizeBits := page_size_bits;
  SetSeed := fun _ s => s;
  NextBytes := fun s =>
    match s with
    | [] => (0, [])
    | r :: s' => (r, s')
    end
|}.

End Random.

(** ** More of the mapped file: what is acquired and what is released *)

Module MappedFileMore.

Import MappedFile.

Inductive resource : Type :=
| Handle (h : Z)
| View (memory : Z).

(** The handles and views that the OS handed out in a trace, and those
    that the trace gave back, both in order. *)
Definition acquisitions (tr : list event) : list resource :=
  flat_map (fun e => match e with
                     | EvCreateFileA _ _ _ _ r =>
                         if r =? INVALID_HANDLE_VALUE then [] else [Handle r]
                     | EvCreateFileMapping _ _ _ _ r =>
                         if r =? 0 then [] else [Handle r]
                     | EvMapViewOfFile _ _ _ r =>
                         if r =? 0 then [] else [View r]
                     | _ => []
                     end) tr.

Definition releases (tr : list event) : list resource :=
  flat_map (fun e => match e with
                     | EvUnmapViewOfFile m _ => [View m]
                     | EvCloseHandle h _ => [Handle h]
                     | _ => []
                     end) tr.

End MappedFileMore.

(** ** More of the symbol loader: the modules a run has walked *)

Module SymbolsMore.

Import Symbols.

(** The entry that [LoadSymbols] pushes for a module. *)
Definition address_of (K : Win32) (e : MODULEENTRY32W) : SharedLibraryAddress :=
  mkAddress (lib_name e) (modBaseAddr e)
            (wrap_uintptr K (modBaseAddr e + modBaseSize e)).

(** The modules that [Module32FirstW] and [Module32NextW] delivered in a
    trace, in order. *)
Definition walked (tr : list event) : list MODULEENTRY32W :=
  flat_map (fun e => match e with
                     | EvModule32FirstW _ (Some m)
                     | EvModule32NextW _ (Some m) => [m]
                     | _ => []
                     end) tr.

(** Do the symbols of every module of a list load, or fail to load
    with one of the two errors that the walk passes over, a module that
    is not found and an invalid handle?  The OS is threaded through the
    loads, and the error is the one it holds after the load that
    failed. *)
Fixpoint walk_goes_through (K : Win32) (process_handle : Z)
         (entries : list MODULEENTRY32W) (s : os_state K) : bool :=
  match entries with
  | [] => true
  | e :: rest =>
      let (base, s') := SymLoadModule64 K process_handle e s in
      (negb (base =? 0)
       || (GetLastError K s' =? ERROR_MOD_NOT_FOUND)
       || (GetLastError K s' =? ERROR_INVALID_HANDLE))
      && walk_goes_through K process_handle rest s'
  end.

(** Before its symbols are loaded, a process has no addresses yet. *)
Definition nothing_yet {K : Win32} (p : process K) : Prop :=
  symbols_loaded p = false /\ result p = [].

(** A library that [LoadLibrary] did not find, or a function that
    [GetProcAddress] did not find in its library: the call came back
    null. *)
Definition found_missing (e : event) : bool :=
  match e with
  | EvLoadLibrary _ module => module =? 0
  | EvGetProcAddress _ _ address => address =? 0
  | _ => false
  end.

(** Are the pointers of all the functions of a list there? *)
Definition all_found (names : list string) (t : dll_table) : bool :=
  forallb (fun name => negb (dll_func_var name t =? 0)) names.

(** The static [dbghelp_loaded] is only set when every function pointer
    of both lists is there. *)
Definition pointers_ready {K : Win32} (p : process K) : Prop :=
  dbghelp_loaded p = true -> DLL_FUNCS_LOADED (dll_funcs p) = true.

(** The calls that go through the function pointers: all but the loading
    of the libraries and the lookup of the functions themselves (and the
    printing of an error and the closing of the snapshot, which come after
    such calls). *)
Definition through_a_pointer (e : event) : bool :=
  match e with
  | EvLoadLibrary _ _ | EvGetProcAddress _ _ _ => false
  | _ => true
  end.

(** A Windows on which the symbols of the second of three modules are
    not found (which is passed over), the state being the error that
    [GetLastError] gives for it. *)
Definition three_modules : list MODULEENTRY32W :=
  [ mkEntry "C:/v8/d8.exe" "d8.exe" 0x400000 0x200000;
    mkEntry "C:/v8/icu.dll" "icu.dll" 0x10000000 0x10000;
    mkEntry "C:/Windows/System32/ntdll.dll" "ntdll.dll" 0x7FF800000000 0x1F0000 ].

Definition picky : Win32 := {|
  os_state := Z;
  pointer_bits := 64;
  kStackWalkMaxNameLen := 256;
  GetCurrentProcess := -1;
  GetCurrentProcessId := 4242;
  LoadLibrary := fun _ s => (0x7FFA0000, s);
  GetProcAddress := fun module _ s => (module + 1, s);
  SymInitialize := fun _ s => (true, s);
  SymGetOptions := fun s => (0, s);
  SymSetOptions := fun options s => (options, s);
  SymGetSearchPath := fun _ _ s => (true, s);
  CreateToolhelp32Snapshot := fun _ _ s => ((77, three_modules), s);
  SymLoadModule64 := fun _ e s =>
    ((if modBaseAddr e =? 0x10000000 then 0 else modBaseAddr e), s);
  GetLastError := fun s => s;
  CloseHandle := fun _ s => (true, s)
|}.

End SymbolsMore.

(** ** User time *)

Module UserTime.

(** [GetThreadTimes] for the current thread: [None] when the call fails,
    and otherwise the user time that it stores, a [FILETIME] that the
    code reads as a [uint64_t] in units of 100 ns. *)
Record Win32 : Type := {
  os_state : Type;
  GetThreadTimes : os_state -> option Z * os_state
}.

Inductive event : Type :=
| EvGetThreadTimes (usertime : option Z).

Definition wrap_uint32 (z : Z) : Z := z mod 2 ^ 32.

Section WithOS.
Variable K : Win32.

Local Open Scope run_scope.

Definition call_GetThreadTimes : M (os_state K) event (option Z) :=
  fun s =>
    let (r, s') := GetThreadTimes K s in
    mkRun (Returned r) [EvGetThreadTimes r] s'.

(** [OS::GetUserTime]; [secs] and [usecs] are what the two pointers
    point to, and the result is the return value with what they point to
    afterwards. *)
Definition GetUserTime (secs usecs : Z) : M (os_state K) event (Z * Z * Z) :=
  r <- call_GetThreadTimes ;;
  match r with
  | None => ret (-1, secs, usecs)
  | Some usertime =>
      let usertime := usertime / 10 in
      let secs := wrap_uint32 (usertime / 1000000) in
      let usecs := wrap_uint32 (usertime mod 1000000) in
      ret (0, secs, usecs)
  end.
End WithOS.

(** A thread that has run for the time given by the state. *)
Definition scripted : Win32 := {|
  os_state := option N;
  GetThreadTimes := fun s => (option_map (fun t => Z.of_N t mod 2 ^ 64) s, s)
|}.

End UserTime.

(** ** Temporary files *)

Module TempFile.

Local Open Scope string_scope.
Local Open Scope Z_scope.

Definition MAX_PATH : Z := 260.

(** [GetTempPathA] and [GetTempFileNameA] answer their return value and
    what they leave in the buffer; [fopen_s] its error code and the
    stream it stores. *)
Record Win32 : Type := {
  os_state : Type;
  GetTempPathA : Z -> os_state -> (Z * string) * os_state;
  GetTempFileNameA : string -> string -> Z -> os_state
                     -> (Z * string) * os_state;
  fopen_s : string -> string -> os_state -> (Z * Z) * os_state;
  DeleteFileA : string -> os_state -> Z * os_state
}.

Inductive event : Type :=
| EvGetTempPathA (length : Z) (result : Z) (buffer : string)
| EvGetTempFileNameA (path prefix : string) (unique : Z) (result : Z)
                     (buffer : string)
| EvFopen (path mode : string) (error : Z) (stream : Z)
| EvDeleteFileA (path : string) (result : Z).

Section WithOS.
Variable K : Win32.

Definition IO := M (os_state K) event.

Local Open Scope run_scope.

Definition call_GetTempPathA (length : Z) : IO (Z * string) :=
  fun s =>
    let (r, s') := GetTempPathA K length s in
    mkRun (Returned r) [EvGetTempPathA length (fst r) (snd r)] s'.

Definition call_GetTempFileNameA (path prefix : string) (unique : Z)
  : IO (Z * string) :=
  fun s =>
    let (r, s') := GetTempFileNameA K path prefix unique s in
    mkRun (Returned r)
          [EvGetTempFileNameA path prefix unique (fst r) (snd r)] s'.

Definition call_fopen_s (path mode : string) : IO (Z * Z) :=
  fun s =>
    let (r, s') := fopen_s K path mode s in
    mkRun (Returned r) [EvFopen path mode (fst r) (snd r)] s'.

Definition call_DeleteFileA (path : string) : IO Z :=
  fun s =>
    let (r, s') := DeleteFileA K path s in
    mkRun (Returned r) [EvDeleteFileA path r] s'.

(** [OS::FOpen]. *)
Definition FOpen (path mode : string) : IO Z :=
  r <- call_fopen_s path mode ;;
  if fst r =? 0 then ret (snd r) else ret 0.

(** [OS::Remove]. *)
Definition Remove (path : string) : IO bool :=
  r <- call_DeleteFileA path ;;
  ret (negb (r =? 0)).

(** [OS::OpenTemporaryFile]. *)
Definition OpenTemporaryFile : IO Z :=
  path <- call_GetTempPathA MAX_PATH ;;
  let path_result := fst path in
  let tempPathBuffer := snd path in
  if (path_result >? MAX_PATH) || (path_result =? 0) then ret 0
  else
    name <- call_GetTempFileNameA tempPathBuffer "" 0 ;;
    let name_result := fst name in
    let tempNameBuffer := snd name in
    if name_result =? 0 then ret 0
    else
      result <- FOpen tempNameBuffer "w+" ;;
      (if negb (result =? 0)
       then Remove tempNameBuffer ;;; ret tt
       else ret tt) ;;;
      ret result.
End WithOS.

(** The files a trace opened, those it deleted, and the temporary files
    that [GetTempFileNameA] made (it creates the file whose name it
    gives). *)
Definition opened (tr : list event) : list string :=
  flat_map (fun e => match e with
                     | EvFopen path _ error _ =>
                         if error =? 0 then [path] else []
                     | _ => []
                     end) tr.

Definition deleted (tr : list event) : list string :=
  flat_map (fun e => match e with
                     | EvDeleteFileA path _ => [path]
                     | _ => []
                     end) tr.

Definition made (tr : list event) : list string :=
  flat_map (fun e => match e with
                     | EvGetTempFileNameA _ _ _ result buffer =>
                         if result =? 0 then [] else [buffer]
                     | _ => []
                     end) tr.

(** A scripted Windows: the state holds the answers of [GetTempPathA],
    of [GetTempFileNameA] and of [fopen_s]. *)
Definition scripted : Win32 := {|
  os_state := Z * Z * Z;
  GetTempPathA := fun _ s =>
    let '(path_result, _, _) := s in ((path_result, "C:/Temp/"), s);
  GetTempFileNameA := fun path _ _ s =>
    let '(_, name_result, _) := s in ((name_result, path ++ "1A2B.tmp"), s);
  fopen_s := fun _ _ s =>
    let '(_, _, error) := s in ((error, if error =? 0 then 0x5000 else 0), s);
  DeleteFileA := fun _ s => (1, s)
|}.

End TempFile.

(** ** Console output *)

Module Output.

Local Open Scope string_scope.
Local Open Scope Z_scope.

Definition STD_OUTPUT_HANDLE : Z := -11.
Definition INVALID_HANDLE_VALUE : Z := -1.
Definition FILE_TYPE_UNKNOWN : Z := 0.
Definition _TRUNCATE : Z := -1.

(** [enum OutputMode]. *)
Inductive OutputMode : Type := UNKNOWN | CONSOLE | ODS.

Definition OutputMode_eqb (a b : OutputMode) : bool :=
  match a, b with
  | UNKNOWN, UNKNOWN | CONSOLE, CONSOLE | ODS, ODS => true
  | _, _ => false
  end.

(** Streams are the addresses of their [FILE]s, [stdout] and [stderr]
    two of them; a [va_list] is passed on as it is.  A buffer is the list
    of its bytes; [_vsnprintf_s] answers its return value and the buffer
    as it leaves it. *)
Record Win32 : Type := {
  os_state : Type;
  stdout : Z;
  stderr : Z;
  GetStdHandle : Z -> os_state -> Z * os_state;
  GetFileType : Z -> os_state -> Z * os_state;
  _vsnprintf_s : list Z -> Z -> Z -> string -> Z -> os_state
                 -> (Z * list Z) * os_state;
  OutputDebugStringA : list Z -> os_state -> os_state;
  vfprintf : Z -> string -> Z -> os_state -> Z * os_state
}.

Inductive event : Type :=
| EvGetStdHandle (which : Z) (result : Z)
| EvGetFileType (handle : Z) (result : Z)
| Ev_vsnprintf_s (length count : Z) (format : string) (args : Z) (result : Z)
                 (buffer : list Z)
| EvOutputDebugStringA (buffer : list Z)
| EvVfprintf (stream : Z) (format : string) (args : Z) (result : Z).

(** [str[i] = byte], within the buffer. *)
Fixpoint store (str : list Z) (i : nat) (byte : Z) : list Z :=
  match str, i with
  | [], _ => []
  | _ :: rest, O => byte :: rest
  | c :: rest, S i' => c :: store rest i' byte
  end.

Section WithOS.
Variable K : Win32.

(** The process: the OS and the file-level static [output_mode]. *)
Record process : Type := mkProcess {
  os : os_state K;
  output_mode : OutputMode
}.

Definition initial_process (s : os_state K) : process := mkProcess s UNKNOWN.

Definition Out := M process event.

Local Open Scope run_scope.

Definition os_call {A} (f : os_state K -> A * os_state K) (ev : A -> event)
  : Out A :=
  fun p =>
    let (r, s) := f (os p) in
    mkRun (Returned r) [ev r] (mkProcess s (output_mode p)).

Definition get_output_mode : Out OutputMode :=
  fun p => mkRun (Returned (output_mode p)) [] p.

Definition set_output_mode (mode : OutputMode) : Out unit :=
  fun p => mkRun (Returned tt) [] (mkProcess (os p) mode).

(** [HasConsole]. *)
Definition HasConsole : Out bool :=
  mode <- get_output_mode ;;
  (if OutputMode_eqb mode UNKNOWN then
     handle <- os_call (GetStdHandle K STD_OUTPUT_HANDLE)
                       (EvGetStdHandle STD_OUTPUT_HANDLE) ;;
     if negb (handle =? INVALID_HANDLE_VALUE) then
       handle <- os_call (GetStdHandle K STD_OUTPUT_HANDLE)
                         (EvGetStdHandle STD_OUTPUT_HANDLE) ;;
       type <- os_call (GetFileType K handle) (EvGetFileType handle) ;;
       if negb (type =? FILE_TYPE_UNKNOWN)
       then set_output_mode CONSOLE
       else set_output_mode ODS
     else set_output_mode ODS
   else ret tt) ;;;
  mode <- get_output_mode ;;
  ret (OutputMode_eqb mode CONSOLE).

(** [OS::VSNPrintF]; the result is the return value with the buffer
    [str] as the call leaves it. *)
Definition VSNPrintF (str : list Z) (length : Z) (format : string) (args : Z)
  : Out (Z * list Z) :=
  r <- os_call (_vsnprintf_s K str length _TRUNCATE format args)
               (fun r => Ev_vsnprintf_s length _TRUNCATE format args
                                        (fst r) (snd r)) ;;
  let n := fst r in
  let str := snd r in
  if (n <? 0) || (n >=? length) then
    if length >? 0
    then ret (-1, store str (Z.to_nat (length - 1)) 0)
    else ret (-1, str)
  else ret (n, str).

(** [VPrintHelper]; [buffer] is what the 4096 bytes of the local array
    hold when the function is entered. *)
Definition VPrintHelper (stream : Z) (format : string) (args : Z)
           (buffer : list Z) : Out unit :=
  to_debugger <- (if (stream =? stdout K) || (stream =? stderr K)
                  then console <- HasConsole ;; ret (negb console)
                  else ret false) ;;
  if (to_debugger : bool) then
    r <- VSNPrintF buffer 4096 format args ;;
    os_call (fun s => (tt, OutputDebugStringA K (snd r) s))
            (fun _ => EvOutputDebugStringA (snd r))
  else
    os_call (vfprintf K stream format args) (EvVfprintf stream format args) ;;;
    ret tt.
End WithOS.

Arguments os {K} p.
Arguments output_mode {K} p.

(** Where a trace wrote: the streams given to [vfprintf], and the
    buffers given to the debugger. *)
Definition written (tr : list event) : list Z :=
  flat_map (fun e => match e with
                     | EvVfprintf stream _ _ _ => [stream]
                     | _ => []
                     end) tr.

Definition debugged (tr : list event) : list (list Z) :=
  flat_map (fun e => match e with
                     | EvOutputDebugStringA buffer => [buffer]
                     | _ => []
                     end) tr.

(** Is a buffer a C string within its first [length] bytes? *)
Definition terminated_within (length : Z) (str : list Z) : Prop :=
  exists i, (i < Z.to_nat length)%nat /\ nth_error str i = Some 0.

(** What the C runtime documents of [_vsnprintf_s] with [_TRUNCATE]: the
    buffer keeps its size, and when the output fits, the return value is
    its length and the buffer is terminated there. *)
Definition vsnprintf_contract (K : Win32) : Prop :=
  forall str length format args s,
    let r := fst (_vsnprintf_s K str length _TRUNCATE format args s) in
    List.length (snd r) = List.length str /\
    (0 <= fst r < length -> nth_error (snd r) (Z.to_nat (fst r)) = Some 0).

(** A process without a console (the standard output handle is invalid)
    whose C runtime writes the letter x [n] times, [n] being the state. *)
Definition windowed : Win32 := {|
  os_state := nat;
  stdout := 0x1000;
  stderr := 0x1030;
  GetStdHandle := fun _ s => (INVALID_HANDLE_VALUE, s);
  GetFileType := fun _ s => (FILE_TYPE_UNKNOWN, s);
  _vsnprintf_s := fun str length _ _ _ s =>
    ((if (Z.of_nat s <? length) && (Nat.ltb s (List.length str))
      then (Z.of_nat s, store (repeat 120 s ++ skipn s str) s 0)
      else (-1, str)), s);
  OutputDebugStringA := fun _ s => s;
  vfprintf := fun _ _ _ s => (Z.of_nat s, s)
|}.

End Output.

(** ** Threads *)

Module Threads.

Local Open Scope string_scope.
Local Open Scope Z_scope.

Definition INFINITE : Z := 0xFFFFFFFF.

(** Handles are pointer-sized words.  [_beginthreadex] answers its
    return value and the thread id it stores, if it stores one;
    [strncpy_s] its error code and the buffer as it leaves it.
    [kMaxThreadNameLength] is the size of [Thread::name_], a constant of
    platform.h and a parameter here. *)
Record Win32 : Type := {
  os_state : Type;
  pointer_bits : Z;
  kMaxThreadNameLength : Z;
  _beginthreadex : Z -> os_state -> (Z * option Z) * os_state;
  GetCurrentThreadId : os_state -> Z;
  WaitForSingleObject : Z -> Z -> os_state -> Z * os_state;
  CloseHandle : Z -> os_state -> bool * os_state;
  strncpy_s : list Z -> Z -> string -> Z -> os_state
              -> (Z * list Z) * os_state
}.

Inductive event : Type :=
| EvBeginthreadex (stack_size : Z) (result : Z) (thread_id : option Z)
| EvWaitForSingleObject (handle milliseconds : Z) (result : Z)
| EvCloseHandle (handle : Z) (result : bool)
| EvStrncpy (length : Z) (src : string) (count : Z) (result : Z)
            (dest : list Z).

(** [class Thread::PlatformData]. *)
Record PlatformData : Type := mkData {
  thread_ : Z;
  thread_id_ : Z
}.

(** The members of [class Thread] that this file uses. *)
Record Thread : Type := mkThread {
  name_ : list Z;
  stack_size_ : Z;
  start_semaphore_ : Z;
  data_ : PlatformData
}.

(** [str[i] = byte], within the buffer. *)
Fixpoint store (str : list Z) (i : nat) (byte : Z) : list Z :=
  match str, i with
  | [], _ => []
  | _ :: rest, O => byte :: rest
  | c :: rest, S i' => c :: store rest i' byte
  end.

Section WithOS.
Variable K : Win32.

Definition Th := M (os_state K) event.

Local Open Scope run_scope.

Definition wrap_size_t (z : Z) : Z := z mod 2 ^ pointer_bits K.

Definition wrap_unsigned (z : Z) : Z := z mod 2 ^ 32.

(** [INVALID_HANDLE_VALUE], all bits set. *)
Definition kNoThread : Z := wrap_size_t (-1).

(** [_TRUNCATE], [((size_t)-1)]. *)
Definition _TRUNCATE : Z := wrap_size_t (-1).

Definition os_call {A} (f : os_state K -> A * os_state K) (ev : A -> event)
  : Th A :=
  fun s =>
    let (r, s') := f s in
    mkRun (Returned r) [ev r] s'.

(** [OS::StrNCpy]; the result is [dest] as the call leaves it. *)
Definition StrNCpy (dest : list Z) (length : Z) (src : string) (n : Z)
  : Th (list Z) :=
  let buffer_size := wrap_size_t length in
  let n := if wrap_size_t (n + 1) >? buffer_size then _TRUNCATE else n in
  r <- os_call (strncpy_s K dest length src n)
               (fun r => EvStrncpy length src n (fst r) (snd r)) ;;
  ret (snd r).

(** [Thread::set_name]. *)
Definition set_name (t : Thread) (name : string) : Th Thread :=
  name_' <- StrNCpy (name_ t) (kMaxThreadNameLength K) name
                    (Z.of_nat (String.length name)) ;;
  let name_' := store name_' (Z.to_nat (kMaxThreadNameLength K - 1)) 0 in
  ret (mkThread name_' (stack_size_ t) (start_semaphore_ t) (data_ t)).

(** [Thread::Thread]; [name_0] and [thread_id_0] are what the members
    that the constructor does not initialize happen to hold. *)
Definition Thread_new (options_stack_size : Z) (options_name : string)
           (name_0 : list Z) (thread_id_0 : Z) : Th Thread :=
  let data_ := mkData kNoThread thread_id_0 in
  set_name (mkThread name_0 options_stack_size 0 data_) options_name.

(** [Thread::~Thread]. *)
Definition Thread_delete (t : Thread) : Th unit :=
  if negb (thread_ (data_ t) =? kNoThread)
  then os_call (CloseHandle K (thread_ (data_ t)))
               (EvCloseHandle (thread_ (data_ t))) ;;; ret tt
  else ret tt.

(** [Thread::Start]. *)
Definition Start (t : Thread) : Th (bool * Thread) :=
  r <- os_call (_beginthreadex K (wrap_unsigned (stack_size_ t)))
               (fun r => EvBeginthreadex (wrap_unsigned (stack_size_ t))
                                         (fst r) (snd r)) ;;
  let result := wrap_size_t (fst r) in
  let thread_id_' :=
    match snd r with
    | Some id => id
    | None => thread_id_ (data_ t)
    end in
  ret (negb (result =? 0),
       mkThread (name_ t) (stack_size_ t) (start_semaphore_ t)
                (mkData result thread_id_')).

(** [Thread::Join]. *)
Definition Join (t : Thread) : Th unit :=
  fun s =>
    if negb (thread_id_ (data_ t) =? GetCurrentThreadId K s)
    then (os_call (WaitForSingleObject K (thread_ (data_ t)) INFINITE)
                  (EvWaitForSingleObject (thread_ (data_ t)) INFINITE) ;;;
          ret tt) s
    else ret tt s.
End WithOS.

(** The handles a trace closed, and the counts it gave to [strncpy_s]. *)
Definition closed (tr : list event) : list Z :=
  flat_map (fun e => match e with
                     | EvCloseHandle handle _ => [handle]
                     | _ => []
                     end) tr.



(** A 64-bit Windows on which the threads get the handles of a list, and
    none once it is exhausted; [strncpy_s] copies what fits and
    terminates it. *)
Fixpoint copy (dest : list Z) (src : string) : list Z :=
  match dest, src with
  | [], _ => []
  | [_], _ => [0]
  | _ :: rest, EmptyString => 0 :: rest
  | _ :: rest, String c src' => Z.of_nat (Ascii.nat_of_ascii c) :: copy rest src'
  end.

Definition scripted : Win32 := {|
  os_state := list Z;
  pointer_bits := 64;
  kMaxThreadNameLength := 16;
  _beginthreadex := fun _ s =>
    match s with
    | [] => ((0, None), [])
    | handle :: s' => ((handle, Some (handle + 1)), s')
    end;
  GetCurrentThreadId := fun _ => 1;
  WaitForSingleObject := fun _ _ s => (0, s);
  CloseHandle := fun _ s => (true, s);
  strncpy_s := fun dest _ src _ s => ((0, copy dest src), s)
|}.

End Threads.

(** * Theorems *)

(** ** Runs *)

Section RunFacts.
Context {St Ev : Type}.

Lemma post_ret {A} (a : A) p (Q : outcome A -> list Ev -> St -> Prop) :
  Q (Returned a) [] p -> post (ret a) p Q.
Proof. intro H; exact H. Qed.

Lemma post_bind {A B} (m : M St Ev A) (f : A -> M St Ev B) p
      (Q : outcome B -> list Ev -> St -> Prop) :
  post m p (fun o tr p' =>
              match o with
              | Aborted => Q Aborted tr p'
              | Returned a => post (f a) p' (fun o' tr' p'' => Q o' (tr ++ tr') p'')
              end) ->
  post (bind m f) p Q.
Proof.
  unfold post, bind. destruct (out (m p)); intro H; exact H.
Qed.

Lemma post_CHECK cond p (Q : outcome unit -> list Ev -> St -> Prop) :
  (cond = true -> Q (Returned tt) [] p) ->
  (cond = false -> Q Aborted [] p) ->
  post (CHECK cond) p Q.
Proof.
  unfold post, CHECK. destruct cond; simpl; auto.
Qed.

Lemma post_weaken {A} (m : M St Ev A) p (Q Q' : outcome A -> list Ev -> St -> Prop) :
  post m p Q -> (forall o tr p', Q o tr p' -> Q' o tr p') -> post m p Q'.
Proof. unfold post; auto. Qed.

Lemma post_run {A} (m : M St Ev A) p :
  post m p (fun o tr p' => o = out (m p) /\ tr = trace (m p) /\ p' = final (m p)).
Proof. unfold post; auto. Qed.
End RunFacts.

(** ** Virtual memory *)

(** Events before it do not spoil what the rest of a run established. *)
Ltac ends_well_tail H :=
  match goal with
  | |- VM.Allocate_ends_well _ _ ?o _ =>
      destruct o; simpl in H |- *; auto;
      repeat (rewrite existsb_app; simpl);
      rewrite H, ?orb_true_r; reflexivity
  end.

Section VMFacts.
Import VM.
Variable K : Win32.

Lemma post_call_VirtualAlloc addr size flags protect (p : process K)
      (Q : outcome Z -> list event -> process K -> Prop) :
  (forall r s, VirtualAlloc K addr size flags protect (os p) = (r, s) ->
               Q (Returned r) [EvVirtualAlloc addr size flags protect r]
                 (mkProcess K s (use_aslr p) (discard_virtual_memory p))) ->
  post (call_VirtualAlloc K addr size flags protect) p Q.
Proof.
  unfold post, call_VirtualAlloc.
  destruct (VirtualAlloc K addr size flags protect (os p)) as [r s] eqn:E.
  intro H. apply H. reflexivity.
Qed.

Lemma post_call_VirtualFree addr size free_type (p : process K)
      (Q : outcome bool -> list event -> process K -> Prop) :
  (forall r s, VirtualFree K addr size free_type (os p) = (r, s) ->
               Q (Returned r) [EvVirtualFree addr size free_type r]
                 (mkProcess K s (use_aslr p) (discard_virtual_memory p))) ->
  post (call_VirtualFree K addr size free_type) p Q.
Proof.
  unfold post, call_VirtualFree.
  destruct (VirtualFree K addr size free_type (os p)) as [r s] eqn:E.
  intro H. apply H. reflexivity.
Qed.

Lemma post_call_IsWow64Process (p : process K)
      (Q : outcome (option bool) -> list event -> process K -> Prop) :
  (forall r s, IsWow64Process K (os p) = (r, s) ->
               Q (Returned r) [EvIsWow64Process r]
                 (mkProcess K s (use_aslr p) (discard_virtual_memory p))) ->
  post (call_IsWow64Process K) p Q.
Proof.
  unfold post, call_IsWow64Process.
  destruct (IsWow64Process K (os p)) as [r s] eqn:E.
  intro H. apply H. reflexivity.
Qed.

(** [settle_use_aslr] returns the value it leaves in the static and makes
    no memory request; on a 64-bit host that value is [TRUE]. *)
Lemma settle_use_aslr_post (p : process K) :
  post (settle_use_aslr K) p
       (fun o tr p' =>
          o = Returned (use_aslr p') /\ memory_events tr = [] /\
          (V8_HOST_ARCH_32_BIT K = false -> use_aslr p' = 1)).
Proof.
  unfold settle_use_aslr.
  destruct (V8_HOST_ARCH_32_BIT K) eqn:Harch.
  - apply post_bind. unfold post at 1, get_use_aslr; simpl.
    destruct (use_aslr p =? -1) eqn:Hu.
    + apply post_bind, post_call_IsWow64Process. intros r s _.
      destruct r as [b|]; apply post_bind; unfold post at 1, set_use_aslr; simpl;
        apply post_ret; simpl; repeat split; auto; discriminate.
    + apply post_ret. repeat split; auto; discriminate.
  - apply post_bind. unfold post at 1, set_use_aslr; simpl.
    apply post_ret. simpl. auto.
Qed.

Lemma memory_events_app (tr tr' : list event) :
  memory_events (tr ++ tr') = memory_events tr ++ memory_events tr'.
Proof. apply filter_app. Qed.

Lemma failed_free_memory_events (tr : list event) :
  existsb failed_free (memory_events tr) = existsb failed_free tr.
Proof.
  induction tr as [|e tr IH]; simpl; [reflexivity|].
  destruct e; simpl; rewrite ?IH; try reflexivity.
Qed.

(** The requests of [RandomizedVirtualAlloc]: it always returns; with
    ASLR in use and a protection other than [PAGE_READWRITE] it asks at
    the hint, and once more without an address if that fails; otherwise
    it asks once, without an address. *)
Lemma RandomizedVirtualAlloc_post size flags protect hint (p : process K) :
  post (RandomizedVirtualAlloc K size flags protect hint) p
       (fun o tr p' =>
          exists v,
            o = Returned v /\
            (V8_HOST_ARCH_32_BIT K = false -> use_aslr p' = 1) /\
            (VirtualAlloc_contract K -> 0 <= v) /\
            let hinted :=
              negb (use_aslr p' =? 0) && negb (protect =? PAGE_READWRITE) in
            (hinted = true /\ v <> 0 /\
             memory_events tr = [EvVirtualAlloc hint size flags protect v]) \/
            (hinted = true /\
             memory_events tr = [EvVirtualAlloc hint size flags protect 0;
                                 EvVirtualAlloc 0 size flags protect v]) \/
            (hinted = false /\
             memory_events tr = [EvVirtualAlloc 0 size flags protect v])).
Proof.
  unfold RandomizedVirtualAlloc.
  apply post_bind.
  eapply post_weaken; [apply settle_use_aslr_post|].
  intros o tr p1 (-> & Htr & Harch).
  set (hinted := negb (use_aslr p1 =? 0) && negb (protect =? PAGE_READWRITE)).
  apply post_bind.
  destruct hinted eqn:Hh.
  - apply post_call_VirtualAlloc. intros r s Hr.
    destruct (r =? 0) eqn:Hr0.
    + apply Z.eqb_eq in Hr0. subst r.
      apply post_call_VirtualAlloc. intros v s' Hv. simpl.
      exists v. repeat split; auto.
      * intros HK. specialize (HK 0 size flags protect s).
        simpl in Hv. rewrite Hv in HK. apply HK.
      * right; left. split; [exact Hh|].
        rewrite !memory_events_app, Htr. reflexivity.
    + apply post_ret. simpl.
      apply Z.eqb_neq in Hr0.
      exists r. repeat split; auto.
      * intros HK. specialize (HK hint size flags protect (os p1)).
        rewrite Hr in HK. apply HK.
      * left. repeat split; auto.
        rewrite !memory_events_app, Htr. reflexivity.
  - apply post_ret. simpl.
    apply post_call_VirtualAlloc. intros v s' Hv. simpl.
    exists v. repeat split; auto.
    + intros HK. specialize (HK 0 size flags protect (os p1)).
      rewrite Hv in HK. apply HK.
    + right; right. split; [exact Hh|].
      rewrite !memory_events_app, Htr. reflexivity.
Qed.

Lemma RoundUp_multiple x m : RoundUp x m mod m = 0.
Proof. unfold RoundUp. apply Z_mod_mult. Qed.

Lemma RoundUp_ge x m : 0 < m -> x <= RoundUp x m.
Proof.
  intros Hm. unfold RoundUp.
  pose proof (Z.div_mod (x + m - 1) m ltac:(lia)) as Hdiv.
  pose proof (Z.mod_pos_bound (x + m - 1) m Hm) as Hmod.
  nia.
Qed.

Lemma multiple_of_multiple a m g : 0 < g -> a mod m = 0 -> m mod g = 0 -> a mod g = 0.
Proof.
  intros Hg Ha Hm.
  destruct (Z.eq_dec m 0) as [->|Hm0].
  - rewrite Z.mod_0_r in Ha by auto. subst a. apply Z.mod_0_l. lia.
  - apply Z.mod_divide in Ha; [|exact Hm0].
    apply Z.mod_divide in Hm; [|lia].
    apply Z.mod_divide; [lia|].
    eapply Z.divide_trans; eassumption.
Qed.

Lemma failed_free_tail (tr tr' : list event) :
  existsb failed_free tr' = true -> existsb failed_free (tr ++ tr') = true.
Proof. intros H. rewrite existsb_app, H. apply orb_true_r. Qed.

Lemma RandomizedVirtualAlloc_no_release size flags protect hint (p : process K) :
  post (RandomizedVirtualAlloc K size flags protect hint) p
       (fun o tr p' =>
          exists v, o = Returned v /\ (VirtualAlloc_contract K -> 0 <= v) /\
                    existsb failed_free tr = false).
Proof.
  eapply post_weaken; [apply RandomizedVirtualAlloc_post|].
  intros o tr p' (v & -> & _ & Hv & Hshape).
  exists v. repeat split; auto.
  rewrite <- failed_free_memory_events.
  destruct Hshape as [(_ & _ & ->)|[(_ & ->)|(_ & ->)]]; reflexivity.
Qed.

Lemma Allocate_loop_ends_well size alignment padded_size flags protect n :
  forall base (p : process K),
    (n = O -> base = 0) ->
    post (Allocate_loop K n size alignment padded_size flags protect 0 base) p
         (fun o tr _ => Allocate_ends_well K alignment o tr).
Proof.
  induction n as [|n IH]; intros base p Hbase.
  - apply post_ret. simpl. auto.
  - simpl. apply post_bind.
    eapply post_weaken; [apply RandomizedVirtualAlloc_no_release|].
    intros o tr p1 (v & -> & Hv & Htr).
    destruct (v =? 0) eqn:Hv0.
    + apply post_ret. simpl. auto.
    + apply Z.eqb_neq in Hv0.
      apply post_bind, post_call_VirtualFree. intros ok s _.
      apply post_bind, post_CHECK; intros ->.
      2:{ simpl. rewrite !existsb_app. simpl. rewrite !orb_true_r. reflexivity. }
      apply post_bind, post_call_VirtualAlloc. intros a s' Ha. simpl in Ha.
      destruct (a =? 0) eqn:Ha0; simpl.
      * apply Z.eqb_eq in Ha0. subst a.
        eapply post_weaken; [apply IH; auto|].
        intros o tr' p' H. ends_well_tail H.
      * apply post_ret. simpl. intros contract Hg Hal Hge. right.
        apply Z.eqb_neq in Ha0.
        pose proof (contract (RoundUp v alignment) size flags protect s) as Hc.
        rewrite Ha in Hc. simpl in Hc. destruct Hc as [_ Hc].
        specialize (Hv contract).
        pose proof (RoundUp_ge v alignment ltac:(lia)) as Hup.
        destruct Hc as [Hc|Hc]; [lia| |contradiction|].
        -- apply (multiple_of_multiple _ alignment); auto.
           apply RoundUp_multiple.
        -- subst a. apply RoundUp_multiple.
Qed.

Lemma Allocate_ends_well_post hint size alignment access (p : process K) :
  post (Allocate K hint size alignment access) p
       (fun o tr _ => Allocate_ends_well K alignment o tr).
Proof.
  unfold Allocate.
  apply post_bind.
  eapply post_weaken; [apply RandomizedVirtualAlloc_no_release|].
  intros o tr p1 (v & -> & Hv & Htr).
  destruct (v =? 0) eqn:Hv0.
  - apply post_ret. simpl. auto.
  - destruct (v =? RoundUp v alignment) eqn:Hva.
    + apply post_ret. simpl. intros _ _ _ _. right.
      apply Z.eqb_eq in Hva. rewrite Hva. apply RoundUp_multiple.
    + apply post_bind, post_call_VirtualFree. intros ok s _.
      apply post_bind, post_CHECK; intros ->.
      2:{ simpl. rewrite !existsb_app. simpl. rewrite !orb_true_r. reflexivity. }
      eapply post_weaken.
      * apply Allocate_loop_ends_well. discriminate.
      * intros o tr' p' H. ends_well_tail H.
Qed.

(** The scripted Windows keeps the contract. *)
Lemma scripted_contract arch32 win10 granularity :
  VirtualAlloc_contract (scripted arch32 win10 granularity).
Proof.
  intros addr size flags protect s. simpl.
  destruct s as [|a s]; simpl; [split; [lia|auto]|].
  destruct (addr =? 0) eqn:Haddr; simpl.
  - apply Z.eqb_eq in Haddr. split; [lia|]. intros H; contradiction.
  - destruct (Z.of_N a =? 0); simpl; [split; [lia|auto]|].
    destruct (Z.ltb_spec addr 0); split; auto; lia.
Qed.
End VMFacts.

(** C1.  Under the documented behaviour of [VirtualAlloc], a call of
    [Allocate] whose size and alignment are multiples of the allocation
    granularity, with an alignment of at least the granularity, returns
    null or an address that is a multiple of the alignment; the only other
    way the call can end is the process aborting on a release that the OS
    refused. *)
Theorem Allocate_aligned_or_null :
  forall (K : VM.Win32) hint size alignment access (p : VM.process K),
    VM.VirtualAlloc_contract K ->
    0 < VM.AllocatePageSize K ->
    size mod VM.AllocatePageSize K = 0 ->
    alignment mod VM.AllocatePageSize K = 0 ->
    VM.AllocatePageSize K <= alignment ->
    match out (VM.Allocate K hint size alignment access p) with
    | Returned a => a = 0 \/ a mod alignment = 0
    | Aborted =>
        existsb VM.failed_free
                (trace (VM.Allocate K hint size alignment access p)) = true
    end.
Proof.
  intros K hint size alignment access p HK Hg _ Hal Hge.
  pose proof (Allocate_ends_well_post K hint size alignment access p) as H.
  unfold post, VM.Allocate_ends_well in H.
  destruct (out (VM.Allocate K hint size alignment access p)); auto.
Qed.

(** A run that goes through the padded retry: the first base, 0x30000, is
    not a multiple of 0x20000; the padded region lands at 0x50000 and the
    request pinned at 0x60000 is granted. *)
Lemma Allocate_aligned_or_null_witness :
  VM.VirtualAlloc_contract VM.win64 /\
  0 < VM.AllocatePageSize VM.win64 /\
  0x20000 mod VM.AllocatePageSize VM.win64 = 0 /\
  VM.AllocatePageSize VM.win64 <= 0x20000 /\
  match out (VM.Allocate VM.win64 0 0x20000 0x20000 VM.kReadWrite
               (VM.initial_process VM.win64 [0x30000; 0x50000; 1]%N)) with
  | Returned a => a = 0 \/ a mod 0x20000 = 0
  | Aborted =>
      existsb VM.failed_free
              (trace (VM.Allocate VM.win64 0 0x20000 0x20000 VM.kReadWrite
                        (VM.initial_process VM.win64 [0x30000; 0x50000; 1]%N)))
      = true
  end.
Proof.
  split; [apply scripted_contract|].
  split; [reflexivity|].
  split; [reflexivity|].
  split; [discriminate|].
  apply (Allocate_aligned_or_null VM.win64 0 0x20000 0x20000 VM.kReadWrite
           (VM.initial_process VM.win64 [0x30000; 0x50000; 1]%N)).
  - apply scripted_contract.
  - reflexivity.
  - reflexivity.
  - reflexivity.
  - discriminate.
Defined.

Section PlacementFacts.
Import VM.
Variable K : Win32.

Lemma protection_is_read_write access :
  (GetProtectionFromMemoryPermission K access =? PAGE_READWRITE)
  = MemoryPermission_eqb access kReadWrite.
Proof.
  destruct access; simpl; try reflexivity;
    destruct (IsWindows10OrGreater K); reflexivity.
Qed.

(** With [PAGE_READWRITE] the hint plays no part. *)
Lemma RandomizedVirtualAlloc_read_write size flags hint hint' (p : process K) :
  RandomizedVirtualAlloc K size flags PAGE_READWRITE hint p
  = RandomizedVirtualAlloc K size flags PAGE_READWRITE hint' p.
Proof.
  unfold RandomizedVirtualAlloc, bind.
  destruct (out (settle_use_aslr K p)) as [aslr|]; [|reflexivity].
  change (PAGE_READWRITE =? PAGE_READWRITE) with true.
  rewrite andb_false_r. reflexivity.
Qed.

Lemma Allocate_starts_with_first hint size alignment access (p : process K) :
  exists rest,
    trace (Allocate K hint size alignment access p)
    = trace (RandomizedVirtualAlloc K size (Allocate_flags access)
               (GetProtectionFromMemoryPermission K access)
               (AlignedAddress hint alignment) p) ++ rest.
Proof.
  unfold Allocate, bind.
  destruct (out (RandomizedVirtualAlloc _ _ _ _ _ p)); simpl.
  - eexists. reflexivity.
  - exists []. symmetry. apply app_nil_r.
Qed.

(** On a 32-bit host the static is settled by the first call, from what
    [IsWow64Process] reports, and kept from then on. *)
Lemma settle_use_aslr_32_bit (p : process K) :
  V8_HOST_ARCH_32_BIT K = true ->
  use_aslr (final (settle_use_aslr K p))
  = (if use_aslr p =? -1
     then match fst (IsWow64Process K (os p)) with
          | Some true => 1
          | _ => 0
          end
     else use_aslr p) /\
  trace (settle_use_aslr K p)
  = (if use_aslr p =? -1
     then [EvIsWow64Process (fst (IsWow64Process K (os p)))]
     else []).
Proof.
  intros Harch. unfold settle_use_aslr. rewrite Harch.
  unfold bind, get_use_aslr, call_IsWow64Process, set_use_aslr, ret.
  cbn [out trace final].
  destruct (use_aslr p =? -1); [|split; reflexivity].
  destruct (IsWow64Process K (os p)) as [[[|]|] s];
    cbn [out trace final fst use_aslr]; split; reflexivity.
Qed.

(** The requests of [RandomizedVirtualAlloc] leave the static as the
    prologue settled it. *)
Lemma RandomizedVirtualAlloc_keeps_use_aslr size flags protect hint
      (p : process K) :
  use_aslr (final (RandomizedVirtualAlloc K size flags protect hint p))
  = use_aslr (final (settle_use_aslr K p)).
Proof.
  change (post (RandomizedVirtualAlloc K size flags protect hint) p
               (fun _ _ p' => use_aslr p' = use_aslr (final (settle_use_aslr K p)))).
  unfold RandomizedVirtualAlloc. apply post_bind.
  eapply post_weaken; [apply post_run|].
  intros o tr p1 (-> & _ & ->).
  destruct (out (settle_use_aslr K p)) as [aslr|]; [|reflexivity].
  apply post_bind.
  destruct (negb (aslr =? 0) && negb (protect =? PAGE_READWRITE)).
  - apply post_call_VirtualAlloc. intros r s _.
    destruct (r =? 0); [|apply post_ret; reflexivity].
    apply post_call_VirtualAlloc. intros v s' _. reflexivity.
  - apply post_ret. cbn [Z.eqb].
    apply post_call_VirtualAlloc. intros v s' _. reflexivity.
Qed.

Lemma hint_passed_memory_events hint (tr : list event) :
  hint_passed hint (memory_events tr) = hint_passed hint tr.
Proof.
  unfold hint_passed.
  induction tr as [|e tr IH]; [reflexivity|].
  destruct e; simpl; rewrite ?IH; reflexivity.
Qed.
End PlacementFacts.

(** C2 at work.  [Allocate] starts with one exact-size allocation.  That
    allocation asks at the (aligned) hint exactly when ASLR is in use and
    the permission is anything but read-write; then a failed request at
    the hint is followed by exactly one request without an address, whose
    answer is the result.  Otherwise it asks once, without an address.  A
    null result of it is reported as null, and with the read-write
    permission the whole call is the same whatever the hint.  ASLR is in
    use on every 64-bit host; on a 32-bit host the first call asks
    [IsWow64Process], and ASLR is in use from then on exactly when that
    call succeeded and reported WOW64.  The guard of the hinted request
    tests the protection against [PAGE_READWRITE] alone, so the
    read-only permission, which is neither executable nor no-access, is
    placed at the hint as well: wherever ASLR is in use, the hint of a
    read-only allocation is handed to [VirtualAlloc]. *)
Theorem Allocate_hint_placement :
  forall (K : VM.Win32) hint size alignment access (p : VM.process K),
    let flags := VM.Allocate_flags access in
    let protect := VM.GetProtectionFromMemoryPermission K access in
    let aligned_hint := AlignedAddress hint alignment in
    let first := VM.RandomizedVirtualAlloc K size flags protect aligned_hint p in
    let hinted := negb (VM.use_aslr (final first) =? 0)
                  && negb (VM.MemoryPermission_eqb access VM.kReadWrite) in
    (exists rest,
        trace (VM.Allocate K hint size alignment access p) = trace first ++ rest) /\
    (exists v,
        out first = Returned v /\
        if hinted then
          (v <> 0 /\
           VM.memory_events (trace first)
           = [VM.EvVirtualAlloc aligned_hint size flags protect v]) \/
          VM.memory_events (trace first)
          = [VM.EvVirtualAlloc aligned_hint size flags protect 0;
             VM.EvVirtualAlloc 0 size flags protect v]
        else
          VM.memory_events (trace first)
          = [VM.EvVirtualAlloc 0 size flags protect v]) /\
    (out first = Returned 0 ->
     out (VM.Allocate K hint size alignment access p) = Returned 0) /\
    (VM.V8_HOST_ARCH_32_BIT K = false -> VM.use_aslr (final first) = 1) /\
    (forall hint',
        VM.Allocate K hint size alignment VM.kReadWrite p
        = VM.Allocate K hint' size alignment VM.kReadWrite p) /\
    (VM.V8_HOST_ARCH_32_BIT K = true ->
     VM.use_aslr (final first)
     = (if VM.use_aslr p =? -1
        then match fst (VM.IsWow64Process K (VM.os p)) with
             | Some true => 1
             | _ => 0
             end
        else VM.use_aslr p)) /\
    VM.executable_or_no_access VM.kRead = false /\
    (access = VM.kRead ->
     VM.use_aslr (final first) <> 0 ->
     VM.hint_passed aligned_hint
       (trace (VM.Allocate K hint size alignment access p)) = true).
Proof.
  intros K hint size alignment access p flags protect aligned_hint first hinted.
  assert (Hstart : exists rest,
             trace (VM.Allocate K hint size alignment access p)
             = trace first ++ rest)
    by apply Allocate_starts_with_first.
  split; [exact Hstart|].
  pose proof (RandomizedVirtualAlloc_post K size flags protect aligned_hint p) as H.
  unfold post in H. fold first in H.
  destruct H as (v & Hout & Harch & _ & Hshape).
  assert (Hp : (protect =? VM.PAGE_READWRITE)
               = VM.MemoryPermission_eqb access VM.kReadWrite)
    by apply protection_is_read_write.
  cbv zeta in Hshape. rewrite Hp in Hshape. fold hinted in Hshape.
  assert (Hrequests :
            if hinted then
              (v <> 0 /\
               VM.memory_events (trace first)
               = [VM.EvVirtualAlloc aligned_hint size flags protect v]) \/
              VM.memory_events (trace first)
              = [VM.EvVirtualAlloc aligned_hint size flags protect 0;
                 VM.EvVirtualAlloc 0 size flags protect v]
            else
              VM.memory_events (trace first)
              = [VM.EvVirtualAlloc 0 size flags protect v]).
  { destruct hinted.
    - destruct Hshape as [(_ & Hv & Htr)|[(_ & Htr)|(Hh & _)]]; auto; discriminate.
    - destruct Hshape as [(Hh & _)|[(Hh & _)|(_ & Htr)]]; auto; discriminate. }
  split; [exists v; split; [exact Hout | exact Hrequests]|].
  split; [|split; [|split; [|split; [|split]]]].
  - intros Hnull. unfold VM.Allocate, bind.
    fold flags protect aligned_hint first. rewrite Hnull. reflexivity.
  - exact Harch.
  - intros hint'. unfold VM.Allocate, bind. simpl.
    rewrite (RandomizedVirtualAlloc_read_write K size _
               (AlignedAddress hint alignment) (AlignedAddress hint' alignment) p).
    reflexivity.
  - intros Harch32. unfold first.
    rewrite RandomizedVirtualAlloc_keeps_use_aslr.
    apply settle_use_aslr_32_bit, Harch32.
  - reflexivity.
  - intros Hread Haslr.
    destruct Hstart as (rest & ->).
    unfold VM.hint_passed. rewrite existsb_app.
    fold (VM.hint_passed aligned_hint (trace first)).
    rewrite <- hint_passed_memory_events.
    assert (Hhinted : hinted = true).
    { unfold hinted. rewrite Hread. apply Z.eqb_neq in Haslr.
      rewrite Haslr. reflexivity. }
    rewrite Hhinted in Hrequests.
    destruct Hrequests as [(_ & ->) | ->]; cbn [VM.hint_passed existsb];
      rewrite Z.eqb_refl; reflexivity.
Qed.

(** A read-only allocation on a 64-bit host: the hint is handed to
    [VirtualAlloc], and the allocation is placed there. *)
Lemma hint_passed_for_read_only :
  VM.executable_or_no_access VM.kRead = false /\
  VM.hint_passed 0x12340000
    (trace (VM.Allocate VM.win64 0x12340000 0x10000 0x10000 VM.kRead
              (VM.initial_process VM.win64 [1%N]))) = true /\
  out (VM.Allocate VM.win64 0x12340000 0x10000 0x10000 VM.kRead
         (VM.initial_process VM.win64 [1%N])) = Returned 0x12340000.
Proof. repeat split. Qed.

Section RetryFacts.
Import VM.
Variable K : Win32.

(** Without a hint, the requests of [RandomizedVirtualAlloc] are a padded
    request. *)
Lemma RandomizedVirtualAlloc_padded_request size flags protect (p : process K) :
  post (RandomizedVirtualAlloc K size flags protect 0) p
       (fun o tr _ =>
          exists v, o = Returned v /\
                    padded_request size flags protect (memory_events tr) v).
Proof.
  eapply post_weaken; [apply RandomizedVirtualAlloc_post|].
  intros o tr p' (v & -> & _ & _ & Hshape).
  exists v. split; [reflexivity|]. unfold padded_request.
  destruct Hshape as [(_ & _ & ->)|[(_ & ->)|(_ & ->)]]; auto.
Qed.

Lemma Allocate_loop_padded_retries size alignment padded_size flags protect n :
  forall base (p : process K),
    (n = O -> base = 0) ->
    post (Allocate_loop K n size alignment padded_size flags protect 0 base) p
         (fun o tr _ =>
            padded_retries size alignment padded_size flags protect n
                           (memory_events tr) o).
Proof.
  induction n as [|n IH]; intros base p Hbase.
  - apply post_ret. rewrite Hbase by reflexivity. constructor.
  - simpl. apply post_bind.
    eapply post_weaken; [apply RandomizedVirtualAlloc_padded_request|].
    intros o tr p1 (v & -> & Hreq).
    destruct (v =? 0) eqn:Hv0.
    + apply Z.eqb_eq in Hv0. subst v.
      apply post_ret. cbv beta. rewrite (app_nil_r tr).
      apply retries_out_of_memory, Hreq.
    + apply Z.eqb_neq in Hv0.
      apply post_bind, post_call_VirtualFree. intros ok s _.
      apply post_bind, post_CHECK; intros ->.
      2:{ cbv beta. rewrite !memory_events_app. simpl.
          apply retries_release_failed; assumption. }
      apply post_bind, post_call_VirtualAlloc. intros a s' _.
      destruct (a =? 0) eqn:Ha0; simpl.
      * apply Z.eqb_eq in Ha0. subst a.
        eapply post_weaken; [apply IH; auto|].
        intros o tr' p' H. cbv beta in H |- *.
        rewrite !memory_events_app. simpl.
        apply (retries_again _ _ _ _ _ n (memory_events tr) v
                             (memory_events tr') o Hv0 Hreq H).
      * apply Z.eqb_neq in Ha0.
        apply post_ret. cbv beta. rewrite !memory_events_app. simpl.
        apply retries_granted; assumption.
Qed.
Lemma Allocate_after_first hint size alignment access (p : process K) :
  let flags := Allocate_flags access in
  let protect := GetProtectionFromMemoryPermission K access in
  let first := RandomizedVirtualAlloc K size flags protect
                 (AlignedAddress hint alignment) p in
  let padded_size :=
    wrap_size_t K (size + wrap_size_t K (alignment - AllocatePageSize K)) in
  post (Allocate K hint size alignment access) p
       (fun o tr _ =>
          forall base,
            out first = Returned base ->
            base <> 0 ->
            base <> RoundUp base alignment ->
            exists ok rest,
              memory_events tr
              = memory_events (trace first)
                ++ EvVirtualFree base 0 MEM_RELEASE ok :: rest /\
              if ok
              then padded_retries size alignment padded_size flags protect
                                  kMaxAttempts rest o
              else rest = [] /\ o = Aborted).
Proof.
  intros flags protect first padded_size.
  unfold Allocate. fold flags protect padded_size.
  apply post_bind.
  eapply post_weaken; [apply post_run|].
  intros o tr p1 (-> & -> & ->). fold first.
  destruct (out first) as [v|] eqn:Hv; [|intros base Hb; discriminate].
  destruct (v =? 0) eqn:Hv0.
  { apply post_ret. intros base [= <-] Hb.
    apply Z.eqb_eq in Hv0. contradiction. }
  destruct (v =? RoundUp v alignment) eqn:Hva.
  { apply post_ret. intros base [= <-] _ Hb.
    apply Z.eqb_eq in Hva. contradiction. }
  apply post_bind, post_call_VirtualFree. intros ok s _.
  apply post_bind, post_CHECK; intros ->.
  - eapply post_weaken;
      [apply (Allocate_loop_padded_retries size alignment padded_size flags
                protect kMaxAttempts); discriminate|].
    intros o tr' p' H base [= <-] _ _. cbv beta in H.
    exists true, (memory_events tr'). split; [|exact H].
    rewrite !memory_events_app. reflexivity.
  - intros base [= <-] _ _.
    exists false, []. split; [|split; reflexivity].
    rewrite !memory_events_app. reflexivity.
Qed.

(** The padded retries make at most [n] pinned requests, and end with null
    when [n] of them were refused. *)
Lemma padded_retries_count size alignment padded_size flags protect n rest o :
  padded_retries size alignment padded_size flags protect n rest o ->
  (List.length (filter refused_pinned_request rest) <= n)%nat /\
  (List.length (filter pinned_request rest) <= n)%nat /\
  (List.length (filter refused_pinned_request rest) = n -> o = Returned 0).
Proof.
  induction 1 as [ | n req Hreq | n req base Hbase Hreq
                   | n req base a Hbase Hreq Ha
                   | n req base rest o Hbase Hreq Hrest IH ].
  - simpl. auto.
  - destruct Hreq as [-> | ->]; simpl; repeat split; auto; lia.
  - destruct Hreq as [-> | ->]; simpl; repeat split; try lia; discriminate.
  - apply Z.eqb_neq in Ha.
    destruct Hreq as [-> | ->]; simpl; rewrite Ha, andb_false_r;
      destruct (RoundUp base alignment =? 0); simpl; repeat split; try lia;
      discriminate.
  - destruct IH as (IH1 & IH2 & IH3).
    destruct Hreq as [-> | ->]; simpl;
      destruct (RoundUp base alignment =? 0); simpl; repeat split; try lia;
      intros Hn; apply IH3; lia.
Qed.
End RetryFacts.

(** C3.  When the first exact-size allocation returns a base that is not
    aligned, [Allocate] releases that region and, the release granted,
    goes on with the padded retries, without a hint: at most 3 attempts,
    each a request for [size + alignment - granularity] bytes, the release
    of what it got, and a request for [size] bytes pinned at the aligned
    address inside; null when all 3 pinned requests fail. *)
Theorem Allocate_padded_retries :
  forall (K : VM.Win32) hint size alignment access (p : VM.process K) base,
    let flags := VM.Allocate_flags access in
    let protect := VM.GetProtectionFromMemoryPermission K access in
    let first := VM.RandomizedVirtualAlloc K size flags protect
                   (AlignedAddress hint alignment) p in
    let padded_size := size + alignment - VM.AllocatePageSize K in
    let whole := VM.Allocate K hint size alignment access p in
    0 <= size ->
    0 <= VM.AllocatePageSize K <= alignment ->
    padded_size < 2 ^ VM.pointer_bits K ->
    out first = Returned base ->
    base <> 0 ->
    base <> RoundUp base alignment ->
    exists ok rest,
      VM.memory_events (trace whole)
      = VM.memory_events (trace first)
        ++ VM.EvVirtualFree base 0 VM.MEM_RELEASE ok :: rest /\
      if ok
      then VM.padded_retries size alignment padded_size flags protect
                             VM.kMaxAttempts rest (out whole) /\
           (List.length (filter VM.pinned_request rest) <= 3)%nat /\
           (List.length (filter VM.refused_pinned_request rest) = 3%nat ->
            out whole = Returned 0)
      else rest = [] /\ out whole = Aborted.
Proof.
  intros K hint size alignment access p base flags protect first padded_size
         whole Hsize Hgran Hfits Hfirst Hbase Hmis.
  assert (Hpad : VM.wrap_size_t K
                   (size + VM.wrap_size_t K (alignment - VM.AllocatePageSize K))
                 = padded_size).
  { unfold VM.wrap_size_t, padded_size in *.
    rewrite (Z.mod_small (alignment - _)) by lia.
    rewrite Z.mod_small by lia. lia. }
  pose proof (Allocate_after_first K hint size alignment access p) as H.
  cbv zeta in H. unfold post in H. rewrite Hpad in H.
  destruct (H base Hfirst Hbase Hmis) as (ok & rest & Htrace & Hrest).
  exists ok, rest. split; [exact Htrace|].
  destruct ok; [|exact Hrest].
  split; [exact Hrest|].
  apply (padded_retries_count _ _ _ _ _ _ _ _ Hrest).
Qed.

(** The run of the witness of C1: 0x30000 is released, the padded request
    for 0x30000 bytes gives 0x50000, which is released, and the request
    pinned at 0x60000 is granted. *)
Lemma Allocate_padded_retries_witness :
  0 <= 0x20000 /\
  0 <= VM.AllocatePageSize VM.win64 <= 0x20000 /\
  0x20000 + 0x20000 - VM.AllocatePageSize VM.win64
  < 2 ^ VM.pointer_bits VM.win64 /\
  out (VM.RandomizedVirtualAlloc VM.win64 0x20000
         (VM.Allocate_flags VM.kReadWrite)
         (VM.GetProtectionFromMemoryPermission VM.win64 VM.kReadWrite)
         (AlignedAddress 0 0x20000)
         (VM.initial_process VM.win64 [0x30000; 0x50000; 1]%N))
  = Returned 0x30000 /\
  0x30000 <> 0 /\
  0x30000 <> RoundUp 0x30000 0x20000 /\
  exists ok rest,
    VM.memory_events
      (trace (VM.Allocate VM.win64 0 0x20000 0x20000 VM.kReadWrite
                (VM.initial_process VM.win64 [0x30000; 0x50000; 1]%N)))
    = VM.memory_events
        (trace (VM.RandomizedVirtualAlloc VM.win64 0x20000
                  (VM.Allocate_flags VM.kReadWrite)
                  (VM.GetProtectionFromMemoryPermission VM.win64 VM.kReadWrite)
                  (AlignedAddress 0 0x20000)
                  (VM.initial_process VM.win64 [0x30000; 0x50000; 1]%N)))
      ++ VM.EvVirtualFree 0x30000 0 VM.MEM_RELEASE ok :: rest /\
    if ok
    then VM.padded_retries 0x20000 0x20000
           (0x20000 + 0x20000 - VM.AllocatePageSize VM.win64)
           (VM.Allocate_flags VM.kReadWrite)
           (VM.GetProtectionFromMemoryPermission VM.win64 VM.kReadWrite)
           VM.kMaxAttempts rest
           (out (VM.Allocate VM.win64 0 0x20000 0x20000 VM.kReadWrite
                   (VM.initial_process VM.win64 [0x30000; 0x50000; 1]%N))) /\
         (List.length (filter VM.pinned_request rest) <= 3)%nat /\
         (List.length (filter VM.refused_pinned_request rest) = 3%nat ->
          out (VM.Allocate VM.win64 0 0x20000 0x20000 VM.kReadWrite
                 (VM.initial_process VM.win64 [0x30000; 0x50000; 1]%N))
          = Returned 0)
    else rest = [] /\
         out (VM.Allocate VM.win64 0 0x20000 0x20000 VM.kReadWrite
                (VM.initial_process VM.win64 [0x30000; 0x50000; 1]%N))
         = Aborted.
Proof.
  assert (H1 : 0 <= 0x20000) by discriminate.
  assert (H2 : 0 <= VM.AllocatePageSize VM.win64 <= 0x20000)
    by (split; discriminate).
  assert (H3 : 0x20000 + 0x20000 - VM.AllocatePageSize VM.win64
               < 2 ^ VM.pointer_bits VM.win64) by reflexivity.
  assert (H4 : out (VM.RandomizedVirtualAlloc VM.win64 0x20000
                      (VM.Allocate_flags VM.kReadWrite)
                      (VM.GetProtectionFromMemoryPermission VM.win64 VM.kReadWrite)
                      (AlignedAddress 0 0x20000)
                      (VM.initial_process VM.win64 [0x30000; 0x50000; 1]%N))
               = Returned 0x30000) by reflexivity.
  assert (H5 : 0x30000 <> 0) by discriminate.
  assert (H6 : 0x30000 <> RoundUp 0x30000 0x20000) by discriminate.
  repeat (split; [assumption|]).
  exact (Allocate_padded_retries VM.win64 0 0x20000 0x20000 VM.kReadWrite
           (VM.initial_process VM.win64 [0x30000; 0x50000; 1]%N) 0x30000
           H1 H2 H3 H4 H5 H6).
Defined.

(** C4 at work.  [GetProtectionFromMemoryPermission] maps
    [kNoAccessWillJitLater] and [kNoAccess] to the same protection, but
    the flags of [Allocate] single out [kNoAccess]: it alone is reserved
    without being committed, so the two permissions ask different things
    of [VirtualAlloc]. *)
Theorem NoAccessWillJitLater_is_committed :
  forall K : VM.Win32,
    VM.GetProtectionFromMemoryPermission K VM.kNoAccessWillJitLater
    = VM.GetProtectionFromMemoryPermission K VM.kNoAccess /\
    VM.Allocate_flags VM.kNoAccess = VM.MEM_RESERVE /\
    VM.Allocate_flags VM.kNoAccessWillJitLater
    = Z.lor VM.MEM_RESERVE VM.MEM_COMMIT /\
    trace (VM.Allocate VM.win64 0 0x10000 0x10000 VM.kNoAccess
             (VM.initial_process VM.win64 [0x10000%N]))
    = [VM.EvVirtualAlloc 0 0x10000 0x2000 VM.PAGE_NOACCESS 0x10000] /\
    trace (VM.Allocate VM.win64 0 0x10000 0x10000 VM.kNoAccessWillJitLater
             (VM.initial_process VM.win64 [0x10000%N]))
    = [VM.EvVirtualAlloc 0 0x10000 0x3000 VM.PAGE_NOACCESS 0x10000].
Proof. intros K. repeat split. Qed.

(** ** Memory-mapped files *)

Section MappedFileFacts.
Import MappedFile.
Variable K : Win32.

Lemma acquired_handle_refl h :
  (h =? INVALID_HANDLE_VALUE) = false ->
  ((h =? h) && negb (h =? INVALID_HANDLE_VALUE)) = true.
Proof. intros ->. rewrite Z.eqb_refl. reflexivity. Qed.

Lemma acquired_nonnull_refl h :
  (h =? 0) = false -> ((h =? h) && negb (h =? 0)) = true.
Proof. intros ->. rewrite Z.eqb_refl. reflexivity. Qed.

(** The run of the destructor, call by call. *)
Ltac run_destroy :=
  unfold destroy, bind, call_UnmapViewOfFile, call_CloseHandle, ret;
  cbn [memory_ file_mapping_ file_ negb out trace final];
  repeat match goal with
         | |- context [UnmapViewOfFile K ?m ?s] =>
             destruct (UnmapViewOfFile K m s); cbn [out trace final]
         | |- context [CloseHandle K ?h ?s] =>
             destruct (CloseHandle K h s); cbn [out trace final]
         end.

Lemma open_post name mode s :
  post (open K name mode) s
       (fun o tr _ =>
          (existsb failed_file_or_mapping tr = true -> o = Returned None) /\
          (existsb failed_view tr = true ->
           exists f, o = Returned (Some f) /\ memory f = 0) /\
          (existsb zero_length tr = true ->
           exists f, o = Returned (Some f) /\ memory f = 0 /\ size f = 0) /\
          (forall f, o = Returned (Some f) -> safely_destructible K tr f) /\
          o <> Aborted).
Proof.
  unfold post, open, bind, call_CreateFileA, call_GetFileSize,
    call_CreateFileMapping, call_MapViewOfFile, ret.
  destruct (CreateFileA K name _ _ _ s) as [file s1]. cbn [out trace final].
  destruct (file =? INVALID_HANDLE_VALUE) eqn:Hfile; cbn [out trace final].
  { cbn. rewrite Hfile. repeat split; try discriminate. }
  destruct (GetFileSize K file s1) as [sz s2]. cbn [out trace final].
  destruct (sz =? 0) eqn:Hsz; cbn [out trace final].
  { cbn. rewrite Hfile, Hsz. repeat split; try discriminate.
    - intros _. eexists. repeat split.
    - intros f [= <-] s'. run_destroy. cbn.
      rewrite acquired_handle_refl by assumption. reflexivity. }
  destruct (CreateFileMapping K file _ 0 sz s2) as [mapping s3].
  cbn [out trace final].
  destruct (mapping =? 0) eqn:Hmap; cbn [out trace final].
  { cbn. rewrite Hfile, Hsz, Hmap. repeat split; try discriminate. }
  destruct (MapViewOfFile K mapping _ sz s3) as [view s4].
  cbn [out trace final]. cbn. rewrite Hfile, Hsz, Hmap. cbn.
  repeat split; try discriminate.
  - rewrite orb_false_r. intros Hview. eexists. split; [reflexivity|].
    apply Z.eqb_eq in Hview. exact Hview.
  - intros f [= <-] s'. run_destroy.
    destruct (view =? 0) eqn:Hview; cbn [negb]; run_destroy;
      rewrite Hmap; cbn [negb]; run_destroy; cbn;
      rewrite ?Z.eqb_refl, ?Hfile, ?Hmap, ?Hview; cbn;
      rewrite ?orb_true_r; reflexivity.
Qed.

Lemma create_post name size initial s :
  post (create K name size initial) s
       (fun o tr _ =>
          (existsb failed_mapping tr = true -> o = Returned None) /\
          (existsb failed_view tr = true ->
           exists f, o = Returned (Some f) /\ memory f = 0) /\
          (size = 0 -> existsb opened_file tr = true ->
           exists f, o = Returned (Some f) /\ memory f = 0 /\ MappedFile.size f = 0) /\
          (forall f, o = Returned (Some f) -> existsb opened_file tr = true ->
                     safely_destructible K tr f) /\
          o <> Aborted).
Proof.
  unfold post, create, bind, call_CreateFileA, call_CreateFileMapping,
    call_MapViewOfFile, call_memmove, ret.
  destruct (CreateFileA K name _ _ _ s) as [file s1]. cbn [out trace final].
  destruct (file =? 0) eqn:Hnull; cbn [out trace final].
  { cbn. rewrite Hnull, andb_false_r. repeat split; try discriminate. }
  destruct (size =? 0) eqn:Hsz; cbn [out trace final].
  { cbn. rewrite Hnull, orb_false_r, andb_true_r.
    repeat split; try discriminate.
    - intros _ _. eexists. repeat split.
    - intros f [= <-] Hfile s'. run_destroy. cbn.
      rewrite Z.eqb_refl. cbn. rewrite Hfile. reflexivity. }
  destruct (CreateFileMapping K file _ 0 _ s1) as [mapping s2].
  cbn [out trace final].
  destruct (mapping =? 0) eqn:Hmap; cbn [out trace final].
  { cbn. rewrite Hmap. repeat split; try discriminate.
    intros ->. discriminate. }
  destruct (MapViewOfFile K mapping _ size s2) as [view s3].
  cbn [out trace final].
  destruct (view =? 0) eqn:Hview; cbn [negb out trace final]; cbn;
    rewrite Hnull, Hmap, Hview, ?orb_false_r, ?andb_true_r; cbn;
    repeat split; try discriminate.
  - intros _. eexists. split; [reflexivity|]. apply Z.eqb_eq in Hview. exact Hview.
  - intros ->. discriminate.
  - intros f [= <-] Hfile s'. run_destroy. rewrite Hview. cbn [negb]. run_destroy.
    rewrite Hmap. cbn [negb]. run_destroy. cbn.
    rewrite ?Z.eqb_refl, ?Hmap. cbn. rewrite Hfile, ?orb_true_r. reflexivity.
  - intros ->. discriminate.
  - intros f [= <-] Hfile s'. run_destroy. rewrite Hview. cbn [negb]. run_destroy.
    rewrite Hmap. cbn [negb]. run_destroy. cbn.
    rewrite ?Z.eqb_refl, ?Hmap, ?Hview. cbn. rewrite Hfile, ?orb_true_r.
    reflexivity.
Qed.
End MappedFileFacts.

(** C5, as the code has it.  [open] returns null when the file cannot be
    opened or the mapping object cannot be created, [create] when the
    mapping object cannot be created.  When only the view cannot be mapped,
    both return an object, whose memory pointer is null.  A zero-length
    file ([open]) and a size of 0 ([create], the file opened) give an
    object with a null memory pointer and size 0.  Every object that [open]
    returns, and every object that [create] returns for a file it opened,
    is safely destructible: its destructor releases only what the call
    acquired. *)
Theorem MappedFile_results :
  forall (K : MappedFile.Win32) name mode size initial
         (s : MappedFile.os_state K),
    ((existsb MappedFile.failed_file_or_mapping
              (trace (MappedFile.open K name mode s)) = true ->
      out (MappedFile.open K name mode s) = Returned None) /\
     (existsb MappedFile.failed_view
              (trace (MappedFile.open K name mode s)) = true ->
      exists f, out (MappedFile.open K name mode s) = Returned (Some f) /\
                MappedFile.memory f = 0) /\
     (existsb MappedFile.zero_length
              (trace (MappedFile.open K name mode s)) = true ->
      exists f, out (MappedFile.open K name mode s) = Returned (Some f) /\
                MappedFile.memory f = 0 /\ MappedFile.size f = 0) /\
     (forall f, out (MappedFile.open K name mode s) = Returned (Some f) ->
                MappedFile.safely_destructible
                  K (trace (MappedFile.open K name mode s)) f)) /\
    ((existsb MappedFile.failed_mapping
              (trace (MappedFile.create K name size initial s)) = true ->
      out (MappedFile.create K name size initial s) = Returned None) /\
     (existsb MappedFile.failed_view
              (trace (MappedFile.create K name size initial s)) = true ->
      exists f, out (MappedFile.create K name size initial s)
                = Returned (Some f) /\
                MappedFile.memory f = 0) /\
     (size = 0 ->
      existsb MappedFile.opened_file
              (trace (MappedFile.create K name size initial s)) = true ->
      exists f, out (MappedFile.create K name size initial s)
                = Returned (Some f) /\
                MappedFile.memory f = 0 /\ MappedFile.size f = 0) /\
     (forall f, out (MappedFile.create K name size initial s)
                = Returned (Some f) ->
                existsb MappedFile.opened_file
                        (trace (MappedFile.create K name size initial s))
                = true ->
                MappedFile.safely_destructible
                  K (trace (MappedFile.create K name size initial s)) f)).
Proof.
  intros K name mode size initial s. split.
  - pose proof (open_post K name mode s) as H. unfold post in H. tauto.
  - pose proof (create_post K name size initial s) as H. unfold post in H.
    tauto.
Qed.

(** C5 as it is worded fails: the file opens with 4096 bytes, the mapping
    object is created, the view cannot be mapped, and [open] returns an
    object all the same. *)
Lemma open_returns_object_without_view :
  existsb MappedFile.failed_view
          (trace (MappedFile.open MappedFile.scripted "f" MappedFile.kReadOnly
                    [100; 4096; 200; 0])) = true /\
  out (MappedFile.open MappedFile.scripted "f" MappedFile.kReadOnly
         [100; 4096; 200; 0])
  = Returned (Some (MappedFile.mkFile 100 200 0 4096)).
Proof. split; reflexivity. Qed.

(** Where [open] tests the handle of the file against
    [INVALID_HANDLE_VALUE], [create] tests it against null: a file that
    cannot be created goes unnoticed, and the object holds the invalid
    handle. *)
Example create_with_invalid_handle :
  out (MappedFile.create MappedFile.scripted "f" 0 0 [-1])
  = Returned (Some (MappedFile.mkFile MappedFile.INVALID_HANDLE_VALUE 0 0 0)).
Proof. reflexivity. Qed.

(** ** Failures and aborts *)

Section AbortFacts.
Import VM.
Variable K : Win32.

Lemma SetPermissions_returns address size access (p : process K) :
  exists b,
    out (SetPermissions K address size access p) = Returned b /\
    (trace (SetPermissions K address size access p)
     = [EvVirtualFree address size MEM_DECOMMIT b] \/
     exists r,
       trace (SetPermissions K address size access p)
       = [EvVirtualAlloc address size MEM_COMMIT
                         (GetProtectionFromMemoryPermission K access) r] /\
       b = negb (r =? 0)).
Proof.
  unfold SetPermissions, bind, call_VirtualFree, call_VirtualAlloc, ret.
  destruct (MemoryPermission_eqb access kNoAccess).
  - destruct (VirtualFree K address size MEM_DECOMMIT (os p)) as [b s].
    exists b. split; [reflexivity|]. left. reflexivity.
  - destruct (VirtualAlloc K address size MEM_COMMIT _ (os p)) as [r s].
    exists (negb (r =? 0)). split; [reflexivity|]. right. exists r.
    split; reflexivity.
Qed.

(** [DiscardSystemPages] returns true or aborts; it aborts when the
    [MEM_RESET] request, its last step, is refused. *)
Lemma DiscardSystemPages_true_or_fatal address size (p : process K) :
  out (DiscardSystemPages K address size p) = Returned true \/
  (out (DiscardSystemPages K address size p) = Aborted /\
   exists tr,
     trace (DiscardSystemPages K address size p)
     = tr ++ [EvVirtualAlloc address size MEM_RESET PAGE_READWRITE 0]).
Proof.
  unfold DiscardSystemPages, bind, get_discard_virtual_memory,
    set_discard_virtual_memory, call_GetProcAddress,
    call_DiscardVirtualMemory, call_VirtualAlloc, CHECK, ret.
  cbn [out trace final].
  destruct (discard_virtual_memory p =? -1); cbn [out trace final];
    [destruct (GetProcAddress_DiscardVirtualMemory K (os p)) as [f s]|];
    cbn [out trace final os discard_virtual_memory].
  all: match goal with
       | |- context [negb (?d =? 0)] => destruct (d =? 0)
       end; cbn [negb out trace final os].
  all: repeat match goal with
       | |- context [DiscardVirtualMemory K ?a ?n ?s] =>
           destruct (DiscardVirtualMemory K a n s) as [r ?];
           cbn [out trace final os]; destruct (r =? 0); cbn [out trace final os]
       end.
  all: try (left; reflexivity).
  all: match goal with
       | |- context [VirtualAlloc K ?a ?n ?f ?pr ?s] =>
           destruct (VirtualAlloc K a n f pr s) as [ptr ?];
           cbn [out trace final os]; destruct (ptr =? 0) eqn:Hptr;
           cbn [negb out trace final os]
       end.
  all: try (left; reflexivity).
  all: right; split; [reflexivity|]; apply Z.eqb_eq in Hptr; subst ptr.
  all: cbn [app].
  all: match goal with
       | |- exists tr, ?l = _ => exists (removelast l); reflexivity
       end.
Qed.
End AbortFacts.

(** C6, as the code has it.  [Allocate] aborts only when a release is
    refused, never on a refused allocation; [SetPermissions] always
    returns, true or false as the OS granted or refused its one request;
    [DiscardSystemPages] never returns false: it returns true or, its
    [MEM_RESET] request refused, aborts the process; [open] and [create]
    never abort. *)
Theorem failures_returned_or_fatal :
  forall (K : VM.Win32) (F : MappedFile.Win32) hint address size alignment
         access (p : VM.process K) name mode initial
         (s : MappedFile.os_state F),
    (out (VM.Allocate K hint size alignment access p) = Aborted ->
     existsb VM.failed_free
             (trace (VM.Allocate K hint size alignment access p)) = true) /\
    (exists b,
        out (VM.SetPermissions K address size access p) = Returned b /\
        (trace (VM.SetPermissions K address size access p)
         = [VM.EvVirtualFree address size VM.MEM_DECOMMIT b] \/
         exists r,
           trace (VM.SetPermissions K address size access p)
           = [VM.EvVirtualAlloc address size VM.MEM_COMMIT
                (VM.GetProtectionFromMemoryPermission K access) r] /\
           b = negb (r =? 0))) /\
    (out (VM.DiscardSystemPages K address size p) = Returned true \/
     (out (VM.DiscardSystemPages K address size p) = Aborted /\
      exists tr,
        trace (VM.DiscardSystemPages K address size p)
        = tr ++ [VM.EvVirtualAlloc address size VM.MEM_RESET
                                   VM.PAGE_READWRITE 0])) /\
    out (MappedFile.open F name mode s) <> Aborted /\
    out (MappedFile.create F name size initial s) <> Aborted.
Proof.
  intros K F hint address size alignment access p name mode initial s.
  split; [|split; [|split; [|split]]].
  - pose proof (Allocate_ends_well_post K hint size alignment access p) as H.
    unfold post, VM.Allocate_ends_well in H.
    intros Hout. rewrite Hout in H. exact H.
  - apply SetPermissions_returns.
  - apply DiscardSystemPages_true_or_fatal.
  - pose proof (open_post F name mode s) as H. unfold post in H. tauto.
  - pose proof (create_post F name size initial s) as H. unfold post in H.
    tauto.
Qed.

(** C6 as it is worded fails: where Kernel32 does not export
    [DiscardVirtualMemory] and the [MEM_RESET] request is refused,
    [DiscardSystemPages] ends the process. *)
Lemma DiscardSystemPages_aborts :
  out (VM.DiscardSystemPages VM.win64 0x10000 0x10000
         (VM.initial_process VM.win64 [])) = Aborted /\
  trace (VM.DiscardSystemPages VM.win64 0x10000 0x10000
           (VM.initial_process VM.win64 []))
  = [VM.EvGetProcAddress 0;
     VM.EvVirtualAlloc 0x10000 0x10000 VM.MEM_RESET VM.PAGE_READWRITE 0].
Proof. split; reflexivity. Qed.

(** ** Shared-library addresses *)

Section SymbolsFacts.
Import Symbols.
Variable K : Win32.

Lemma post_os_call {A} (f : os_state K -> A * os_state K) (ev : A -> event)
      (p : process K) (Q : outcome A -> list event -> process K -> Prop) :
  (forall r s, f (os p) = (r, s) -> Q (Returned r) [ev r] (with_os K p s)) ->
  post (os_call K f ev) p Q.
Proof.
  unfold post, os_call. destruct (f (os p)) as [r s]. intros H.
  apply H. reflexivity.
Qed.

Lemma post_get {A} (f : process K -> A) (p : process K)
      (Q : outcome A -> list event -> process K -> Prop) :
  Q (Returned (f p)) [] p -> post (get K f) p Q.
Proof. intros H; exact H. Qed.

Lemma post_put (f : process K -> process K) (p : process K)
      (Q : outcome unit -> list event -> process K -> Prop) :
  Q (Returned tt) [] (f p) -> post (put K f) p Q.
Proof. intros H; exact H. Qed.

(** Loading function pointers touches the OS and the table only. *)
Lemma LOAD_DLL_FUNCS_post module names : forall (p : process K),
  post (LOAD_DLL_FUNCS K module names) p
       (fun o tr p' =>
          o = Returned tt /\
          dbghelp_loaded p' = dbghelp_loaded p /\
          symbols_loaded p' = symbols_loaded p /\
          result p' = result p).
Proof.
  induction names as [|name names IH]; intros p.
  - apply post_ret. auto.
  - simpl. apply post_bind, post_os_call. intros f s _.
    apply post_bind, post_get. apply post_bind, post_put.
    eapply post_weaken; [apply IH|].
    intros o tr p' H. exact H.
Qed.

(** [LoadDbgHelpAndTlHelp32] always returns; it leaves [dbghelp_loaded]
    set exactly when it answers true, and it leaves the statics of
    [LoadSymbols] alone.  Started with [dbghelp_loaded] set, it does
    nothing; started without, its first step is to load dbghelp.dll. *)
Lemma LoadDbgHelpAndTlHelp32_post (p : process K) :
  post (LoadDbgHelpAndTlHelp32 K) p
       (fun o tr p' =>
          exists b,
            o = Returned b /\
            dbghelp_loaded p' = b /\
            symbols_loaded p' = symbols_loaded p /\
            result p' = result p /\
            (dbghelp_loaded p = true -> b = true /\ tr = [] /\ p' = p) /\
            (dbghelp_loaded p = false ->
             exists module rest,
               tr = EvLoadLibrary "dbghelp.dll" module :: rest)).
Proof.
  unfold LoadDbgHelpAndTlHelp32.
  apply post_bind, post_get.
  destruct (dbghelp_loaded p) eqn:Hloaded.
  - apply post_ret. exists true. repeat split; auto. discriminate.
  - apply post_bind, post_os_call. intros module s _.
    destruct (module =? 0)%Z.
    + apply post_ret. exists false. cbn. repeat split; auto; try discriminate.
      intros _. eauto.
    + apply post_bind.
      eapply post_weaken; [apply LOAD_DLL_FUNCS_post|].
      intros o tr p1 (-> & Hd1 & Hs1 & Hr1).
      apply post_bind, post_os_call. intros module' s' _.
      destruct (module' =? 0)%Z.
      * apply post_ret. exists false. cbn.
        rewrite Hd1, Hs1, Hr1. cbn. repeat split; auto; try discriminate.
        intros _. eauto.
      * apply post_bind.
        eapply post_weaken; [apply LOAD_DLL_FUNCS_post|].
        intros o tr' p2 (-> & Hd2 & Hs2 & Hr2).
        apply post_bind, post_get. apply post_bind, post_put.
        apply post_ret. eexists. cbn.
        rewrite Hs2, Hr2. cbn. rewrite Hs1, Hr1. cbn.
        repeat split; auto; try discriminate.
        intros _. eauto.
Qed.

Lemma LoadSymbols_loop_post process_handle snapshot entries :
  forall first (p : process K),
    post (LoadSymbols_loop K process_handle snapshot first entries) p
         (fun o tr p' =>
            (exists finished, o = Returned finished) /\
            dbghelp_loaded p' = dbghelp_loaded p /\
            symbols_loaded p' = symbols_loaded p).
Proof.
  induction entries as [|e entries IH]; intros first p.
  - simpl. apply post_bind, post_os_call. intros r s _.
    apply post_ret. cbn. eauto.
  - simpl. apply post_bind, post_os_call. intros r s _.
    apply post_bind, post_os_call. intros base s' _.
    apply post_bind.
    eapply post_weaken
      with (Q := fun o tr p' =>
                   (exists stop : bool, o = Returned stop) /\
                   p' = with_os K (with_os K p s) s').
    { destruct (base =? 0)%Z; [apply post_bind, post_get|]; apply post_ret;
        split; eauto. }
    intros o tr p' ((stop & ->) & ->). destruct stop.
    + apply post_bind, post_put. apply post_ret. cbn. eauto.
    + apply post_bind, post_get. apply post_bind, post_put.
      eapply post_weaken; [apply IH|].
      intros o tr' p' H. exact H.
Qed.

(** [LoadSymbols] always returns, and what it returns is the static
    [result] as it leaves it; it leaves [dbghelp_loaded] alone; started
    with [symbols_loaded] set, it does nothing. *)
Lemma LoadSymbols_post process_handle (p : process K) :
  post (LoadSymbols K process_handle) p
       (fun o tr p' =>
          o = Returned (result p') /\
          dbghelp_loaded p' = dbghelp_loaded p /\
          (symbols_loaded p = true -> tr = [] /\ p' = p)).
Proof.
  unfold LoadSymbols.
  apply post_bind, post_get.
  destruct (symbols_loaded p) eqn:Hloaded.
  { apply post_get. auto. }
  apply post_bind, post_os_call. intros ok s _.
  destruct ok; cbn [negb].
  2:{ apply post_get. cbn. repeat split; auto; discriminate. }
  apply post_bind, post_os_call. intros options s1 _.
  apply post_bind, post_os_call. intros options' s2 _.
  apply post_bind, post_os_call. intros ok s3 _.
  destruct ok; cbn [negb].
  2:{ apply post_bind, post_get. apply post_bind, post_os_call. intros [] s4 _.
      apply post_get. cbn. repeat split; auto; discriminate. }
  apply post_bind, post_os_call. intros [snapshot entries] s4 _.
  cbn [fst snd].
  destruct (snapshot =? INVALID_HANDLE_VALUE)%Z.
  { apply post_get. cbn. repeat split; auto; discriminate. }
  apply post_bind.
  eapply post_weaken; [apply LoadSymbols_loop_post|].
  intros o tr p1 ((finished & ->) & Hd & Hs).
  destruct finished.
  - apply post_bind, post_os_call. intros r s5 _.
    apply post_bind, post_put. apply post_get. cbn in *.
    repeat split; auto; discriminate.
  - apply post_get. cbn in *. repeat split; auto; discriminate.
Qed.

(** [GetSharedLibraryAddresses], started in a state in which
    [symbols_loaded] only holds together with [dbghelp_loaded]. *)
Lemma GetSharedLibraryAddresses_post (p : process K) :
  (symbols_loaded p = true -> dbghelp_loaded p = true) ->
  post (GetSharedLibraryAddresses K) p
       (fun o tr p' =>
          (symbols_loaded p' = true -> dbghelp_loaded p' = true) /\
          (symbols_loaded p' = true -> o = Returned (result p')) /\
          (out (LoadDbgHelpAndTlHelp32 K p) = Returned false ->
           o = Returned [] /\ dbghelp_loaded p' = false) /\
          (symbols_loaded p = true ->
           o = Returned (result p) /\ tr = [] /\ p' = p)).
Proof.
  intros Hinv. unfold GetSharedLibraryAddresses.
  apply post_bind.
  eapply post_weaken; [apply post_run|].
  intros o tr p1 (-> & -> & ->).
  pose proof (LoadDbgHelpAndTlHelp32_post p) as H. unfold post in H.
  destruct H as (b & Hout & Hd & Hs & Hr & Hmemo & _).
  rewrite Hout.
  destruct b; cbn [negb].
  - eapply post_weaken; [apply LoadSymbols_post|].
    intros o tr' p' (-> & Hd' & Hmemo').
    repeat split.
    + intros _. congruence.
    + discriminate.
    + discriminate.
    + destruct (Hmemo (Hinv H)) as (_ & _ & Hp1).
      destruct (Hmemo' ltac:(congruence)) as (_ & ->). congruence.
    + destruct (Hmemo (Hinv H)) as (_ & -> & _).
      destruct (Hmemo' ltac:(congruence)) as (-> & _). reflexivity.
    + destruct (Hmemo (Hinv H)) as (_ & _ & Hp1).
      destruct (Hmemo' ltac:(congruence)) as (_ & ->). exact Hp1.
  - apply post_ret.
    assert (Hnot : symbols_loaded p = false).
    { destruct (symbols_loaded p) eqn:E; [|reflexivity].
      destruct (Hmemo (Hinv eq_refl)) as (Hb & _). discriminate. }
    repeat split; auto; try congruence.
Qed.
End SymbolsFacts.

(** *** What is missing *)

Section LoadingFacts.
Import Symbols SymbolsMore.
Variable K : Win32.

Lemma dll_func_var_set name v t :
  dll_func_var name (set_dll_func_var name v t) = v.
Proof. unfold set_dll_func_var. simpl. rewrite String.eqb_refl. reflexivity. Qed.

Lemma dll_func_var_set_other name name' v t :
  name <> name' ->
  dll_func_var name' (set_dll_func_var name v t) = dll_func_var name' t.
Proof.
  intros Hne. unfold set_dll_func_var. simpl.
  destruct (String.eqb_spec name name'); [contradiction | reflexivity].
Qed.

Lemma all_found_ext names t t' :
  (forall name, In name names -> dll_func_var name t = dll_func_var name t') ->
  all_found names t = all_found names t'.
Proof.
  unfold all_found. induction names as [|name names IH]; intros Hsame;
    [reflexivity|].
  simpl. rewrite (Hsame name) by (left; reflexivity).
  rewrite IH; [reflexivity|]. intros name' Hin. apply Hsame. right. exact Hin.
Qed.

(** Loading the functions of a list: a lookup came back null exactly
    when one of the pointers of the list is null afterwards, and the
    pointers of other functions are left as they were. *)
Lemma LOAD_DLL_FUNCS_found module names :
  NoDup names ->
  forall (p : process K),
    post (LOAD_DLL_FUNCS K module names) p
         (fun o tr p' =>
            o = Returned tt /\
            existsb found_missing tr = negb (all_found names (dll_funcs p')) /\
            (forall name, ~ In name names ->
                          dll_func_var name (dll_funcs p')
                          = dll_func_var name (dll_funcs p)) /\
            dbghelp_loaded p' = dbghelp_loaded p).
Proof.
  induction 1 as [|name names Hfresh Hnodup IH]; intros p.
  - apply post_ret. auto.
  - simpl. apply post_bind, post_os_call. intros f s _.
    apply post_bind, post_get. apply post_bind, post_put.
    eapply post_weaken; [apply IH|].
    intros o tr p' (-> & Hmissing & Hkept & Hloaded).
    cbn [set_dll_funcs with_os dll_funcs dbghelp_loaded] in Hkept, Hloaded.
    split; [reflexivity|].
    assert (Hname : dll_func_var name (dll_funcs p') = f).
    { rewrite (Hkept name Hfresh). apply dll_func_var_set. }
    split; [|split; [|exact Hloaded]].
    + cbn [app existsb found_missing]. rewrite Hmissing.
      unfold all_found. cbn [forallb]. fold (all_found names (dll_funcs p')).
      rewrite Hname. destruct (f =? 0)%Z; reflexivity.
    + intros name' Hout. rewrite Hkept by (intros Hin; apply Hout; right; exact Hin).
      apply dll_func_var_set_other. intros ->. apply Hout. left. reflexivity.
Qed.

Lemma function_lists_distinct :
  NoDup (DBGHELP_FUNCTION_LIST ++ TLHELP32_FUNCTION_LIST).
Proof.
  unfold DBGHELP_FUNCTION_LIST, TLHELP32_FUNCTION_LIST. cbn [app].
  repeat (constructor; [cbn [In]; intuition discriminate|]).
  constructor.
Qed.

(** [LoadDbgHelpAndTlHelp32] answers false exactly when a library or a
    function came back null. *)
Lemma LoadDbgHelpAndTlHelp32_found (p : process K) :
  post (LoadDbgHelpAndTlHelp32 K) p
       (fun o tr _ =>
          exists b, o = Returned b /\ existsb found_missing tr = negb b).
Proof.
  pose proof function_lists_distinct as Hdistinct.
  assert (Hdbghelp : NoDup DBGHELP_FUNCTION_LIST)
    by (apply NoDup_app_remove_r in Hdistinct; exact Hdistinct).
  assert (Htlhelp : NoDup TLHELP32_FUNCTION_LIST)
    by (apply NoDup_app_remove_l in Hdistinct; exact Hdistinct).
  assert (Hapart : forall name, In name DBGHELP_FUNCTION_LIST ->
                                ~ In name TLHELP32_FUNCTION_LIST).
  { intros name Hin Hin'.
    unfold DBGHELP_FUNCTION_LIST, TLHELP32_FUNCTION_LIST in *.
    cbn [In] in Hin, Hin'. intuition (subst; discriminate). }
  unfold LoadDbgHelpAndTlHelp32.
  apply post_bind, post_get.
  destruct (dbghelp_loaded p).
  { apply post_ret. exists true. auto. }
  apply post_bind, post_os_call. intros module s _.
  destruct (module =? 0)%Z eqn:Hmodule.
  { apply post_ret. exists false. cbn. rewrite Hmodule. auto. }
  apply post_bind.
  eapply post_weaken; [apply LOAD_DLL_FUNCS_found, Hdbghelp|].
  intros o tr p1 (-> & Hmissing1 & _ & _).
  apply post_bind, post_os_call. intros module' s' _.
  destruct (module' =? 0)%Z eqn:Hmodule'.
  { apply post_ret. exists false. split; [reflexivity|].
    repeat first [progress cbn [existsb app found_missing orb]
                 | rewrite existsb_app].
    rewrite Hmodule, Hmodule', !orb_true_r. reflexivity. }
  apply post_bind.
  eapply post_weaken; [apply LOAD_DLL_FUNCS_found, Htlhelp|].
  intros o tr' p2 (-> & Hmissing2 & Hkept2 & _).
  cbn [with_os dll_funcs] in Hkept2.
  apply post_bind, post_get. apply post_bind, post_put.
  apply post_ret. eexists. split; [reflexivity|].
  repeat first [progress cbn [existsb app found_missing orb]
               | rewrite existsb_app].
  rewrite Hmodule, Hmodule', Hmissing1, Hmissing2, !orb_false_r.
  cbn [orb].
  unfold DLL_FUNCS_LOADED. rewrite forallb_app.
  fold (all_found DBGHELP_FUNCTION_LIST (dll_funcs p2)).
  fold (all_found TLHELP32_FUNCTION_LIST (dll_funcs p2)).
  rewrite (all_found_ext DBGHELP_FUNCTION_LIST (dll_funcs p2) (dll_funcs p1))
    by (intros name Hin; apply Hkept2, Hapart, Hin).
  destruct (all_found DBGHELP_FUNCTION_LIST (dll_funcs p1)),
    (all_found TLHELP32_FUNCTION_LIST (dll_funcs p2)); reflexivity.
Qed.

Lemma LoadSymbols_loop_loads_nothing process_handle snapshot entries :
  forall first (p : process K),
    post (LoadSymbols_loop K process_handle snapshot first entries) p
         (fun _ tr _ => existsb found_missing tr = false).
Proof.
  induction entries as [|e entries IH]; intros first p.
  - simpl. apply post_bind, post_os_call. intros r s _.
    apply post_ret. destruct first; reflexivity.
  - simpl. apply post_bind, post_os_call. intros r s _.
    apply post_bind, post_os_call. intros base s' _.
    apply post_bind.
    eapply post_weaken
      with (Q := fun o tr p' =>
                   (exists stop : bool, o = Returned stop) /\ tr = [] /\
                   p' = with_os K (with_os K p s) s').
    { destruct (base =? 0)%Z; [apply post_bind, post_get|]; apply post_ret;
        split; eauto. }
    intros o tr p' ((stop & ->) & -> & ->). destruct stop.
    + apply post_bind, post_put. apply post_ret. destruct first; reflexivity.
    + apply post_bind, post_get. apply post_bind, post_put.
      eapply post_weaken; [apply IH|].
      intros o tr' p' H. cbv beta in H |- *.
      repeat first [progress cbn [existsb app found_missing orb]
                   | rewrite existsb_app].
      destruct first; cbn [found_missing orb]; exact H.
Qed.

Lemma LoadSymbols_loads_nothing process_handle (p : process K) :
  post (LoadSymbols K process_handle) p
       (fun _ tr _ => existsb found_missing tr = false).
Proof.
  unfold LoadSymbols.
  apply post_bind, post_get.
  destruct (symbols_loaded p).
  { apply post_get. reflexivity. }
  apply post_bind, post_os_call. intros ok s _.
  destruct ok; cbn [negb].
  2:{ apply post_get. reflexivity. }
  apply post_bind, post_os_call. intros options s1 _.
  apply post_bind, post_os_call. intros options' s2 _.
  apply post_bind, post_os_call. intros ok s3 _.
  destruct ok; cbn [negb].
  2:{ apply post_bind, post_get. apply post_bind, post_os_call. intros [] s4 _.
      apply post_get. reflexivity. }
  apply post_bind, post_os_call. intros [snapshot entries] s4 _.
  cbn [fst snd].
  destruct (snapshot =? INVALID_HANDLE_VALUE)%Z.
  { apply post_get. reflexivity. }
  apply post_bind.
  eapply post_weaken; [apply LoadSymbols_loop_loads_nothing|].
  intros o tr p1 Hloop. cbv beta in Hloop.
  destruct o as [finished|].
  2:{ repeat first [progress cbn [existsb app found_missing orb]
                   | rewrite existsb_app]. exact Hloop. }
  destruct finished.
  - apply post_bind, post_os_call. intros r s5 _.
    apply post_bind, post_put. apply post_get.
    repeat first [progress cbn [existsb app found_missing orb]
                 | rewrite existsb_app].
    rewrite Hloop. reflexivity.
  - apply post_get.
    repeat first [progress cbn [existsb app found_missing orb]
                 | rewrite existsb_app].
    rewrite Hloop. reflexivity.
Qed.

(** In a call of [GetSharedLibraryAddresses] a library or a function
    came back null exactly when the loader answers false. *)
Lemma GetSharedLibraryAddresses_found (p : process K) :
  exists b,
    out (LoadDbgHelpAndTlHelp32 K p) = Returned b /\
    existsb found_missing (trace (GetSharedLibraryAddresses K p)) = negb b.
Proof.
  pose proof (LoadDbgHelpAndTlHelp32_found p) as H. unfold post in H.
  destruct H as (b & Hout & Hmissing).
  exists b. split; [exact Hout|].
  unfold GetSharedLibraryAddresses, bind. rewrite Hout.
  destruct b; cbn [negb out trace final].
  - pose proof (LoadSymbols_loads_nothing (GetCurrentProcess K)
                  (final (LoadDbgHelpAndTlHelp32 K p))) as Hnothing.
    unfold post in Hnothing.
    rewrite existsb_app, Hmissing, Hnothing. reflexivity.
  - rewrite existsb_app, Hmissing. reflexivity.
Qed.
End LoadingFacts.

(** C7, as the code has it.  In a state of the process in which
    [symbols_loaded] only holds together with [dbghelp_loaded] (the
    initial state is one, and a call leaves one), a call in which
    dbghelp.dll or kernel32.dll is not found, or one of the thirteen
    functions is not found in its library, returns the empty sequence
    and remembers nothing: the next call tries to load dbghelp.dll
    again.  The loader answers false in exactly these cases.  Once a
    pass has succeeded, the next call returns the same sequence without
    a single call into the OS, and leaves the process as it found it. *)
Theorem GetSharedLibraryAddresses_memo :
  forall (K : Symbols.Win32) (p : Symbols.process K),
    (Symbols.symbols_loaded p = true -> Symbols.dbghelp_loaded p = true) ->
    (Symbols.symbols_loaded
       (final (Symbols.GetSharedLibraryAddresses K p)) = true ->
     Symbols.dbghelp_loaded
       (final (Symbols.GetSharedLibraryAddresses K p)) = true) /\
    (out (Symbols.LoadDbgHelpAndTlHelp32 K p) = Returned false ->
     out (Symbols.GetSharedLibraryAddresses K p) = Returned [] /\
     exists module rest,
       trace (Symbols.GetSharedLibraryAddresses
                K (final (Symbols.GetSharedLibraryAddresses K p)))
       = Symbols.EvLoadLibrary "dbghelp.dll" module :: rest) /\
    (Symbols.symbols_loaded
       (final (Symbols.GetSharedLibraryAddresses K p)) = true ->
     out (Symbols.GetSharedLibraryAddresses
            K (final (Symbols.GetSharedLibraryAddresses K p)))
     = out (Symbols.GetSharedLibraryAddresses K p) /\
     trace (Symbols.GetSharedLibraryAddresses
              K (final (Symbols.GetSharedLibraryAddresses K p))) = [] /\
     final (Symbols.GetSharedLibraryAddresses
              K (final (Symbols.GetSharedLibraryAddresses K p)))
     = final (Symbols.GetSharedLibraryAddresses K p)) /\
    (existsb SymbolsMore.found_missing
             (trace (Symbols.GetSharedLibraryAddresses K p)) = true ->
     out (Symbols.LoadDbgHelpAndTlHelp32 K p) = Returned false /\
     out (Symbols.GetSharedLibraryAddresses K p) = Returned [] /\
     Symbols.dbghelp_loaded (final (Symbols.GetSharedLibraryAddresses K p))
     = false /\
     exists module rest,
       trace (Symbols.GetSharedLibraryAddresses
                K (final (Symbols.GetSharedLibraryAddresses K p)))
       = Symbols.EvLoadLibrary "dbghelp.dll" module :: rest) /\
    (out (Symbols.LoadDbgHelpAndTlHelp32 K p) = Returned false ->
     existsb SymbolsMore.found_missing
             (trace (Symbols.GetSharedLibraryAddresses K p)) = true).
Proof.
  intros K p Hinv.
  pose proof (GetSharedLibraryAddresses_post K p Hinv) as H.
  unfold post in H. destruct H as (Hinv' & Hres & Hmissing & _).
  pose proof (GetSharedLibraryAddresses_post K _ Hinv') as H'.
  unfold post in H'. destruct H' as (_ & _ & _ & Hmemo).
  assert (Hretry :
            out (Symbols.LoadDbgHelpAndTlHelp32 K p) = Returned false ->
            out (Symbols.GetSharedLibraryAddresses K p) = Returned [] /\
            Symbols.dbghelp_loaded
              (final (Symbols.GetSharedLibraryAddresses K p)) = false /\
            exists module rest,
              trace (Symbols.GetSharedLibraryAddresses
                       K (final (Symbols.GetSharedLibraryAddresses K p)))
              = Symbols.EvLoadLibrary "dbghelp.dll" module :: rest).
  { intros Hfalse. destruct (Hmissing Hfalse) as (Hout & Hd).
    split; [exact Hout|]. split; [exact Hd|].
    clear - Hd.
    set (p1 := final (Symbols.GetSharedLibraryAddresses K p)) in *.
    pose proof (LoadDbgHelpAndTlHelp32_post K p1) as HL.
    unfold post in HL. destruct HL as (b & _ & _ & _ & _ & _ & Hagain).
    destruct (Hagain Hd) as (module & rest & Htr).
    unfold Symbols.GetSharedLibraryAddresses, bind.
    rewrite Htr.
    destruct (out (Symbols.LoadDbgHelpAndTlHelp32 K p1)); cbn;
      do 2 eexists; reflexivity. }
  destruct (GetSharedLibraryAddresses_found K p) as (b & Hloader & Hfound).
  split; [exact Hinv'|]. split; [|split; [|split]].
  - intros Hfalse. destruct (Hretry Hfalse) as (Hout & _ & Hagain). auto.
  - intros Hloaded. destruct (Hmemo Hloaded) as (Hout & Htr & Hfin).
    rewrite Hout, (Hres Hloaded). auto.
  - intros Hnull. rewrite Hnull in Hfound.
    assert (Hfalse : out (Symbols.LoadDbgHelpAndTlHelp32 K p) = Returned false).
    { rewrite Hloader. destruct b; [discriminate | reflexivity]. }
    split; [exact Hfalse|]. apply Hretry, Hfalse.
  - intros Hfalse. rewrite Hfound. rewrite Hfalse in Hloader.
    injection Hloader as <-. reflexivity.
Qed.

(** A pass that succeeds is remembered: the libraries load, the snapshot
    holds two modules, and the second call makes no call into the OS. *)
Lemma GetSharedLibraryAddresses_memo_witness :
  (Symbols.symbols_loaded
     (Symbols.initial_process (Symbols.scripted Symbols.two_modules) [5; 6])
   = true ->
   Symbols.dbghelp_loaded
     (Symbols.initial_process (Symbols.scripted Symbols.two_modules) [5; 6])
   = true) /\
  trace (Symbols.GetSharedLibraryAddresses
           (Symbols.scripted Symbols.two_modules)
           (final (Symbols.GetSharedLibraryAddresses
                     (Symbols.scripted Symbols.two_modules)
                     (Symbols.initial_process
                        (Symbols.scripted Symbols.two_modules) [5; 6]))))
  = [].
Proof.
  split; [discriminate|].
  destruct (GetSharedLibraryAddresses_memo
              (Symbols.scripted Symbols.two_modules)
              (Symbols.initial_process
                 (Symbols.scripted Symbols.two_modules) [5; 6])
              ltac:(discriminate)) as (_ & _ & Hmemo & _).
  apply Hmemo. reflexivity.
Defined.

(** C7 as it is worded fails: dbghelp.dll is missing at the first call,
    which returns the empty sequence; the second call loads it again,
    finds it, and returns the two modules. *)
Lemma failed_load_is_retried :
  out (Symbols.LoadDbgHelpAndTlHelp32
         (Symbols.scripted Symbols.two_modules)
         (Symbols.initial_process
            (Symbols.scripted Symbols.two_modules) [0; 5; 6]))
  = Returned false /\
  out (Symbols.GetSharedLibraryAddresses
         (Symbols.scripted Symbols.two_modules)
         (Symbols.initial_process
            (Symbols.scripted Symbols.two_modules) [0; 5; 6]))
  = Returned [] /\
  hd_error
    (trace (Symbols.GetSharedLibraryAddresses
              (Symbols.scripted Symbols.two_modules)
              (final (Symbols.GetSharedLibraryAddresses
                        (Symbols.scripted Symbols.two_modules)
                        (Symbols.initial_process
                           (Symbols.scripted Symbols.two_modules) [0; 5; 6])))))
  = Some (Symbols.EvLoadLibrary "dbghelp.dll" 5) /\
  out (Symbols.GetSharedLibraryAddresses
         (Symbols.scripted Symbols.two_modules)
         (final (Symbols.GetSharedLibraryAddresses
                   (Symbols.scripted Symbols.two_modules)
                   (Symbols.initial_process
                      (Symbols.scripted Symbols.two_modules) [0; 5; 6]))))
  = Returned
      [Symbols.mkAddress (Symbols.lib_name (Symbols.mkEntry "C:/v8/d8.exe" "d8.exe" 0x400000 0x200000))
                         0x400000 0x600000;
       Symbols.mkAddress (Symbols.lib_name (Symbols.mkEntry "C:/Windows/System32/ntdll.dll" "ntdll.dll" 0x7FF800000000 0x1F0000))
                         0x7FF800000000 0x7FF8001F0000].
Proof. repeat split. Qed.

(** ** Local time *)

Section TzFacts.
Import Tz.
Variable K : Win32.

Lemma wrap32_small z : in_LONG z -> wrap32 z = z.
Proof.
  unfold in_LONG, wrap32, wrap_signed. intros Hz.
  change (2 ^ (32 - 1)) with (2 ^ 31).
  change (2 ^ 32) with (2 * 2 ^ 31).
  rewrite Z.mod_small; lia.
Qed.

(** The arithmetic of [LocalOffset] on the timestamp: the range test of
    the code is the range test on the seconds since 1970, and within the
    range the [time_t] handed to [localtime_s] is those seconds.  The code
    truncates where the specification rounds down; the two differ only
    before 1601, far out of range. *)
Lemma rounded_to_second_posix (t : Win32Time) :
  in_int64 (t_ t) ->
  let ms :=
    ToJSTime (mkTime (Z.quot (Z.quot (t_ t) 1000) kTimeScaler * 1000 * kTimeScaler)) in
  ((ms >? INT_MAX * 1000) || (ms <? 0))
  = ((posix_seconds t <? 0) || (INT_MAX <? posix_seconds t)) /\
  ((posix_seconds t <? 0) || (INT_MAX <? posix_seconds t) = false ->
   Z.quot ms 1000 = posix_seconds t).
Proof.
  destruct t as [T]. cbn [t_].
  unfold in_int64, ToJSTime, posix_seconds, wrap64, wrap_signed, kTimeEpoc,
    kTimeScaler, INT_MAX. cbn [t_].
  intros HT.
  change (2 ^ (64 - 1)) with 9223372036854775808.
  change (2 ^ 64) with 18446744073709551616.
  change (2 ^ 63) with 9223372036854775808 in HT.
  Z.quot_rem_to_equations. Z.div_mod_to_equations.
  repeat match goal with
         | |- context [?a >? ?b] => destruct (Z.gtb_spec a b)
         | |- context [?a <? ?b] => destruct (Z.ltb_spec a b)
         end; cbn [orb]; split; try reflexivity; try discriminate; intros;
    try lia.
Qed.

Lemma InitializeIfNeeded_out c (s : os_state K) :
  out (InitializeIfNeeded K c s) = Returned (cached K c s).
Proof.
  unfold cached, InitializeIfNeeded, bind, call_tzset,
    call_GetTimeZoneInformation, ret.
  destruct (initialized_ c); [reflexivity|]. cbn [out trace final].
  destruct (GetTimeZoneInformation K (_tzset K s)) as [r s'].
  reflexivity.
Qed.

Lemma cached_initialized c (s : os_state K) :
  initialized_ (cached K c s) = true.
Proof.
  unfold cached, InitializeIfNeeded, bind, call_tzset,
    call_GetTimeZoneInformation, ret.
  destruct (initialized_ c) eqn:Hinit; [exact Hinit|]. cbn [out trace final].
  destruct (GetTimeZoneInformation K (_tzset K s)) as [r s'].
  reflexivity.
Qed.

(** An initialized cache is left alone, and so is the OS. *)
Lemma InitializeIfNeeded_initialized c (s : os_state K) :
  initialized_ c = true ->
  InitializeIfNeeded K c s = mkRun (Returned c) [] s.
Proof. unfold InitializeIfNeeded. intros ->. reflexivity. Qed.

(** [LocalOffset] after the cache is initialized, as a function of the
    cached rules, the conversion and the timestamp. *)
Lemma LocalOffset_body_out t c (s : os_state K) :
  in_int64 (t_ t) ->
  in_LONG (Bias (tzinfo_ c) + DaylightBias (tzinfo_ c)) ->
  in_LONG (Bias (tzinfo_ c) + StandardBias (tzinfo_ c)) ->
  initialized_ c = true ->
  out (LocalOffset K t c s)
  = Returned (LocalOffset_spec (tzinfo_ c) (fun posix => localtime_s K posix s) t,
              c) /\
  final (LocalOffset K t c s) = s.
Proof.
  intros Ht Hd Hs Hinit.
  destruct (rounded_to_second_posix t Ht) as [Hrange Hposix].
  unfold LocalOffset, bind. rewrite (InitializeIfNeeded_initialized c s Hinit).
  cbn [out trace final]. cbv zeta in Hrange, Hposix.
  unfold LocalOffset_spec. rewrite Hrange.
  destruct ((posix_seconds t <? 0) || (INT_MAX <? posix_seconds t)) eqn:Hout.
  { split; reflexivity. }
  rewrite (Hposix eq_refl).
  unfold call_localtime_s, ret. cbn [out trace final].
  destruct (localtime_s K (posix_seconds t) s) as [breakdown|];
    [|split; reflexivity].
  rewrite Z.gtb_ltb.
  destruct (0 <? tm_isdst breakdown); cbn [out trace final].
  { rewrite (wrap32_small _ Hd). unfold daylight_offset. split; [|reflexivity].
    do 2 f_equal. ring. }
  destruct (tm_isdst breakdown =? 0); cbn [out trace final].
  { rewrite (wrap32_small _ Hs). unfold standard_offset. split; [|reflexivity].
    do 2 f_equal. ring. }
  unfold plain_offset. split; [|reflexivity]. do 2 f_equal. ring.
Qed.

Lemma LocalOffset_out t c (s : os_state K) :
  in_int64 (t_ t) ->
  in_LONG (Bias (tzinfo_ (cached K c s)) + DaylightBias (tzinfo_ (cached K c s))) ->
  in_LONG (Bias (tzinfo_ (cached K c s)) + StandardBias (tzinfo_ (cached K c s))) ->
  out (LocalOffset K t c s)
  = Returned (LocalOffset_spec
                (tzinfo_ (cached K c s))
                (fun posix =>
                   localtime_s K posix (final (InitializeIfNeeded K c s)))
                t,
              cached K c s).
Proof.
  intros Ht Hd Hs.
  pose proof (LocalOffset_body_out t (cached K c s)
                (final (InitializeIfNeeded K c s)) Ht Hd Hs
                (cached_initialized c s)) as [Hbody _].
  rewrite <- Hbody.
  unfold LocalOffset, bind.
  rewrite InitializeIfNeeded_out.
  rewrite (InitializeIfNeeded_initialized (cached K c s) _
             (cached_initialized c s)).
  reflexivity.
Qed.
End TzFacts.

(** C8, as the code has it.  For a timestamp in the range of [int64_t]
    and cached biases whose sums are in the range of [LONG],
    [LocalOffset] returns what the specification says of the timestamp
    rounded down to whole seconds: 0 when those seconds are out of the
    range of local time; otherwise, of the breakdown that the conversion
    gives, the daylight offset when daylight saving applies, the standard
    offset when it does not, and the offset of the bias alone when the
    breakdown does not tell. *)
Theorem LocalOffset_meets_spec :
  forall (K : Tz.Win32) t c (s : Tz.os_state K),
    Tz.in_int64 (Tz.t_ t) ->
    Tz.in_LONG (Tz.Bias (Tz.tzinfo_ (Tz.cached K c s))
                + Tz.DaylightBias (Tz.tzinfo_ (Tz.cached K c s))) ->
    Tz.in_LONG (Tz.Bias (Tz.tzinfo_ (Tz.cached K c s))
                + Tz.StandardBias (Tz.tzinfo_ (Tz.cached K c s))) ->
    out (Tz.LocalOffset K t c s)
    = Returned (Tz.LocalOffset_spec
                  (Tz.tzinfo_ (Tz.cached K c s))
                  (fun posix =>
                     Tz.localtime_s K posix
                       (final (Tz.InitializeIfNeeded K c s)))
                  t,
                Tz.cached K c s).
Proof. intros K t c s. apply LocalOffset_out. Qed.

(** In November 2023 daylight saving applies on Lord Howe Island: the
    offset is eleven hours. *)
Lemma LocalOffset_meets_spec_witness :
  Tz.in_int64 (Tz.t_ (Tz.Win32Time_of_jstime 1700000000999)) /\
  Tz.in_LONG (Tz.Bias (Tz.tzinfo_ (Tz.cached Tz.lord_howe Tz.new_cache []))
              + Tz.DaylightBias
                  (Tz.tzinfo_ (Tz.cached Tz.lord_howe Tz.new_cache []))) /\
  Tz.in_LONG (Tz.Bias (Tz.tzinfo_ (Tz.cached Tz.lord_howe Tz.new_cache []))
              + Tz.StandardBias
                  (Tz.tzinfo_ (Tz.cached Tz.lord_howe Tz.new_cache []))) /\
  out (Tz.LocalOffset Tz.lord_howe (Tz.Win32Time_of_jstime 1700000000999)
         Tz.new_cache [])
  = Returned (Tz.LocalOffset_spec
                (Tz.tzinfo_ (Tz.cached Tz.lord_howe Tz.new_cache []))
                (fun posix =>
                   Tz.localtime_s Tz.lord_howe posix
                     (final (Tz.InitializeIfNeeded Tz.lord_howe Tz.new_cache [])))
                (Tz.Win32Time_of_jstime 1700000000999),
              Tz.cached Tz.lord_howe Tz.new_cache []).
Proof.
  assert (H1 : Tz.in_int64 (Tz.t_ (Tz.Win32Time_of_jstime 1700000000999)))
    by (split; [discriminate|reflexivity]).
  assert (H2 : Tz.in_LONG
                 (Tz.Bias (Tz.tzinfo_ (Tz.cached Tz.lord_howe Tz.new_cache []))
                  + Tz.DaylightBias
                      (Tz.tzinfo_ (Tz.cached Tz.lord_howe Tz.new_cache []))))
    by (split; [discriminate|reflexivity]).
  assert (H3 : Tz.in_LONG
                 (Tz.Bias (Tz.tzinfo_ (Tz.cached Tz.lord_howe Tz.new_cache []))
                  + Tz.StandardBias
                      (Tz.tzinfo_ (Tz.cached Tz.lord_howe Tz.new_cache []))))
    by (split; [discriminate|reflexivity]).
  repeat (split; [assumption|]).
  exact (LocalOffset_meets_spec Tz.lord_howe
           (Tz.Win32Time_of_jstime 1700000000999) Tz.new_cache [] H1 H2 H3).
Defined.

(** C8 as it is worded fails where the breakdown does not tell whether
    daylight saving applies: the offset returned is that of the bias
    alone, which, the standard bias not being zero, is neither the
    standard nor the daylight offset. *)
Lemma LocalOffset_of_untold_breakdown :
  Tz.posix_seconds (Tz.Win32Time_of_jstime 1700000000000) = 1700000000 /\
  Tz.localtime_s Tz.odd 1700000000 [] = Some (Tz.breakdown (-1)) /\
  out (Tz.LocalOffset Tz.odd (Tz.Win32Time_of_jstime 1700000000000)
         Tz.new_cache [])
  = Returned (-28800000, Tz.cached Tz.odd Tz.new_cache []) /\
  Tz.standard_offset (Tz.tzinfo_ (Tz.cached Tz.odd Tz.new_cache []))
  = -32400000 /\
  Tz.daylight_offset (Tz.tzinfo_ (Tz.cached Tz.odd Tz.new_cache []))
  = -25200000.
Proof. repeat split. Qed.

Section DaylightFacts.
Import Tz.
Variable K : Win32.

Lemma InDST_without_transitions t c (s : os_state K) :
  wMonth (StandardDate (tzinfo_ (cached K c s))) = 0 ->
  wMonth (DaylightDate (tzinfo_ (cached K c s))) = 0 ->
  out (InDST K t c s) = Returned (false, cached K c s).
Proof.
  intros Hs Hd. unfold InDST, bind.
  rewrite InitializeIfNeeded_out, Hs, Hd. reflexivity.
Qed.
End DaylightFacts.

(** C10.  When the cached rules have no transition dates (the months of
    both are zero), [InDST] is false at every timestamp, and so the
    daylight-saving offset is 0 and the zone name is the standard one,
    whatever the conversion of local time would say. *)
Theorem no_transition_dates_no_daylight_saving :
  forall (K : Tz.Win32) t time c (s : Tz.os_state K),
    Tz.wMonth (Tz.StandardDate (Tz.tzinfo_ (Tz.cached K c s))) = 0 ->
    Tz.wMonth (Tz.DaylightDate (Tz.tzinfo_ (Tz.cached K c s))) = 0 ->
    out (Tz.InDST K t c s) = Returned (false, Tz.cached K c s) /\
    out (Tz.DaylightSavingsOffset K t c s) = Returned (0, Tz.cached K c s) /\
    out (Tz.LocalTimezone K t c s)
    = Returned (Tz.std_tz_name_ (Tz.cached K c s), Tz.cached K c s) /\
    out (Tz.Cache_DaylightSavingsOffset K time c s)
    = Returned (0, Tz.cached K c s) /\
    out (Tz.Cache_LocalTimezone K time c s)
    = Returned (Tz.std_tz_name_ (Tz.cached K c s), Tz.cached K c s).
Proof.
  intros K t time c s Hs Hd.
  pose proof (fun t => InDST_without_transitions K t c s Hs Hd) as H.
  unfold Tz.Cache_DaylightSavingsOffset, Tz.Cache_LocalTimezone,
    Tz.DaylightSavingsOffset, Tz.LocalTimezone, bind.
  rewrite !H. repeat split.
Qed.

(** In a zone without daylight saving the conversion is never asked. *)
Lemma no_transition_dates_no_daylight_saving_witness :
  Tz.wMonth (Tz.StandardDate (Tz.tzinfo_ (Tz.cached Tz.utc Tz.new_cache [])))
  = 0 /\
  Tz.wMonth (Tz.DaylightDate (Tz.tzinfo_ (Tz.cached Tz.utc Tz.new_cache [])))
  = 0 /\
  out (Tz.LocalTimezone Tz.utc (Tz.Win32Time_of_jstime 1700000000000)
         Tz.new_cache [])
  = Returned (Tz.std_tz_name_ (Tz.cached Tz.utc Tz.new_cache []),
              Tz.cached Tz.utc Tz.new_cache []).
Proof.
  split; [reflexivity|]. split; [reflexivity|].
  apply (no_transition_dates_no_daylight_saving
           Tz.utc (Tz.Win32Time_of_jstime 1700000000000) 0 Tz.new_cache []
           eq_refl eq_refl).
Defined.

Section DeterminismFacts.
Import Tz.
Variable K : Win32.

(** On an initialized cache, in two states of the OS in which the
    conversion of local time is the same, the functions of [Win32Time]
    return the same, and leave the cache and the OS as they found them. *)
Lemma LocalOffset_same t c (s s' : os_state K) :
  initialized_ c = true ->
  (forall posix, localtime_s K posix s = localtime_s K posix s') ->
  exists v,
    out (LocalOffset K t c s) = Returned (v, c) /\
    out (LocalOffset K t c s') = Returned (v, c) /\
    final (LocalOffset K t c s) = s /\
    final (LocalOffset K t c s') = s'.
Proof.
  intros Hinit Hsame. unfold LocalOffset, bind.
  rewrite !(InitializeIfNeeded_initialized K c _ Hinit).
  cbn [out trace final].
  match goal with |- context [if ?b then _ else _] => destruct b end.
  { exists 0. repeat split. }
  unfold call_localtime_s, ret. cbn [out trace final].
  rewrite Hsame.
  destruct (localtime_s K _ s') as [breakdown|]; [|exists 0; repeat split].
  destruct (tm_isdst breakdown >? 0); [eexists; repeat split|].
  destruct (tm_isdst breakdown =? 0); eexists; repeat split.
Qed.

Lemma InDST_same t c (s s' : os_state K) :
  initialized_ c = true ->
  (forall posix, localtime_s K posix s = localtime_s K posix s') ->
  exists b,
    out (InDST K t c s) = Returned (b, c) /\
    out (InDST K t c s') = Returned (b, c).
Proof.
  intros Hinit Hsame. unfold InDST, bind.
  rewrite !(InitializeIfNeeded_initialized K c _ Hinit).
  cbn [out trace final].
  match goal with |- context [if ?b then _ else _] => destruct b end.
  - destruct (LocalOffset_same t c s s' Hinit Hsame) as (v & -> & -> & _ & _).
    cbn. eexists. split; reflexivity.
  - exists false. split; reflexivity.
Qed.

Lemma DaylightSavingsOffset_same t c (s s' : os_state K) :
  initialized_ c = true ->
  (forall posix, localtime_s K posix s = localtime_s K posix s') ->
  exists v,
    out (DaylightSavingsOffset K t c s) = Returned (v, c) /\
    out (DaylightSavingsOffset K t c s') = Returned (v, c).
Proof.
  intros Hinit Hsame. unfold DaylightSavingsOffset, bind.
  destruct (InDST_same t c s s' Hinit Hsame) as (b & -> & ->).
  cbn. eexists. split; reflexivity.
Qed.

Lemma Cache_LocalTimeOffset_same time_ms is_utc time_ms' is_utc' c
      (s s' : os_state K) :
  initialized_ c = true ->
  fst (TimeCurrentMillis K s) = fst (TimeCurrentMillis K s') ->
  (forall posix,
      localtime_s K posix (snd (TimeCurrentMillis K s))
      = localtime_s K posix (snd (TimeCurrentMillis K s'))) ->
  out (Cache_LocalTimeOffset K time_ms is_utc c s)
  = out (Cache_LocalTimeOffset K time_ms' is_utc' c s').
Proof.
  intros Hinit Hclock Hsame.
  unfold Cache_LocalTimeOffset, bind, call_TimeCurrentMillis.
  destruct (TimeCurrentMillis K s) as [now s1].
  destruct (TimeCurrentMillis K s') as [now' s1'].
  cbn [fst snd] in Hclock, Hsame. subst now'. cbn [out trace final].
  destruct (LocalOffset_same (Win32Time_of_jstime now) c s1 s1' Hinit Hsame)
    as (v & -> & -> & -> & ->).
  cbn [fst snd].
  destruct (DaylightSavingsOffset_same (Win32Time_of_jstime now) c s1 s1'
              Hinit Hsame) as (d & -> & ->).
  reflexivity.
Qed.
End DeterminismFacts.

(** C9, as the code has it.  [WindowsTimezoneCache::LocalTimeOffset]
    does not look at the timestamp it is given: it reads the clock.  On
    an initialized cache its result is a function of the cached rules,
    of the reading of the clock and of the conversion of local time:
    two calls that read the same time under the same conversion return
    the same, whatever their arguments.  And [Win32Time::LocalOffset] is a
    function of the cached rules, of its timestamp and of the
    conversion. *)
Theorem LocalTimeOffset_follows_the_clock :
  forall (K : Tz.Win32) c t time_ms is_utc time_ms' is_utc'
         (s s' : Tz.os_state K),
    Tz.initialized_ c = true ->
    fst (Tz.TimeCurrentMillis K s) = fst (Tz.TimeCurrentMillis K s') ->
    (forall posix,
        Tz.localtime_s K posix (snd (Tz.TimeCurrentMillis K s))
        = Tz.localtime_s K posix (snd (Tz.TimeCurrentMillis K s'))) ->
    (forall posix, Tz.localtime_s K posix s = Tz.localtime_s K posix s') ->
    out (Tz.Cache_LocalTimeOffset K time_ms is_utc c s)
    = out (Tz.Cache_LocalTimeOffset K time_ms' is_utc' c s') /\
    out (Tz.LocalOffset K t c s) = out (Tz.LocalOffset K t c s').
Proof.
  intros K c t time_ms is_utc time_ms' is_utc' s s' Hinit Hclock Hsame Hsame'.
  split.
  - apply Cache_LocalTimeOffset_same; assumption.
  - destruct (LocalOffset_same K t c s s' Hinit Hsame') as (v & -> & -> & _).
    reflexivity.
Qed.

(** Two calls that read the same time, with different arguments. *)
Lemma LocalTimeOffset_follows_the_clock_witness :
  Tz.initialized_ (Tz.cached Tz.lord_howe Tz.new_cache []) = true /\
  fst (Tz.TimeCurrentMillis Tz.lord_howe [1700000000000; 5])
  = fst (Tz.TimeCurrentMillis Tz.lord_howe [1700000000000; 7]) /\
  out (Tz.Cache_LocalTimeOffset Tz.lord_howe 0 true
         (Tz.cached Tz.lord_howe Tz.new_cache []) [1700000000000; 5])
  = out (Tz.Cache_LocalTimeOffset Tz.lord_howe 86400000 false
           (Tz.cached Tz.lord_howe Tz.new_cache []) [1700000000000; 7]).
Proof.
  split; [reflexivity|]. split; [reflexivity|].
  apply (LocalTimeOffset_follows_the_clock
           Tz.lord_howe (Tz.cached Tz.lord_howe Tz.new_cache [])
           (Tz.Win32Time_of_jstime 0) 0 true 86400000 false
           [1700000000000; 5] [1700000000000; 7]
           eq_refl eq_refl (fun _ => eq_refl) (fun _ => eq_refl)).
Defined.

(** C9 as it is worded fails: two calls at the same timestamp, without a
    [Clear] in between, the first made in July 2023 and the second in
    November 2023, return 10:30 and 10:00 hours. *)
Lemma LocalTimeOffset_changes_with_the_clock :
  out (Tz.Cache_LocalTimeOffset Tz.lord_howe 0 true Tz.new_cache
         [1690000000000; 1700000000000])
  = Returned (37800000, Tz.cached Tz.lord_howe Tz.new_cache []) /\
  final (Tz.Cache_LocalTimeOffset Tz.lord_howe 0 true Tz.new_cache
           [1690000000000; 1700000000000])
  = [1700000000000] /\
  out (Tz.Cache_LocalTimeOffset Tz.lord_howe 0 true
         (Tz.cached Tz.lord_howe Tz.new_cache []) [1700000000000])
  = Returned (36000000, Tz.cached Tz.lord_howe Tz.new_cache []).
Proof. repeat split. Qed.

(** * More properties of the platform layer *)

(** ** The timezone cache *)

Section CacheFacts.
Import Tz TzMore.
Variable K : Win32.

Lemma length_truncate n name :
  (String.length (String.substring 0 n name) <= n)%nat.
Proof.
  revert name. induction n as [|n IH]; intros [|c name]; simpl; try lia.
  specialize (IH name). lia.
Qed.

Lemma guessed_name_presentable bias suffix :
  suffix = " Standard Time"%string \/ suffix = " Daylight Time"%string ->
  presentable (GuessTimezoneNameFromBias bias ++ suffix).
Proof.
  intros Hsuffix. unfold GuessTimezoneNameFromBias.
  repeat match goal with
         | |- context [if ?b then _ else _] => destruct b
         end;
    destruct Hsuffix as [-> | ->]; unfold presentable; cbn;
    repeat split; lia.
Qed.

(** The name kept for a zone: the name of the OS cut to the buffer, or the
    guess from the bias. *)
Lemma kept_name_presentable name bias suffix :
  suffix = " Standard Time"%string \/ suffix = " Daylight Time"%string ->
  presentable
    (if is_empty (truncate (kTzNameSize - 1) name)
        || starts_with_at (truncate (kTzNameSize - 1) name)
     then (GuessTimezoneNameFromBias bias ++ suffix)%string
     else truncate (kTzNameSize - 1) name).
Proof.
  intros Hsuffix.
  destruct (is_empty (truncate (kTzNameSize - 1) name)) eqn:Hempty;
    [apply guessed_name_presentable, Hsuffix|].
  destruct (starts_with_at (truncate (kTzNameSize - 1) name)) eqn:Hat;
    [apply guessed_name_presentable, Hsuffix|].
  cbn [orb]. repeat split; auto. apply length_truncate.
Qed.

Lemma cached_uninitialized c (s : os_state K) :
  initialized_ c = false ->
  cached K c s
  = (let r := fst (GetTimeZoneInformation K (_tzset K s)) in
     let tzinfo :=
       if fst r =? TIME_ZONE_ID_INVALID then fall_back_to_CET (snd r)
       else snd r in
     mkCache true
       (if is_empty (truncate (kTzNameSize - 1) (StandardName tzinfo))
           || starts_with_at (truncate (kTzNameSize - 1) (StandardName tzinfo))
        then (GuessTimezoneNameFromBias (Bias tzinfo) ++ " Standard Time")%string
        else truncate (kTzNameSize - 1) (StandardName tzinfo))
       (if is_empty (truncate (kTzNameSize - 1) (DaylightName tzinfo))
           || starts_with_at (truncate (kTzNameSize - 1) (DaylightName tzinfo))
        then (GuessTimezoneNameFromBias (Bias tzinfo) ++ " Daylight Time")%string
        else truncate (kTzNameSize - 1) (DaylightName tzinfo))
       tzinfo).
Proof.
  intros Hinit.
  unfold cached, InitializeIfNeeded, bind, call_tzset,
    call_GetTimeZoneInformation, ret.
  rewrite Hinit. cbn [out trace final].
  destruct (GetTimeZoneInformation K (_tzset K s)) as [r s'].
  reflexivity.
Qed.
End CacheFacts.

(** X1.  Whatever names the OS gives, empty ones and resource identifiers
    included, a cache that [InitializeIfNeeded] fills holds a standard and
    a daylight name that are not empty, do not start with an at sign, and
    fit their buffers. *)
Theorem initialized_names_are_presentable :
  forall (K : Tz.Win32) c (s : Tz.os_state K),
    Tz.initialized_ c = false ->
    TzMore.presentable (Tz.std_tz_name_ (Tz.cached K c s)) /\
    TzMore.presentable (Tz.dst_tz_name_ (Tz.cached K c s)).
Proof.
  intros K c s Hinit. rewrite (cached_uninitialized K c s Hinit).
  cbv zeta. cbn [Tz.std_tz_name_ Tz.dst_tz_name_].
  split; apply kept_name_presentable; auto.
Qed.

Lemma initialized_names_are_presentable_witness :
  Tz.initialized_ Tz.new_cache = false /\
  TzMore.presentable
    (Tz.std_tz_name_ (Tz.cached TzMore.clueless Tz.new_cache [])) /\
  TzMore.presentable
    (Tz.dst_tz_name_ (Tz.cached TzMore.clueless Tz.new_cache [])).
Proof.
  split; [reflexivity|].
  apply (initialized_names_are_presentable TzMore.clueless Tz.new_cache []
           eq_refl).
Defined.

(** X2.  [InitializeIfNeeded] is idempotent: on the cache that it has
    filled it returns that cache and asks nothing of the OS.  After
    [Clear] it asks again ([_tzset], then [GetTimeZoneInformation]), and
    what it then caches owes nothing to what the cache held before. *)
Theorem InitializeIfNeeded_idempotent_until_Clear :
  forall (K : Tz.Win32) c c' (s s' : Tz.os_state K),
    Tz.InitializeIfNeeded K (Tz.cached K c s) s'
    = mkRun (Returned (Tz.cached K c s)) [] s' /\
    trace (Tz.InitializeIfNeeded K (Tz.Clear c) s)
    = [Tz.EvTzset;
       Tz.EvGetTimeZoneInformation
         (fst (fst (Tz.GetTimeZoneInformation K (Tz._tzset K s))))] /\
    Tz.cached K (Tz.Clear c) s = Tz.cached K (Tz.Clear c') s.
Proof.
  intros K c c' s s'. split; [|split].
  - apply InitializeIfNeeded_initialized, cached_initialized.
  - unfold Tz.InitializeIfNeeded, Tz.Clear, bind, Tz.call_tzset,
      Tz.call_GetTimeZoneInformation, ret.
    cbn [Tz.initialized_ out trace final].
    destruct (Tz.GetTimeZoneInformation K (Tz._tzset K s)) as [r s1].
    reflexivity.
  - rewrite !cached_uninitialized by reflexivity. reflexivity.
Qed.

(** X3.  When the OS cannot tell the time zone, the cache falls back to
    Central European Time: one hour east of UTC, two in summer, with
    transitions in October and March; and when the OS left no names, the
    names guessed from that bias are those of Central Europe. *)
Theorem fallback_is_central_european_time :
  forall (K : Tz.Win32) c (s : Tz.os_state K),
    Tz.initialized_ c = false ->
    fst (fst (Tz.GetTimeZoneInformation K (Tz._tzset K s)))
    = Tz.TIME_ZONE_ID_INVALID ->
    Tz.standard_offset (Tz.tzinfo_ (Tz.cached K c s)) = 3600000 /\
    Tz.daylight_offset (Tz.tzinfo_ (Tz.cached K c s)) = 7200000 /\
    Tz.wMonth (Tz.StandardDate (Tz.tzinfo_ (Tz.cached K c s))) = 10 /\
    Tz.wMonth (Tz.DaylightDate (Tz.tzinfo_ (Tz.cached K c s))) = 3 /\
    (Tz.StandardName
       (snd (fst (Tz.GetTimeZoneInformation K (Tz._tzset K s)))) = ""%string ->
     Tz.std_tz_name_ (Tz.cached K c s)
     = "Central Europe Standard Time"%string) /\
    (Tz.DaylightName
       (snd (fst (Tz.GetTimeZoneInformation K (Tz._tzset K s)))) = ""%string ->
     Tz.dst_tz_name_ (Tz.cached K c s)
     = "Central Europe Daylight Time"%string).
Proof.
  intros K c s Hinit Hid. rewrite (cached_uninitialized K c s Hinit).
  cbv zeta. rewrite Hid.
  change (Tz.TIME_ZONE_ID_INVALID =? Tz.TIME_ZONE_ID_INVALID) with true.
  cbn [Tz.tzinfo_ Tz.std_tz_name_ Tz.dst_tz_name_].
  repeat split.
  - intros Hname. cbn [Tz.fall_back_to_CET Tz.StandardName Tz.Bias].
    rewrite Hname. reflexivity.
  - intros Hname. cbn [Tz.fall_back_to_CET Tz.DaylightName Tz.Bias].
    rewrite Hname. reflexivity.
Qed.

Lemma fallback_is_central_european_time_witness :
  Tz.initialized_ Tz.new_cache = false /\
  fst (fst (Tz.GetTimeZoneInformation TzMore.clueless
              (Tz._tzset TzMore.clueless [])))
  = Tz.TIME_ZONE_ID_INVALID /\
  Tz.std_tz_name_ (Tz.cached TzMore.clueless Tz.new_cache [])
  = "Central Europe Standard Time"%string.
Proof.
  split; [reflexivity|]. split; [reflexivity|].
  destruct (fallback_is_central_european_time
              TzMore.clueless Tz.new_cache [] eq_refl eq_refl)
    as (_ & _ & _ & _ & Hstd & _).
  apply Hstd. reflexivity.
Defined.

(** ** [Win32Time] *)

Section Win32TimeFacts.
Import Tz TzMore.
Variable K : Win32.

Lemma wrap64_small z : in_int64 z -> wrap64 z = z.
Proof.
  unfold in_int64, wrap64, wrap_signed. intros Hz.
  change (2 ^ (64 - 1)) with (2 ^ 63).
  change (2 ^ 64) with (2 * 2 ^ 63).
  rewrite Z.mod_small; lia.
Qed.

Lemma Win32Time_of_jstime_convertible jstime :
  convertible jstime ->
  t_ (Win32Time_of_jstime jstime) = jstime * kTimeScaler + kTimeEpoc.
Proof.
  intros [H1 H2]. unfold Win32Time_of_jstime. cbn [t_].
  rewrite (wrap64_small _ H1). apply wrap64_small, H2.
Qed.

(** The seconds since 1970 of a time in milliseconds. *)
Lemma posix_seconds_of_jstime jstime :
  0 <= jstime <= INT_MAX * 1000 + 999 ->
  convertible jstime /\
  posix_seconds (Win32Time_of_jstime jstime) = jstime / 1000.
Proof.
  intros Hrange.
  assert (Hc : convertible jstime).
  { unfold convertible, in_int64, kTimeScaler, kTimeEpoc, INT_MAX in *. lia. }
  split; [exact Hc|].
  unfold posix_seconds. rewrite (Win32Time_of_jstime_convertible _ Hc).
  unfold kTimeScaler, kTimeEpoc, INT_MAX in *.
  Z.div_mod_to_equations. lia.
Qed.

(** [InDST] as a function of the cached rules, the conversion and the
    timestamp: with a transition date in the rules, whether the local
    offset is the daylight offset. *)
Lemma InDST_out t c (s : os_state K) :
  in_int64 (t_ t) ->
  negatable_LONG (Bias (tzinfo_ (cached K c s))
                  + DaylightBias (tzinfo_ (cached K c s))) ->
  in_LONG (Bias (tzinfo_ (cached K c s)) + StandardBias (tzinfo_ (cached K c s))) ->
  out (InDST K t c s)
  = Returned
      (has_transitions (tzinfo_ (cached K c s))
       && (LocalOffset_spec
             (tzinfo_ (cached K c s))
             (fun posix => localtime_s K posix (final (InitializeIfNeeded K c s)))
             t
           =? daylight_offset (tzinfo_ (cached K c s))),
       cached K c s) /\
  final (InDST K t c s) = final (InitializeIfNeeded K c s).
Proof.
  intros Ht Hd Hs.
  assert (Hd' : in_LONG (Bias (tzinfo_ (cached K c s))
                         + DaylightBias (tzinfo_ (cached K c s))))
    by (unfold in_LONG, negatable_LONG in *; lia).
  destruct (LocalOffset_body_out K t (cached K c s)
              (final (InitializeIfNeeded K c s)) Ht Hd' Hs
              (cached_initialized K c s)) as [Hout Hfinal].
  unfold InDST, bind. rewrite InitializeIfNeeded_out.
  fold (has_transitions (tzinfo_ (cached K c s))).
  destruct (has_transitions (tzinfo_ (cached K c s)));
    [|split; reflexivity].
  rewrite Hout, Hfinal. cbn [out trace final fst snd andb].
  rewrite (wrap32_small _ Hd').
  rewrite wrap32_small by (unfold in_LONG, negatable_LONG in *; lia).
  split; reflexivity.
Qed.
End Win32TimeFacts.

(** X4.  A time in milliseconds since 1970 that the constructor of
    [Win32Time] takes without overflow comes back as it was from
    [ToJSTime]: the change of epoch and of unit loses nothing. *)
Theorem ToJSTime_of_jstime :
  forall jstime,
    TzMore.convertible jstime ->
    Tz.ToJSTime (Tz.Win32Time_of_jstime jstime) = jstime.
Proof.
  intros jstime Hc. unfold Tz.ToJSTime.
  rewrite (Win32Time_of_jstime_convertible _ Hc).
  replace (jstime * Tz.kTimeScaler + Tz.kTimeEpoc - Tz.kTimeEpoc)
    with (jstime * Tz.kTimeScaler) by ring.
  rewrite (wrap64_small _ (proj1 Hc)).
  apply Z.quot_mul. discriminate.
Qed.

Lemma ToJSTime_of_jstime_witness :
  TzMore.convertible (-11644473600001) /\
  Tz.ToJSTime (Tz.Win32Time_of_jstime (-11644473600001)) = -11644473600001.
Proof.
  assert (Hc : TzMore.convertible (-11644473600001))
    by (repeat split; discriminate).
  split; [exact Hc|].
  exact (ToJSTime_of_jstime (-11644473600001) Hc).
Defined.

(** X5.  [LocalOffset] never fails: whatever the timestamp, the state of
    the cache and the answers of the OS, it returns a whole number of
    minutes and leaves the cache filled. *)
Theorem LocalOffset_whole_minutes :
  forall (K : Tz.Win32) t c (s : Tz.os_state K),
  exists minutes,
    out (Tz.LocalOffset K t c s)
    = Returned (minutes * Tz.kMsPerMinute, Tz.cached K c s).
Proof.
  intros K t c s. unfold Tz.LocalOffset, bind.
  rewrite InitializeIfNeeded_out.
  match goal with |- context [if ?b then _ else _] => destruct b end.
  { exists 0. reflexivity. }
  unfold Tz.call_localtime_s, ret. cbn [out trace final].
  match goal with
  | |- context [match ?r with Some _ => _ | None => _ end] =>
      destruct r as [breakdown|]
  end; [|exists 0; reflexivity].
  destruct (Tz.tm_isdst breakdown >? 0);
    [eexists; cbn [out]; do 2 f_equal; rewrite Z.mul_opp_r, <- Z.mul_opp_l;
     reflexivity|].
  destruct (Tz.tm_isdst breakdown =? 0);
    eexists; cbn [out]; do 2 f_equal; rewrite Z.mul_opp_r, <- Z.mul_opp_l;
    reflexivity.
Qed.

(** X6.  Outside the range in which local time is representable (before
    1970, past [INT_MAX] seconds, or where [localtime_s] refuses) the
    local offset is taken to be 0, so that [InDST], when the rules have a
    transition date, says daylight saving applies exactly when the
    daylight offset of the zone is zero, as it is in the Azores. *)
Theorem InDST_out_of_range :
  forall (K : Tz.Win32) t c (s : Tz.os_state K),
    Tz.in_int64 (Tz.t_ t) ->
    TzMore.negatable_LONG (Tz.Bias (Tz.tzinfo_ (Tz.cached K c s))
                           + Tz.DaylightBias (Tz.tzinfo_ (Tz.cached K c s))) ->
    Tz.in_LONG (Tz.Bias (Tz.tzinfo_ (Tz.cached K c s))
                + Tz.StandardBias (Tz.tzinfo_ (Tz.cached K c s))) ->
    TzMore.has_transitions (Tz.tzinfo_ (Tz.cached K c s)) = true ->
    Tz.posix_seconds t < 0 \/ Tz.INT_MAX < Tz.posix_seconds t \/
    Tz.localtime_s K (Tz.posix_seconds t) (final (Tz.InitializeIfNeeded K c s))
    = None ->
    out (Tz.InDST K t c s)
    = Returned (Tz.Bias (Tz.tzinfo_ (Tz.cached K c s))
                + Tz.DaylightBias (Tz.tzinfo_ (Tz.cached K c s)) =? 0,
                Tz.cached K c s).
Proof.
  intros K t c s Ht Hd Hs Htrans Hrange.
  destruct (InDST_out K t c s Ht Hd Hs) as [-> _].
  rewrite Htrans. cbn [andb]. do 2 f_equal.
  assert (Hzero : Tz.LocalOffset_spec
                    (Tz.tzinfo_ (Tz.cached K c s))
                    (fun posix =>
                       Tz.localtime_s K posix
                         (final (Tz.InitializeIfNeeded K c s))) t = 0).
  { unfold Tz.LocalOffset_spec.
    destruct (Z.ltb_spec (Tz.posix_seconds t) 0); [reflexivity|].
    destruct (Z.ltb_spec Tz.INT_MAX (Tz.posix_seconds t)); [reflexivity|].
    cbn [orb]. destruct Hrange as [H1 | [H1 | H1]]; try lia.
    rewrite H1. reflexivity. }
  rewrite Hzero. unfold Tz.daylight_offset, Tz.kMsPerMinute.
  destruct (Z.eqb_spec (Tz.Bias (Tz.tzinfo_ (Tz.cached K c s))
                        + Tz.DaylightBias (Tz.tzinfo_ (Tz.cached K c s))) 0)
    as [-> | Hne]; [reflexivity|].
  apply Z.eqb_neq. lia.
Qed.

(** In the Azores the year 1969 is in daylight saving time, in the
    middle of winter. *)
Lemma InDST_out_of_range_witness :
  Tz.posix_seconds (Tz.Win32Time_of_jstime (-1000)) < 0 /\
  out (Tz.InDST TzMore.azores (Tz.Win32Time_of_jstime (-1000)) Tz.new_cache [])
  = Returned (true, Tz.cached TzMore.azores Tz.new_cache []).
Proof.
  assert (Hp : Tz.posix_seconds (Tz.Win32Time_of_jstime (-1000)) < 0)
    by reflexivity.
  split; [exact Hp|].
  apply (InDST_out_of_range TzMore.azores (Tz.Win32Time_of_jstime (-1000))
           Tz.new_cache []).
  - split; [discriminate|reflexivity].
  - split; reflexivity.
  - split; [discriminate|reflexivity].
  - reflexivity.
  - left. exact Hp.
Defined.

(** X7.  Within the range of local time, when the rules have a
    transition date and their standard and daylight biases differ,
    [InDST] says what the breakdown of [localtime_s] says; the
    daylight-saving offset is then one hour or nothing, and the name of
    the zone the daylight or the standard one. *)
Theorem InDST_follows_the_breakdown :
  forall (K : Tz.Win32) t c (s : Tz.os_state K) breakdown,
    Tz.in_int64 (Tz.t_ t) ->
    TzMore.negatable_LONG (Tz.Bias (Tz.tzinfo_ (Tz.cached K c s))
                           + Tz.DaylightBias (Tz.tzinfo_ (Tz.cached K c s))) ->
    Tz.in_LONG (Tz.Bias (Tz.tzinfo_ (Tz.cached K c s))
                + Tz.StandardBias (Tz.tzinfo_ (Tz.cached K c s))) ->
    TzMore.has_transitions (Tz.tzinfo_ (Tz.cached K c s)) = true ->
    Tz.StandardBias (Tz.tzinfo_ (Tz.cached K c s))
    <> Tz.DaylightBias (Tz.tzinfo_ (Tz.cached K c s)) ->
    0 <= Tz.posix_seconds t <= Tz.INT_MAX ->
    Tz.localtime_s K (Tz.posix_seconds t) (final (Tz.InitializeIfNeeded K c s))
    = Some breakdown ->
    0 <= Tz.tm_isdst breakdown ->
    out (Tz.InDST K t c s)
    = Returned (0 <? Tz.tm_isdst breakdown, Tz.cached K c s) /\
    out (Tz.DaylightSavingsOffset K t c s)
    = Returned (if 0 <? Tz.tm_isdst breakdown then 3600000 else 0,
                Tz.cached K c s) /\
    out (Tz.LocalTimezone K t c s)
    = Returned (if 0 <? Tz.tm_isdst breakdown
                then Tz.dst_tz_name_ (Tz.cached K c s)
                else Tz.std_tz_name_ (Tz.cached K c s),
                Tz.cached K c s).
Proof.
  intros K t c s breakdown Ht Hd Hs Htrans Hne Hrange Hlocal Hisdst.
  assert (Hin : out (Tz.InDST K t c s)
                = Returned (0 <? Tz.tm_isdst breakdown, Tz.cached K c s)).
  { destruct (InDST_out K t c s Ht Hd Hs) as [-> _].
    rewrite Htrans. cbn [andb]. do 2 f_equal.
    unfold Tz.LocalOffset_spec.
    destruct (Z.ltb_spec (Tz.posix_seconds t) 0); [lia|].
    destruct (Z.ltb_spec Tz.INT_MAX (Tz.posix_seconds t)); [lia|].
    cbn [orb]. rewrite Hlocal.
    destruct (Z.ltb_spec 0 (Tz.tm_isdst breakdown)); [apply Z.eqb_refl|].
    replace (Tz.tm_isdst breakdown) with 0 by lia. cbn [Z.eqb].
    apply Z.eqb_neq. unfold Tz.standard_offset, Tz.daylight_offset,
      Tz.kMsPerMinute. lia. }
  split; [exact Hin|].
  unfold Tz.DaylightSavingsOffset, Tz.LocalTimezone, bind. rewrite Hin.
  cbn [out fst snd]. unfold ret. cbn [out].
  split; reflexivity.
Qed.

(** Central Europe in the summer and in the winter of 2023. *)
Lemma InDST_follows_the_breakdown_witness :
  out (Tz.LocalTimezone TzMore.cet (Tz.Win32Time_of_jstime 1690000000000)
         Tz.new_cache [])
  = Returned ("W. Europe Daylight Time"%string,
              Tz.cached TzMore.cet Tz.new_cache []) /\
  out (Tz.LocalTimezone TzMore.cet (Tz.Win32Time_of_jstime 1700000000000)
         Tz.new_cache [])
  = Returned ("W. Europe Standard Time"%string,
              Tz.cached TzMore.cet Tz.new_cache []).
Proof.
  split.
  - refine (proj2 (proj2 (InDST_follows_the_breakdown
                            TzMore.cet (Tz.Win32Time_of_jstime 1690000000000)
                            Tz.new_cache [] (Tz.breakdown 1)
                            _ _ _ _ _ _ _ _)));
      try reflexivity; try discriminate;
      split; try reflexivity; discriminate.
  - refine (proj2 (proj2 (InDST_follows_the_breakdown
                            TzMore.cet (Tz.Win32Time_of_jstime 1700000000000)
                            Tz.new_cache [] (Tz.breakdown 0)
                            _ _ _ _ _ _ _ _)));
      try reflexivity; try discriminate;
      split; try reflexivity; discriminate.
Defined.

Section LocalTimeOffsetFacts.
Import Tz TzMore.
Variable K : Win32.

Lemma InDST_body_out t c (s : os_state K) :
  initialized_ c = true ->
  in_int64 (t_ t) ->
  negatable_LONG (Bias (tzinfo_ c) + DaylightBias (tzinfo_ c)) ->
  in_LONG (Bias (tzinfo_ c) + StandardBias (tzinfo_ c)) ->
  out (InDST K t c s)
  = Returned
      (has_transitions (tzinfo_ c)
       && (LocalOffset_spec (tzinfo_ c) (fun posix => localtime_s K posix s) t
           =? daylight_offset (tzinfo_ c)),
       c) /\
  final (InDST K t c s) = s.
Proof.
  intros Hinit Ht Hd Hs.
  assert (Hc : cached K c s = c).
  { unfold cached. rewrite (InitializeIfNeeded_initialized K c s Hinit).
    reflexivity. }
  assert (Hf : final (InitializeIfNeeded K c s) = s).
  { rewrite (InitializeIfNeeded_initialized K c s Hinit). reflexivity. }
  pose proof (InDST_out K t c s Ht) as H.
  rewrite Hc, Hf in H. apply H; assumption.
Qed.
End LocalTimeOffsetFacts.

(** X8.  Where daylight saving shifts the clock by the usual hour (the
    daylight bias is the standard bias less 60 minutes), and the clock
    shows a time between 1970 and 2038 that [localtime_s] converts, the
    local time offset of the cache is the standard offset of the zone
    whether or not the conversion reports daylight saving, provided
    that the rules have a transition date: the hour that
    [DaylightSavingsOffset] reports is the hour by which [LocalOffset]
    has moved.  Rules without a transition date never count as daylight
    saving, so that no hour is taken off: when the conversion reports
    daylight saving under such rules, the result is the daylight
    offset. *)
Theorem LocalTimeOffset_is_the_standard_offset :
  forall (K : Tz.Win32) c time_ms is_utc (s : Tz.os_state K) breakdown,
    Tz.initialized_ c = true ->
    Tz.in_LONG (Tz.Bias (Tz.tzinfo_ c) + Tz.StandardBias (Tz.tzinfo_ c)) ->
    TzMore.negatable_LONG (Tz.Bias (Tz.tzinfo_ c) + Tz.DaylightBias (Tz.tzinfo_ c)) ->
    Tz.DaylightBias (Tz.tzinfo_ c) = Tz.StandardBias (Tz.tzinfo_ c) - 60 ->
    0 <= fst (Tz.TimeCurrentMillis K s) <= Tz.INT_MAX * 1000 + 999 ->
    Tz.localtime_s K (fst (Tz.TimeCurrentMillis K s) / 1000)
      (snd (Tz.TimeCurrentMillis K s)) = Some breakdown ->
    0 <= Tz.tm_isdst breakdown ->
    out (Tz.Cache_LocalTimeOffset K time_ms is_utc c s)
    = Returned (if (0 <? Tz.tm_isdst breakdown)
                   && negb (TzMore.has_transitions (Tz.tzinfo_ c))
                then Tz.daylight_offset (Tz.tzinfo_ c)
                else Tz.standard_offset (Tz.tzinfo_ c),
                c) /\
    final (Tz.Cache_LocalTimeOffset K time_ms is_utc c s)
    = snd (Tz.TimeCurrentMillis K s).
Proof.
  intros K c time_ms is_utc s breakdown Hinit Hs Hd Hhour Hnow Hlocal Hisdst.
  unfold Tz.Cache_LocalTimeOffset, bind, Tz.call_TimeCurrentMillis.
  destruct (Tz.TimeCurrentMillis K s) as [now s1].
  cbn [fst snd] in *. cbn [out trace final].
  destruct (posix_seconds_of_jstime now Hnow) as [Hc Hposix].
  assert (Ht : Tz.in_int64 (Tz.t_ (Tz.Win32Time_of_jstime now))).
  { rewrite (Win32Time_of_jstime_convertible _ Hc). apply Hc. }
  assert (Hd' : Tz.in_LONG (Tz.Bias (Tz.tzinfo_ c) + Tz.DaylightBias (Tz.tzinfo_ c)))
    by (unfold Tz.in_LONG, TzMore.negatable_LONG in *; lia).
  destruct (LocalOffset_body_out K (Tz.Win32Time_of_jstime now) c s1
              Ht Hd' Hs Hinit) as [Hout Hfinal].
  rewrite Hout, Hfinal. cbn [fst snd].
  unfold Tz.DaylightSavingsOffset, bind.
  destruct (InDST_body_out K (Tz.Win32Time_of_jstime now) c s1
              Hinit Ht Hd Hs) as [Hin Hfin].
  rewrite Hin, Hfin. unfold ret. cbn [out trace final fst snd].
  split; [|reflexivity]. do 2 f_equal.
  unfold Tz.LocalOffset_spec. rewrite Hposix.
  unfold Tz.INT_MAX in *.
  destruct (Z.ltb_spec (now / 1000) 0);
    [exfalso; Z.div_mod_to_equations; lia|].
  destruct (Z.ltb_spec 2147483647 (now / 1000));
    [exfalso; Z.div_mod_to_equations; lia|].
  cbn [orb]. rewrite Hlocal.
  unfold Tz.standard_offset, Tz.daylight_offset, Tz.kMsPerMinute,
    Tz.in_LONG, TzMore.negatable_LONG in *.
  destruct (Z.ltb_spec 0 (Tz.tm_isdst breakdown)) as [Hsummer | Hwinter].
  - rewrite Z.eqb_refl.
    destruct (TzMore.has_transitions (Tz.tzinfo_ c)); cbn [andb negb].
    + rewrite wrap64_small by (unfold Tz.in_int64; lia). lia.
    + rewrite wrap64_small by (unfold Tz.in_int64; lia). lia.
  - replace (Tz.tm_isdst breakdown) with 0 by lia. cbn [Z.eqb andb].
    match goal with
    | |- context [?a =? ?b] =>
        replace (a =? b) with false by (symmetry; apply Z.eqb_neq; lia)
    end.
    rewrite andb_false_r.
    rewrite wrap64_small by (unfold Tz.in_int64; lia). lia.
Qed.

(** Central Europe in July and in November 2023: one hour east of UTC.
    Under the same biases without transition dates, a conversion that
    reports daylight saving gives two hours. *)
Lemma LocalTimeOffset_is_the_standard_offset_witness :
  out (Tz.Cache_LocalTimeOffset TzMore.cet 0 true
         (Tz.cached TzMore.cet Tz.new_cache []) [1690000000000])
  = Returned (3600000, Tz.cached TzMore.cet Tz.new_cache []) /\
  out (Tz.Cache_LocalTimeOffset TzMore.cet 0 true
         (Tz.cached TzMore.cet Tz.new_cache []) [1700000000000])
  = Returned (3600000, Tz.cached TzMore.cet Tz.new_cache []) /\
  out (Tz.Cache_LocalTimeOffset TzMore.dateless 0 true
         (Tz.cached TzMore.dateless Tz.new_cache []) [1690000000000])
  = Returned (7200000, Tz.cached TzMore.dateless Tz.new_cache []).
Proof.
  split; [|split].
  - refine (proj1 (LocalTimeOffset_is_the_standard_offset
                     TzMore.cet (Tz.cached TzMore.cet Tz.new_cache []) 0 true
                     [1690000000000] (Tz.breakdown 1) _ _ _ _ _ _ _));
      try reflexivity; try discriminate;
      split; try reflexivity; discriminate.
  - refine (proj1 (LocalTimeOffset_is_the_standard_offset
                     TzMore.cet (Tz.cached TzMore.cet Tz.new_cache []) 0 true
                     [1700000000000] (Tz.breakdown 0) _ _ _ _ _ _ _));
      try reflexivity; try discriminate;
      split; try reflexivity; discriminate.
  - refine (proj1 (LocalTimeOffset_is_the_standard_offset
                     TzMore.dateless
                     (Tz.cached TzMore.dateless Tz.new_cache []) 0 true
                     [1690000000000] (Tz.breakdown 1) _ _ _ _ _ _ _));
      try reflexivity; try discriminate;
      split; try reflexivity; discriminate.
Defined.

(** ** The clock *)

Section ClockFacts.
Import Clock.
Variable K : Win32.

(** The test of [SetToCurrentTime], on values in range. *)
Lemma needs_resync_resyncs (p : process K) time_now ticks_now :
  statics_in_range p ->
  0 <= time_now < 2 ^ 62 ->
  negb (initialized p)
  || (ticks_now <? init_ticks p)
  || (Tz.wrap64 (time_now - init_time p) >? kMaxClockElapsedTime)
  || (time_now <? init_time p)
  = resyncs p time_now ticks_now.
Proof.
  intros [Htime _] Hnow. unfold resyncs.
  rewrite wrap64_small by (unfold Tz.in_int64; lia).
  rewrite Z.gtb_ltb. do 2 f_equal.
  destruct (Z.ltb_spec kMaxClockElapsedTime (time_now - init_time p));
    destruct (Z.ltb_spec (init_time p + kMaxClockElapsedTime) time_now);
    try reflexivity; lia.
Qed.
Lemma post_get_statics (p : process K)
      (Q : outcome (bool * Z * Z) -> list event -> process K -> Prop) :
  Q (Returned (initialized p, init_time p, init_ticks p)) [] p ->
  post (get_statics K) p Q.
Proof. intros H; exact H. Qed.

Lemma post_set_statics i time ticks (p : process K)
      (Q : outcome unit -> list event -> process K -> Prop) :
  Q (Returned tt) [] (mkProcess K (os p) i time ticks) ->
  post (set_statics K i time ticks) p Q.
Proof. intros H; exact H. Qed.

Lemma post_call_GetSystemTimeAsFileTime (p : process K)
      (Q : outcome Z -> list event -> process K -> Prop) :
  (forall r s, GetSystemTimeAsFileTime K (os p) = (r, s) ->
               Q (Returned r) [EvGetSystemTimeAsFileTime r]
                 (mkProcess K s (initialized p) (init_time p) (init_ticks p))) ->
  post (call_GetSystemTimeAsFileTime K) p Q.
Proof.
  unfold post, call_GetSystemTimeAsFileTime.
  destruct (GetSystemTimeAsFileTime K (os p)) as [r s]. intros H.
  apply H. reflexivity.
Qed.

Lemma post_call_timeGetTime (p : process K)
      (Q : outcome Z -> list event -> process K -> Prop) :
  (forall r s, timeGetTime K (os p) = (r, s) ->
               Q (Returned r) [EvTimeGetTime r]
                 (mkProcess K s (initialized p) (init_time p) (init_ticks p))) ->
  post (call_timeGetTime K) p Q.
Proof.
  unfold post, call_timeGetTime.
  destruct (timeGetTime K (os p)) as [r s]. intros H.
  apply H. reflexivity.
Qed.

(** A run is its outcome, its trace and its final state. *)
Lemma run_is {A} (r : @run (process K) event A) o tr p :
  out r = o /\ trace r = tr /\ final r = p -> r = mkRun o tr p.
Proof. destruct r. cbn. intros (-> & -> & ->). reflexivity. Qed.
End ClockFacts.

(** X9.  [SetToCurrentTime] keeps its time by the tick count and not by
    the system time.  While the tick count does not fall behind the one
    of the last synchronisation, and the system time is not before that
    synchronisation nor more than a minute after it, the time set is the
    synchronised time plus the ticks elapsed, 10000 units to a
    millisecond, whatever the system time says.  Otherwise, and at the
    first call, time and ticks are read anew, kept as the new
    synchronisation, and that system time is the time set. *)
Theorem SetToCurrentTime_by_ticks :
  forall (K : Clock.Win32) (p : Clock.process K) time_now s1 ticks_now s2,
    Clock.ticks_are_DWORDs K ->
    Clock.times_are_FILETIMEs K ->
    Clock.statics_in_range p ->
    Clock.GetSystemTimeAsFileTime K (Clock.os p) = (time_now, s1) ->
    Clock.timeGetTime K s1 = (ticks_now, s2) ->
    (Clock.resyncs p time_now ticks_now = false ->
     Clock.SetToCurrentTime K p
     = mkRun (Returned (Clock.init_time p
                        + (ticks_now - Clock.init_ticks p) * 10000))
             [Clock.EvGetSystemTimeAsFileTime time_now;
              Clock.EvTimeGetTime ticks_now]
             (Clock.mkProcess K s2 true (Clock.init_time p)
                (Clock.init_ticks p))) /\
    (Clock.resyncs p time_now ticks_now = true ->
     Clock.SetToCurrentTime K p
     = mkRun (Returned (fst (Clock.GetSystemTimeAsFileTime K s2)))
             [Clock.EvGetSystemTimeAsFileTime time_now;
              Clock.EvTimeGetTime ticks_now;
              Clock.EvGetSystemTimeAsFileTime
                (fst (Clock.GetSystemTimeAsFileTime K s2));
              Clock.EvTimeGetTime
                (fst (Clock.timeGetTime K
                        (snd (Clock.GetSystemTimeAsFileTime K s2))))]
             (Clock.mkProcess K
                (snd (Clock.timeGetTime K
                        (snd (Clock.GetSystemTimeAsFileTime K s2))))
                true
                (fst (Clock.GetSystemTimeAsFileTime K s2))
                (fst (Clock.timeGetTime K
                        (snd (Clock.GetSystemTimeAsFileTime K s2)))))) /\
    Clock.statics_in_range (final (Clock.SetToCurrentTime K p)) /\
    Clock.initialized (final (Clock.SetToCurrentTime K p)) = true.
Proof.
  intros K p time_now s1 ticks_now s2 Hticks Htimes Hrange Htime Htick.
  assert (Hnow : 0 <= time_now < 2 ^ 62).
  { specialize (Htimes (Clock.os p)). rewrite Htime in Htimes. exact Htimes. }
  assert (Hticks_now : 0 <= ticks_now < 2 ^ 32).
  { specialize (Hticks s1). rewrite Htick in Hticks. exact Hticks. }
  pose proof (needs_resync_resyncs K p time_now ticks_now Hrange Hnow) as Htest.
  pose proof (Htimes s2) as Htime2.
  pose proof (Hticks (snd (Clock.GetSystemTimeAsFileTime K s2))) as Htick2.
  assert (Hpost :
            post (Clock.SetToCurrentTime K) p
                 (fun o tr p' =>
                    (Clock.resyncs p time_now ticks_now = false ->
                     o = Returned (Clock.init_time p
                                   + (ticks_now - Clock.init_ticks p) * 10000) /\
                     tr = [Clock.EvGetSystemTimeAsFileTime time_now;
                           Clock.EvTimeGetTime ticks_now] /\
                     p' = Clock.mkProcess K s2 true (Clock.init_time p)
                            (Clock.init_ticks p)) /\
                    (Clock.resyncs p time_now ticks_now = true ->
                     o = Returned (fst (Clock.GetSystemTimeAsFileTime K s2)) /\
                     tr = [Clock.EvGetSystemTimeAsFileTime time_now;
                           Clock.EvTimeGetTime ticks_now;
                           Clock.EvGetSystemTimeAsFileTime
                             (fst (Clock.GetSystemTimeAsFileTime K s2));
                           Clock.EvTimeGetTime
                             (fst (Clock.timeGetTime K
                                     (snd (Clock.GetSystemTimeAsFileTime K
                                             s2))))] /\
                     p' = Clock.mkProcess K
                            (snd (Clock.timeGetTime K
                                    (snd (Clock.GetSystemTimeAsFileTime K s2))))
                            true
                            (fst (Clock.GetSystemTimeAsFileTime K s2))
                            (fst (Clock.timeGetTime K
                                    (snd (Clock.GetSystemTimeAsFileTime K
                                            s2))))) /\
                    Clock.statics_in_range p' /\
                    Clock.initialized p' = true)).
  { unfold Clock.SetToCurrentTime.
    apply post_bind, post_get_statics. cbv iota beta.
    apply post_bind, post_call_GetSystemTimeAsFileTime. intros r s Hr.
    rewrite Htime in Hr. injection Hr as <- <-.
    apply post_bind, post_call_timeGetTime. intros r s Hr.
    cbn [Clock.os] in Hr. rewrite Htick in Hr. injection Hr as <- <-.
    rewrite Htest. clear Htest.
    apply post_bind.
    destruct (Clock.resyncs p time_now ticks_now) eqn:Hre.
    - apply post_bind, post_call_GetSystemTimeAsFileTime. intros time2 s3 Ht2.
      cbn [Clock.os] in Ht2. rewrite Ht2 in Htime2, Htick2 |- *.
      cbn [fst snd] in Htime2, Htick2 |- *.
      apply post_bind, post_call_timeGetTime. intros ticks2 s4 Hk2.
      cbn [Clock.os] in Hk2. rewrite Hk2 in Htick2 |- *.
      cbn [fst snd] in Htick2 |- *.
      apply post_bind, post_set_statics. apply post_ret. cbv iota beta.
      apply post_ret.
      assert (Hres : Tz.wrap64 (time2 + Clock.wrap_DWORD (ticks2 - ticks2)
                                        * 10000) = time2).
      { rewrite Z.sub_diag. unfold Clock.wrap_DWORD.
        rewrite Z.mod_0_l by lia. rewrite Z.add_0_r.
        apply wrap64_small. unfold Tz.in_int64. lia. }
      rewrite Hres. cbn [app Clock.os Clock.initialized].
      split; [discriminate|]. split; [auto|]. split; [|reflexivity].
      split; assumption.
    - apply post_ret. cbv iota beta. apply post_ret.
      unfold Clock.resyncs in Hre.
      apply orb_false_elim in Hre. destruct Hre as [Hre _].
      apply orb_false_elim in Hre. destruct Hre as [Hre _].
      apply orb_false_elim in Hre. destruct Hre as [Hinit Hwrap].
      apply negb_false_iff in Hinit. apply Z.ltb_ge in Hwrap.
      destruct Hrange as [Hrange_time Hrange_ticks].
      assert (Hres : Tz.wrap64 (Clock.init_time p
                                + Clock.wrap_DWORD
                                    (ticks_now - Clock.init_ticks p) * 10000)
                     = Clock.init_time p
                       + (ticks_now - Clock.init_ticks p) * 10000).
      { unfold Clock.wrap_DWORD. rewrite Z.mod_small by lia.
        apply wrap64_small. unfold Tz.in_int64. lia. }
      rewrite Hres, Hinit. cbn [app Clock.os Clock.initialized].
      split; [auto|]. split; [discriminate|]. split; [|reflexivity].
      split; assumption. }
  unfold post in Hpost. destruct Hpost as (Hsteady & Hresync & Hin & Hinit).
  split; [intros Hre; apply run_is, Hsteady, Hre|].
  split; [intros Hre; apply run_is, Hresync, Hre|].
  split; assumption.
Qed.

(** A first call, and a second one 250 ms later by the ticks, while
    the system time has gone on by a second. *)
Lemma SetToCurrentTime_by_ticks_witness :
  out (Clock.SetToCurrentTime Clock.scripted
         (Clock.initial_process Clock.scripted
            [(133000000000000000, 1000); (133000000000000010, 1001);
             (133000000010000000, 1251)]%N))
  = Returned 133000000000000010 /\
  out (Clock.SetToCurrentTime Clock.scripted
         (Clock.mkProcess Clock.scripted [(133000000010000000, 1251)]%N
            true 133000000000000010 1001))
  = Returned 133000000002500010.
Proof.
  assert (Hticks : Clock.ticks_are_DWORDs Clock.scripted).
  { intros [|[time ticks] s]; cbn [Clock.timeGetTime Clock.scripted fst];
      [lia|]. apply Z.mod_pos_bound. lia. }
  assert (Htimes : Clock.times_are_FILETIMEs Clock.scripted).
  { intros [|[time ticks] s];
      cbn [Clock.GetSystemTimeAsFileTime Clock.scripted fst]; [lia|].
    apply Z.mod_pos_bound. lia. }
  split.
  - destruct (SetToCurrentTime_by_ticks Clock.scripted
                (Clock.initial_process Clock.scripted
                   [(133000000000000000, 1000); (133000000000000010, 1001);
                    (133000000010000000, 1251)]%N)
                133000000000000000
                [(133000000000000000, 1000); (133000000000000010, 1001);
                 (133000000010000000, 1251)]%N
                1000
                [(133000000000000010, 1001); (133000000010000000, 1251)]%N
                Hticks Htimes)
      as (_ & Hresync & _ & _).
    + split; cbn; lia.
    + reflexivity.
    + reflexivity.
    + rewrite (Hresync eq_refl). reflexivity.
  - destruct (SetToCurrentTime_by_ticks Clock.scripted
                (Clock.mkProcess Clock.scripted [(133000000010000000, 1251)]%N
                   true 133000000000000010 1001)
                133000000010000000
                [(133000000010000000, 1251)]%N
                1251
                []
                Hticks Htimes)
      as (Hsteady & _ & _ & _).
    + split; cbn; lia.
    + reflexivity.
    + reflexivity.
    + rewrite (Hsteady eq_refl). reflexivity.
Defined.

(** ** The books of the allocator *)

Section BalanceFacts.
Import VM VMMore.
Variable K : Win32.

Lemma granted_app (tr tr' : list event) :
  granted (tr ++ tr') = granted tr ++ granted tr'.
Proof. apply flat_map_app. Qed.

Lemma released_app (tr tr' : list event) :
  released (tr ++ tr') = released tr ++ released tr'.
Proof. apply flat_map_app. Qed.

Lemma granted_memory_events (tr : list event) :
  granted (memory_events tr) = granted tr.
Proof.
  induction tr as [|e tr IH]; [reflexivity|].
  destruct e; simpl; rewrite ?IH; reflexivity.
Qed.

Lemma released_memory_events (tr : list event) :
  released (memory_events tr) = released tr.
Proof.
  induction tr as [|e tr IH]; [reflexivity|].
  destruct e; simpl; rewrite ?IH; reflexivity.
Qed.

(** [RandomizedVirtualAlloc] releases nothing, and is granted what it
    returns. *)
Lemma RandomizedVirtualAlloc_balanced size flags protect hint (p : process K) :
  post (RandomizedVirtualAlloc K size flags protect hint) p
       (fun o tr _ =>
          exists v, o = Returned v /\ granted tr = held v /\ released tr = []).
Proof.
  eapply post_weaken; [apply RandomizedVirtualAlloc_post|].
  intros o tr p' (v & -> & _ & _ & Hshape).
  exists v. split; [reflexivity|].
  rewrite <- granted_memory_events, <- released_memory_events.
  unfold held.
  destruct Hshape as [(_ & Hv & ->)|[(_ & ->)|(_ & ->)]]; simpl;
    rewrite ?app_nil_r; auto.
Qed.

Lemma Allocate_loop_balanced size alignment padded_size flags protect hint n :
  forall base (p : process K),
    (n = O -> base = 0) ->
    post (Allocate_loop K n size alignment padded_size flags protect hint base)
         p (fun o tr _ => balanced o tr).
Proof.
  induction n as [|n IH]; intros base p Hbase.
  - apply post_ret. rewrite Hbase by reflexivity. reflexivity.
  - simpl. apply post_bind.
    eapply post_weaken; [apply RandomizedVirtualAlloc_balanced|].
    intros o tr p1 (v & -> & Hg & Hr).
    destruct (v =? 0) eqn:Hv0.
    + apply post_ret. cbv beta. rewrite (app_nil_r tr). simpl.
      rewrite Hg, Hr. unfold held. rewrite Hv0. reflexivity.
    + unfold held in Hg. rewrite Hv0 in Hg.
      apply post_bind, post_call_VirtualFree. intros ok s _.
      apply post_bind, post_CHECK; intros ->.
      2:{ cbv beta. exists v, tr. rewrite (app_nil_r [_]).
          rewrite granted_app, released_app, Hg, Hr. simpl. auto. }
      apply post_bind, post_call_VirtualAlloc. intros a s' _.
      destruct (a =? 0) eqn:Ha0; simpl.
      * eapply post_weaken; [apply IH; intros _; apply Z.eqb_eq, Ha0|].
        intros o tr' p' H. cbv beta in H |- *.
        assert (Hg' : granted (tr ++ EvVirtualFree v 0 MEM_RELEASE true
                                  :: EvVirtualAlloc (RoundUp v alignment)
                                       size flags protect a :: tr')
                      = v :: granted tr').
        { rewrite granted_app, Hg. simpl. rewrite Ha0. reflexivity. }
        assert (Hr' : released (tr ++ EvVirtualFree v 0 MEM_RELEASE true
                                   :: EvVirtualAlloc (RoundUp v alignment)
                                        size flags protect a :: tr')
                      = v :: released tr').
        { rewrite released_app, Hr. reflexivity. }
        destruct o as [r|]; simpl in H |- *.
        -- rewrite Hg', Hr', H. reflexivity.
        -- destruct H as (b & before & Hb & ->).
           exists b, (tr ++ EvVirtualFree v 0 MEM_RELEASE true
                         :: EvVirtualAlloc (RoundUp v alignment)
                              size flags protect a :: before).
           split; [|rewrite <- app_assoc; reflexivity].
           rewrite Hg', Hr', Hb. reflexivity.
      * apply post_ret. cbv beta. simpl.
        rewrite !granted_app, !released_app, Hg, Hr. simpl.
        unfold held. rewrite Ha0. reflexivity.
Qed.
End BalanceFacts.

(** X10.  [Allocate] leaks nothing and releases nothing that is not its
    own: in every run that returns, the regions it released, whole and in
    order, are the regions the OS granted it, but for the one it returns
    (none when it returns null); a run that aborts ends on the refused
    release of the one region it still held. *)
Theorem Allocate_leaks_nothing :
  forall (K : VM.Win32) hint size alignment access (p : VM.process K),
    VMMore.balanced (out (VM.Allocate K hint size alignment access p))
                    (trace (VM.Allocate K hint size alignment access p)).
Proof.
  intros K hint size alignment access p.
  change (post (VM.Allocate K hint size alignment access) p
               (fun o tr _ => VMMore.balanced o tr)).
  unfold VM.Allocate. apply post_bind.
  eapply post_weaken; [apply RandomizedVirtualAlloc_balanced|].
  intros o tr p1 (v & -> & Hg & Hr).
  destruct (v =? 0) eqn:Hv0.
  { apply post_ret. cbv beta. rewrite (app_nil_r tr). simpl.
    rewrite Hg, Hr. unfold VMMore.held. rewrite Hv0. reflexivity. }
  destruct (v =? RoundUp v alignment).
  { apply post_ret. cbv beta. rewrite (app_nil_r tr). simpl.
    rewrite Hg, Hr. reflexivity. }
  unfold VMMore.held in Hg. rewrite Hv0 in Hg.
  apply post_bind, post_call_VirtualFree. intros ok s _.
  apply post_bind, post_CHECK; intros ->.
  2:{ cbv beta. exists v, tr. rewrite (app_nil_r [_]).
      rewrite granted_app, released_app, Hg, Hr. simpl. auto. }
  eapply post_weaken; [apply Allocate_loop_balanced; discriminate|].
  intros o tr' p' H. cbv beta in H |- *.
  assert (Hg' : VMMore.granted (tr ++ VM.EvVirtualFree v 0 VM.MEM_RELEASE true
                                   :: tr')
                = v :: VMMore.granted tr').
  { rewrite granted_app, Hg. reflexivity. }
  assert (Hr' : VMMore.released (tr ++ VM.EvVirtualFree v 0 VM.MEM_RELEASE true
                                    :: tr')
                = v :: VMMore.released tr').
  { rewrite released_app, Hr. reflexivity. }
  destruct o as [r|]; simpl in H |- *.
  - rewrite Hg', Hr', H. reflexivity.
  - destruct H as (b & before & Hb & ->).
    exists b, (tr ++ VM.EvVirtualFree v 0 VM.MEM_RELEASE true :: before).
    split; [|rewrite <- app_assoc; reflexivity].
    rewrite Hg', Hr', Hb. reflexivity.
Qed.

(** ** Discarding pages *)



(** X12.  Once the lookup is settled, [DiscardSystemPages] discards by
    [DiscardVirtualMemory] when Kernel32 has it, and that is all it does
    when the call succeeds; when the function is missing, or fails, it
    falls back on one [MEM_RESET] request for the same pages. *)
Theorem DiscardSystemPages_falls_back :
  forall (K : VM.Win32) address size (p : VM.process K),
    VM.discard_virtual_memory p <> -1 ->
    (VM.discard_virtual_memory p = 0 ->
     trace (VM.DiscardSystemPages K address size p)
     = [VM.EvVirtualAlloc address size VM.MEM_RESET VM.PAGE_READWRITE
          (fst (VM.VirtualAlloc K address size VM.MEM_RESET VM.PAGE_READWRITE
                  (VM.os p)))]) /\
    (VM.discard_virtual_memory p <> 0 ->
     fst (VM.DiscardVirtualMemory K address size (VM.os p)) = 0 ->
     out (VM.DiscardSystemPages K address size p) = Returned true /\
     trace (VM.DiscardSystemPages K address size p)
     = [VM.EvDiscardVirtualMemory address size 0]) /\
    (VM.discard_virtual_memory p <> 0 ->
     fst (VM.DiscardVirtualMemory K address size (VM.os p)) <> 0 ->
     trace (VM.DiscardSystemPages K address size p)
     = [VM.EvDiscardVirtualMemory address size
          (fst (VM.DiscardVirtualMemory K address size (VM.os p)));
        VM.EvVirtualAlloc address size VM.MEM_RESET VM.PAGE_READWRITE
          (fst (VM.VirtualAlloc K address size VM.MEM_RESET VM.PAGE_READWRITE
                  (snd (VM.DiscardVirtualMemory K address size (VM.os p)))))]).
Proof.
  intros K address size p Hsettled.
  apply Z.eqb_neq in Hsettled.
  unfold VM.DiscardSystemPages, bind, VM.get_discard_virtual_memory,
    VM.set_discard_virtual_memory, VM.call_GetProcAddress,
    VM.call_DiscardVirtualMemory, VM.call_VirtualAlloc, CHECK, ret.
  cbn [out trace final VM.os VM.discard_virtual_memory].
  rewrite Hsettled. cbn [out trace final VM.os VM.discard_virtual_memory].
  destruct (Z.eqb_spec (VM.discard_virtual_memory p) 0) as [Hd | Hd];
    cbn [negb out trace final VM.os VM.discard_virtual_memory].
  - split; [|split; intros; contradiction]. intros _.
    destruct (VM.VirtualAlloc K address size VM.MEM_RESET VM.PAGE_READWRITE
                (VM.os p)) as [ptr s].
    cbn [out trace final fst]. destruct (ptr =? 0); reflexivity.
  - split; [intros; contradiction|].
    destruct (VM.DiscardVirtualMemory K address size (VM.os p)) as [r s].
    cbn [out trace final fst snd VM.os VM.discard_virtual_memory].
    destruct (Z.eqb_spec r 0) as [-> | Hr];
      cbn [out trace final VM.os VM.discard_virtual_memory].
    + split; [intros; split; reflexivity | intros; contradiction].
    + split; [intros; contradiction|]. intros _ _.
      destruct (VM.VirtualAlloc K address size VM.MEM_RESET VM.PAGE_READWRITE
                  s) as [ptr s'].
      cbn [out trace final fst]. destruct (ptr =? 0); reflexivity.
Qed.

(** The first call fails in [DiscardVirtualMemory] and falls back; the
    second succeeds. *)
Lemma DiscardSystemPages_falls_back_witness :
  trace (VM.DiscardSystemPages VMMore.discarding 0x20000 0x1000
           (VM.mkProcess VMMore.discarding 0%nat 1 0x7FFA0000))
  = [VM.EvDiscardVirtualMemory 0x20000 0x1000 87;
     VM.EvVirtualAlloc 0x20000 0x1000 VM.MEM_RESET VM.PAGE_READWRITE 0x20000] /\
  trace (VM.DiscardSystemPages VMMore.discarding 0x20000 0x1000
           (VM.mkProcess VMMore.discarding 1%nat 1 0x7FFA0000))
  = [VM.EvDiscardVirtualMemory 0x20000 0x1000 0].
Proof.
  split.
  - refine (proj2 (proj2 (DiscardSystemPages_falls_back
                            VMMore.discarding 0x20000 0x1000
                            (VM.mkProcess VMMore.discarding 0%nat 1 0x7FFA0000)
                            _)) _ _); discriminate.
  - refine (proj2 (proj1 (proj2 (DiscardSystemPages_falls_back
                                   VMMore.discarding 0x20000 0x1000
                                   (VM.mkProcess VMMore.discarding 1%nat 1
                                      0x7FFA0000)
                                   _)) _ _)); try discriminate; reflexivity.
Defined.

(** ** Random addresses *)

Section RandomFacts.
Import Random.

Lemma land_within_mask x mask : 0 <= mask -> 0 <= Z.land x mask <= mask.
Proof.
  intros Hmask. split; [apply Z.land_nonneg; auto|].
  assert (Hdisjoint : Z.land (Z.ldiff mask x) (Z.land mask x) = 0).
  { apply Z.bits_inj'. intros n _.
    rewrite !Z.land_spec, Z.ldiff_spec, Z.bits_0.
    destruct (Z.testbit mask n), (Z.testbit x n); reflexivity. }
  pose proof (Z.add_nocarry_lxor _ _ Hdisjoint) as Hsum.
  rewrite (Z.lxor_lor _ _ Hdisjoint), Z.lor_ldiff_and in Hsum.
  assert (0 <= Z.ldiff mask x) by (apply Z.ldiff_nonneg; auto).
  rewrite (Z.land_comm x mask). lia.
Qed.

Lemma land_mask_low_bits x mask n :
  0 <= n -> Z.land mask (Z.ones n) = 0 -> Z.land x mask mod 2 ^ n = 0.
Proof.
  intros Hn Hlow.
  rewrite <- Z.land_ones, <- Z.land_assoc, Hlow by exact Hn.
  apply Z.land_0_r.
Qed.
End RandomFacts.

(** X13.  Whatever the random number generator gives and whatever the
    page size, the address of [GetRandomMmapAddr] is a multiple of 64 KiB
    that is not above [kAllocationRandomAddressMax]: the mask sees to
    both.  (Nothing keeps it above [kAllocationRandomAddressMin].) *)
Theorem GetRandomMmapAddr_in_mask :
  forall (K : Random.Win32) (s : Random.rng_state K),
  exists address,
    out (Random.GetRandomMmapAddr K s) = Returned address /\
    0 <= address <= Random.kAllocationRandomAddressMax K /\
    address mod 0x10000 = 0.
Proof.
  intros K s.
  unfold Random.GetRandomMmapAddr, bind, Random.call_NextBytes, ret.
  destruct (Random.NextBytes K s) as [r s']. cbn [out trace final].
  eexists. split; [reflexivity|]. split.
  - apply land_within_mask. unfold Random.kAllocationRandomAddressMax.
    destruct (Random.V8_HOST_ARCH_64_BIT K); discriminate.
  - apply (land_mask_low_bits _ _ 16); [discriminate|].
    unfold Random.kAllocationRandomAddressMax.
    destruct (Random.V8_HOST_ARCH_64_BIT K); reflexivity.
Qed.

(** The address can be below the minimum, and null: with pages of
    2^18 bytes on a 64-bit host, the random number 2^24 - 2^13 is shifted
    to 2^42 - 2^31, which the minimum brings to 2^42, past the mask. *)
Example GetRandomMmapAddr_below_the_minimum :
  out (Random.GetRandomMmapAddr (Random.scripted true 18) [16769024])
  = Returned 0.
Proof. reflexivity. Qed.

(** ** The life of a mapped file *)

Section LifeFacts.
Import MappedFile MappedFileMore.
Variable K : Win32.

(** The run of the destructor, call by call. *)
Ltac run_destructor :=
  unfold destroy, bind, call_UnmapViewOfFile, call_CloseHandle, ret;
  cbn [memory_ file_mapping_ file_ negb out trace final];
  repeat match goal with
         | |- context [UnmapViewOfFile K ?m ?s] =>
             destruct (UnmapViewOfFile K m s); cbn [out trace final]
         | |- context [CloseHandle K ?h ?s] =>
             destruct (CloseHandle K h s); cbn [out trace final]
         end.

Lemma destroy_releases f (s : os_state K) :
  releases (trace (destroy K f s))
  = (if memory_ f =? 0 then [] else [View (memory_ f)])
    ++ (if file_mapping_ f =? 0 then [] else [Handle (file_mapping_ f)])
    ++ [Handle (file_ f)].
Proof.
  destruct f as [file mapping view sz]. cbn [memory_ file_mapping_ file_].
  run_destructor.
  destruct (view =? 0); cbn [negb]; run_destructor;
    destruct (mapping =? 0); cbn [negb]; run_destructor; reflexivity.
Qed.

Lemma open_acquisitions name mode (s : os_state K) f :
  out (open K name mode s) = Returned (Some f) ->
  acquisitions (trace (open K name mode s))
  = [Handle (file_ f)]
    ++ (if file_mapping_ f =? 0 then [] else [Handle (file_mapping_ f)])
    ++ (if memory_ f =? 0 then [] else [View (memory_ f)]).
Proof.
  unfold open, bind, call_CreateFileA, call_GetFileSize,
    call_CreateFileMapping, call_MapViewOfFile, ret.
  destruct (CreateFileA K name _ _ _ s) as [file s1]. cbn [out trace final].
  destruct (file =? INVALID_HANDLE_VALUE) eqn:Hfile; cbn [out trace final];
    [discriminate|].
  destruct (GetFileSize K file s1) as [sz s2]. cbn [out trace final].
  destruct (sz =? 0) eqn:Hsz; cbn [out trace final].
  { intros [= <-]. cbn. rewrite Hfile. reflexivity. }
  destruct (CreateFileMapping K file _ 0 sz s2) as [mapping s3].
  cbn [out trace final].
  destruct (mapping =? 0) eqn:Hmap; cbn [out trace final]; [discriminate|].
  destruct (MapViewOfFile K mapping _ sz s3) as [view s4].
  cbn [out trace final]. intros [= <-]. cbn. rewrite Hfile, Hmap.
  destruct (view =? 0); reflexivity.
Qed.

Lemma create_acquisitions name size initial (s : os_state K) f :
  out (create K name size initial s) = Returned (Some f) ->
  existsb opened_file (trace (create K name size initial s)) = true ->
  acquisitions (trace (create K name size initial s))
  = [Handle (file_ f)]
    ++ (if file_mapping_ f =? 0 then [] else [Handle (file_mapping_ f)])
    ++ (if memory_ f =? 0 then [] else [View (memory_ f)]).
Proof.
  unfold create, bind, call_CreateFileA, call_CreateFileMapping,
    call_MapViewOfFile, call_memmove, ret.
  destruct (CreateFileA K name _ _ _ s) as [file s1]. cbn [out trace final].
  destruct (file =? 0) eqn:Hnull; cbn [out trace final]; [discriminate|].
  destruct (size =? 0) eqn:Hsz; cbn [out trace final].
  { intros [= <-]. cbn. rewrite Hnull, orb_false_r, andb_true_r.
    intros Hfile. apply negb_true_iff in Hfile. rewrite Hfile. reflexivity. }
  destruct (CreateFileMapping K file _ 0 _ s1) as [mapping s2].
  cbn [out trace final].
  destruct (mapping =? 0) eqn:Hmap; cbn [out trace final]; [discriminate|].
  destruct (MapViewOfFile K mapping _ size s2) as [view s3].
  cbn [out trace final].
  destruct (view =? 0) eqn:Hview; cbn [negb out trace final];
    intros [= <-]; cbn; rewrite Hnull, Hmap, Hview, ?orb_false_r, ?andb_true_r;
    intros Hfile; apply negb_true_iff in Hfile; rewrite Hfile; reflexivity.
Qed.
End LifeFacts.

(** X14.  The destructor of an object that [open] returned gives back
    all that [open] acquired, each handle and view once, in the reverse
    order of their acquisition: the view, the mapping object, the file.
    The same holds of an object that [create] returned for a file it
    opened. *)
Theorem destructor_releases_all_that_was_acquired :
  forall (K : MappedFile.Win32) name mode size initial
         (s s' : MappedFile.os_state K),
    (forall f,
        out (MappedFile.open K name mode s) = Returned (Some f) ->
        MappedFileMore.releases (trace (MappedFile.destroy K f s'))
        = rev (MappedFileMore.acquisitions
                 (trace (MappedFile.open K name mode s)))) /\
    (forall f,
        out (MappedFile.create K name size initial s) = Returned (Some f) ->
        existsb MappedFile.opened_file
                (trace (MappedFile.create K name size initial s)) = true ->
        MappedFileMore.releases (trace (MappedFile.destroy K f s'))
        = rev (MappedFileMore.acquisitions
                 (trace (MappedFile.create K name size initial s)))).
Proof.
  intros K name mode size initial s s'. split.
  - intros f Hopen.
    rewrite (open_acquisitions K name mode s f Hopen), destroy_releases.
    destruct (MappedFile.memory_ f =? 0), (MappedFile.file_mapping_ f =? 0);
      reflexivity.
  - intros f Hcreate Hopened.
    rewrite (create_acquisitions K name size initial s f Hcreate Hopened),
      destroy_releases.
    destruct (MappedFile.memory_ f =? 0), (MappedFile.file_mapping_ f =? 0);
      reflexivity.
Qed.

(** A file of 100 bytes, mapped at 0x50000. *)
Lemma destructor_releases_all_that_was_acquired_witness :
  out (MappedFile.open MappedFile.scripted "snapshot.bin"
         MappedFile.kReadOnly [7; 100; 9; 0x50000])
  = Returned (Some (MappedFile.mkFile 7 9 0x50000 100)) /\
  MappedFileMore.releases
    (trace (MappedFile.destroy MappedFile.scripted
              (MappedFile.mkFile 7 9 0x50000 100) []))
  = [MappedFileMore.View 0x50000; MappedFileMore.Handle 9;
     MappedFileMore.Handle 7].
Proof.
  split; [reflexivity|].
  exact (proj1 (destructor_releases_all_that_was_acquired
                  MappedFile.scripted "snapshot.bin" MappedFile.kReadOnly
                  0 0 [7; 100; 9; 0x50000] [])
               (MappedFile.mkFile 7 9 0x50000 100) eq_refl).
Defined.

(** X15.  [open] and [create] release nothing.  So where the mapping
    object cannot be created, they return null and the file stays open:
    when [open] has seen [CreateFileMapping] fail, and [create] likewise
    on a file it opened, the handle of the file is all the run acquired,
    none of it is given back, and no object is returned whose destructor
    would. *)
Theorem failed_mapping_leaves_the_file_open :
  forall (K : MappedFile.Win32) name mode size initial
         (s : MappedFile.os_state K),
    (existsb MappedFile.failed_mapping
             (trace (MappedFile.open K name mode s)) = true ->
     out (MappedFile.open K name mode s) = Returned None /\
     MappedFileMore.releases (trace (MappedFile.open K name mode s)) = [] /\
     exists file,
       file <> MappedFile.INVALID_HANDLE_VALUE /\
       MappedFileMore.acquisitions (trace (MappedFile.open K name mode s))
       = [MappedFileMore.Handle file]) /\
    (existsb MappedFile.failed_mapping
             (trace (MappedFile.create K name size initial s)) = true ->
     existsb MappedFile.opened_file
             (trace (MappedFile.create K name size initial s)) = true ->
     out (MappedFile.create K name size initial s) = Returned None /\
     MappedFileMore.releases (trace (MappedFile.create K name size initial s))
     = [] /\
     exists file,
       file <> MappedFile.INVALID_HANDLE_VALUE /\
       MappedFileMore.acquisitions
         (trace (MappedFile.create K name size initial s))
       = [MappedFileMore.Handle file]).
Proof.
  intros K name mode size initial s. split.
  - unfold MappedFile.open, bind, MappedFile.call_CreateFileA,
      MappedFile.call_GetFileSize, MappedFile.call_CreateFileMapping,
      MappedFile.call_MapViewOfFile, ret.
    destruct (MappedFile.CreateFileA K name _ _ _ s) as [file s1].
    cbn [out trace final].
    destruct (file =? MappedFile.INVALID_HANDLE_VALUE) eqn:Hfile;
      cbn [out trace final]; [discriminate|].
    destruct (MappedFile.GetFileSize K file s1) as [sz s2].
    cbn [out trace final].
    destruct (sz =? 0) eqn:Hsz; cbn [out trace final]; [discriminate|].
    destruct (MappedFile.CreateFileMapping K file _ 0 sz s2) as [mapping s3].
    cbn [out trace final].
    destruct (mapping =? 0) eqn:Hmap; cbn [out trace final].
    + intros _. cbn. rewrite Hfile, Hmap. repeat split.
      exists file. split; [apply Z.eqb_neq, Hfile | reflexivity].
    + destruct (MappedFile.MapViewOfFile K mapping _ sz s3) as [view s4].
      cbn. rewrite Hmap. discriminate.
  - unfold MappedFile.create, bind, MappedFile.call_CreateFileA,
      MappedFile.call_CreateFileMapping, MappedFile.call_MapViewOfFile,
      MappedFile.call_memmove, ret.
    destruct (MappedFile.CreateFileA K name _ _ _ s) as [file s1].
    cbn [out trace final].
    destruct (file =? 0) eqn:Hnull; cbn [out trace final]; [discriminate|].
    destruct (size =? 0) eqn:Hsz; cbn [out trace final]; [discriminate|].
    destruct (MappedFile.CreateFileMapping K file _ 0 _ s1) as [mapping s2].
    cbn [out trace final].
    destruct (mapping =? 0) eqn:Hmap; cbn [out trace final].
    + intros _. cbn. rewrite Hmap, Hnull, ?orb_false_r, ?andb_true_r.
      intros Hfile. apply negb_true_iff in Hfile. rewrite Hfile.
      repeat split.
      exists file. split; [apply Z.eqb_neq, Hfile | reflexivity].
    + destruct (MappedFile.MapViewOfFile K mapping _ size s2) as [view s3].
      cbn [out trace final].
      destruct (view =? 0); cbn; rewrite Hmap; discriminate.
Qed.

(** The file opens with handle 7 and holds 100 bytes; no mapping object
    is to be had. *)
Lemma failed_mapping_leaves_the_file_open_witness :
  existsb MappedFile.failed_mapping
          (trace (MappedFile.open MappedFile.scripted "snapshot.bin"
                    MappedFile.kReadOnly [7; 100; 0])) = true /\
  out (MappedFile.open MappedFile.scripted "snapshot.bin"
         MappedFile.kReadOnly [7; 100; 0]) = Returned None /\
  MappedFileMore.releases
    (trace (MappedFile.open MappedFile.scripted "snapshot.bin"
              MappedFile.kReadOnly [7; 100; 0])) = [].
Proof.
  split; [reflexivity|].
  destruct (proj1 (failed_mapping_leaves_the_file_open
                     MappedFile.scripted "snapshot.bin" MappedFile.kReadOnly
                     0 0 [7; 100; 0]) eq_refl)
    as (Hout & Hreleases & _).
  split; [exact Hout | exact Hreleases].
Defined.

(** ** The walk over the modules *)

Section WalkFacts.
Import Symbols SymbolsMore.
Variable K : Win32.

Lemma walked_app (tr tr' : list event) :
  walked (tr ++ tr') = walked tr ++ walked tr'.
Proof. apply flat_map_app. Qed.

(** Reading the walk off a trace that is put together from parts. *)
Ltac read_walk :=
  unfold walked in *;
  repeat first [progress cbn [flat_map app] | rewrite flat_map_app].

Lemma LOAD_DLL_FUNCS_walked module names : forall (p : process K),
  post (LOAD_DLL_FUNCS K module names) p
       (fun o tr p' =>
          o = Returned tt /\ walked tr = [] /\
          symbols_loaded p' = symbols_loaded p /\ result p' = result p).
Proof.
  induction names as [|name names IH]; intros p.
  - apply post_ret. auto.
  - simpl. apply post_bind, post_os_call. intros f s _.
    apply post_bind, post_get. apply post_bind, post_put.
    eapply post_weaken; [apply IH|].
    intros o tr p' (-> & Hw & Hs & Hr). cbn [set_dll_funcs with_os
      symbols_loaded result] in *. read_walk. rewrite Hw. auto.
Qed.

Lemma LoadDbgHelpAndTlHelp32_walked (p : process K) :
  post (LoadDbgHelpAndTlHelp32 K) p
       (fun o tr p' =>
          exists b, o = Returned b /\ walked tr = [] /\
                    symbols_loaded p' = symbols_loaded p /\
                    result p' = result p).
Proof.
  unfold LoadDbgHelpAndTlHelp32.
  apply post_bind, post_get.
  destruct (dbghelp_loaded p).
  - apply post_ret. exists true. auto.
  - apply post_bind, post_os_call. intros module s _.
    destruct (module =? 0)%Z.
    + apply post_ret. exists false. cbn. auto.
    + apply post_bind.
      eapply post_weaken; [apply LOAD_DLL_FUNCS_walked|].
      intros o tr p1 (-> & Hw1 & Hs1 & Hr1).
      apply post_bind, post_os_call. intros module' s' _.
      destruct (module' =? 0)%Z.
      * apply post_ret. exists false.
        cbn [with_os symbols_loaded result] in *. read_walk.
        rewrite Hw1. cbn [app]. auto.
      * apply post_bind.
        eapply post_weaken; [apply LOAD_DLL_FUNCS_walked|].
        intros o tr' p2 (-> & Hw2 & Hs2 & Hr2).
        apply post_bind, post_get. apply post_bind, post_put.
        apply post_ret. eexists.
        cbn [with_os set_dbghelp_loaded symbols_loaded result] in *. read_walk.
        rewrite Hw1, Hw2, Hs2, Hr2. cbn [app].
        rewrite Hs1, Hr1. auto.
Qed.

(** The loop either runs to the end, and has then pushed the entry of
    every module of the snapshot, or stops at a module whose symbols
    failed to load for another reason than its not being found, and has
    then cleared the result. *)
Lemma LoadSymbols_loop_walked process_handle snapshot entries :
  forall first (p : process K),
    post (LoadSymbols_loop K process_handle snapshot first entries) p
         (fun o tr p' =>
            symbols_loaded p' = symbols_loaded p /\
            ((o = Returned true /\
              result p' = (result p ++ map (address_of K) (walked tr))%list) \/
             (o = Returned false /\ result p' = []))).
Proof.
  induction entries as [|e entries IH]; intros first p.
  - simpl. apply post_bind, post_os_call. intros r s Hr.
    apply post_ret. injection Hr as <- <-. cbn.
    destruct first; cbn; rewrite app_nil_r; auto.
  - simpl. apply post_bind, post_os_call. intros r s Hr.
    injection Hr as <- <-.
    apply post_bind, post_os_call. intros base s' _.
    apply post_bind.
    eapply post_weaken
      with (Q := fun o tr p' =>
                   (exists stop : bool, o = Returned stop) /\ tr = [] /\
                   p' = with_os K (with_os K p (os p)) s').
    { destruct (base =? 0)%Z; [apply post_bind, post_get|]; apply post_ret;
        split; eauto. }
    intros o tr p' ((stop & ->) & -> & ->). destruct stop.
    + apply post_bind, post_put. apply post_ret. cbn. auto.
    + apply post_bind, post_get. apply post_bind, post_put.
      eapply post_weaken; [apply IH|].
      intros o tr' p' (Hs & H). cbn in Hs, H |- *. split; [exact Hs|].
      destruct H as [(-> & Hres) | (-> & Hres)]; [left | right; auto].
      split; [reflexivity|]. rewrite Hres, <- app_assoc.
      destruct first; cbn; reflexivity.
Qed.

Lemma LoadSymbols_walked process_handle (p : process K) :
  nothing_yet p ->
  post (LoadSymbols K process_handle) p
       (fun o tr p' =>
          o = Returned (result p') /\
          result p'
          = if symbols_loaded p' then map (address_of K) (walked tr) else []).
Proof.
  intros [Hloaded Hresult]. unfold LoadSymbols.
  apply post_bind, post_get. rewrite Hloaded.
  apply post_bind, post_os_call. intros ok s _.
  destruct ok; cbn [negb].
  2:{ apply post_get. cbn. rewrite Hloaded. auto. }
  apply post_bind, post_os_call. intros options s1 _.
  apply post_bind, post_os_call. intros options' s2 _.
  apply post_bind, post_os_call. intros ok s3 _.
  destruct ok; cbn [negb].
  2:{ apply post_bind, post_get. apply post_bind, post_os_call. intros [] s4 _.
      apply post_get. cbn. rewrite Hloaded. auto. }
  apply post_bind, post_os_call. intros [snapshot entries] s4 _.
  cbn [fst snd].
  destruct (snapshot =? INVALID_HANDLE_VALUE)%Z.
  { apply post_get. cbn. rewrite Hloaded. auto. }
  apply post_bind.
  eapply post_weaken; [apply LoadSymbols_loop_walked|].
  intros o tr p1 (Hs & H). cbn in Hs, H.
  destruct H as [(-> & Hres) | (-> & Hres)].
  - apply post_bind, post_os_call. intros r s5 _.
    apply post_bind, post_put. apply post_get. cbn.
    split; [reflexivity|]. rewrite Hres, Hresult.
    rewrite !walked_app. cbn. rewrite app_nil_r. reflexivity.
  - apply post_get. rewrite Hs, Hloaded. auto.
Qed.
(** The loop runs to the end exactly when every module loads its
    symbols or fails with one of the two errors that are passed over. *)
Lemma LoadSymbols_loop_goes_through process_handle snapshot entries :
  forall first (p : process K),
    post (LoadSymbols_loop K process_handle snapshot first entries) p
         (fun o tr p' =>
            o = Returned (walk_goes_through K process_handle entries (os p)) /\
            symbols_loaded p' = symbols_loaded p /\
            result p'
            = if walk_goes_through K process_handle entries (os p)
              then (result p ++ map (address_of K) entries)%list
              else []).
Proof.
  induction entries as [|e entries IH]; intros first p.
  - simpl. apply post_bind, post_os_call. intros r s Hr.
    apply post_ret. injection Hr as <- <-. cbn.
    rewrite app_nil_r. auto.
  - cbn [LoadSymbols_loop walk_goes_through].
    apply post_bind, post_os_call. intros r s Hr.
    injection Hr as <- <-.
    apply post_bind, post_os_call. intros base s' Hload.
    cbn [with_os os] in Hload. rewrite Hload.
    apply post_bind.
    destruct (base =? 0)%Z; cbn [negb orb].
    + apply post_bind, post_get. apply post_ret.
      cbn [with_os os].
      destruct (GetLastError K s' =? ERROR_MOD_NOT_FOUND)%Z;
        cbn [negb andb orb].
      * apply post_bind, post_get. apply post_bind, post_put.
        eapply post_weaken; [apply IH|].
        intros o tr' p' (-> & Hs & Hres).
        cbn [set_result with_os os symbols_loaded result] in Hs, Hres |- *.
        split; [reflexivity|]. split; [exact Hs|].
        rewrite Hres.
        destruct (walk_goes_through K process_handle entries s');
          [rewrite <- app_assoc|]; reflexivity.
      * destruct (GetLastError K s' =? ERROR_INVALID_HANDLE)%Z;
          cbn [negb andb orb].
        -- apply post_bind, post_get. apply post_bind, post_put.
           eapply post_weaken; [apply IH|].
           intros o tr' p' (-> & Hs & Hres).
           cbn [set_result with_os os symbols_loaded result] in Hs, Hres |- *.
           split; [reflexivity|]. split; [exact Hs|].
           rewrite Hres.
           destruct (walk_goes_through K process_handle entries s');
             [rewrite <- app_assoc|]; reflexivity.
        -- apply post_bind, post_put. apply post_ret. cbn. auto.
    + apply post_ret.
      apply post_bind, post_get. apply post_bind, post_put.
      eapply post_weaken; [apply IH|].
      intros o tr' p' (-> & Hs & Hres).
      cbn [set_result with_os os symbols_loaded result] in Hs, Hres |- *.
      split; [reflexivity|]. split; [exact Hs|].
      rewrite Hres.
      destruct (walk_goes_through K process_handle entries s');
        [rewrite <- app_assoc|]; reflexivity.
Qed.

(** [LoadSymbols] where the symbol engine starts and the snapshot is
    taken: the table is that of all the modules of the snapshot when the
    walk goes through, and empty when it does not. *)
Lemma LoadSymbols_goes_through process_handle (p : process K)
      s1 options s2 options' s3 s4 snapshot entries s5 :
  nothing_yet p ->
  SymInitialize K process_handle (os p) = (true, s1) ->
  SymGetOptions K s1 = (options, s2) ->
  SymSetOptions K (Z.lor (Z.lor options SYMOPT_LOAD_LINES)
                         SYMOPT_FAIL_CRITICAL_ERRORS) s2 = (options', s3) ->
  SymGetSearchPath K process_handle (kStackWalkMaxNameLen K) s3 = (true, s4) ->
  CreateToolhelp32Snapshot K TH32CS_SNAPMODULE (GetCurrentProcessId K) s4
  = ((snapshot, entries), s5) ->
  snapshot <> INVALID_HANDLE_VALUE ->
  post (LoadSymbols K process_handle) p
       (fun o tr p' =>
          o = Returned (if walk_goes_through K process_handle entries s5
                        then map (address_of K) entries else []) /\
          symbols_loaded p' = walk_goes_through K process_handle entries s5).
Proof.
  intros [Hloaded Hresult] Hinit Hget Hset Hpath Hsnap Hvalid.
  unfold LoadSymbols.
  apply post_bind, post_get. rewrite Hloaded.
  apply post_bind, post_os_call. intros ok s Hcall.
  rewrite Hinit in Hcall. injection Hcall as <- <-. cbn [negb].
  apply post_bind, post_os_call. intros o1 s Hcall.
  cbn [with_os os] in Hcall. rewrite Hget in Hcall. injection Hcall as <- <-.
  apply post_bind, post_os_call. intros o2 s Hcall.
  cbn [with_os os] in Hcall. rewrite Hset in Hcall. injection Hcall as <- <-.
  apply post_bind, post_os_call. intros ok s Hcall.
  cbn [with_os os] in Hcall. rewrite Hpath in Hcall. injection Hcall as <- <-.
  cbn [negb].
  apply post_bind, post_os_call. intros snap s Hcall.
  cbn [with_os os] in Hcall. rewrite Hsnap in Hcall. injection Hcall as <- <-.
  cbn [fst snd].
  apply Z.eqb_neq in Hvalid. rewrite Hvalid.
  apply post_bind.
  eapply post_weaken; [apply LoadSymbols_loop_goes_through|].
  intros o tr p1 (-> & Hs & Hres).
  cbn [with_os os symbols_loaded result] in Hs, Hres |- *.
  rewrite Hresult in Hres. cbn [app] in Hres.
  destruct (walk_goes_through K process_handle entries s5).
  - apply post_bind, post_os_call. intros r s6 _.
    apply post_bind, post_put. apply post_get.
    cbn [set_symbols_loaded with_os symbols_loaded result].
    rewrite Hres. auto.
  - apply post_get. rewrite Hres, Hs, Hloaded. auto.
Qed.
End WalkFacts.

(** X16.  The table of shared libraries is all or nothing.  Started in
    a process that has no addresses yet, [GetSharedLibraryAddresses]
    returns an entry for every module that the walk over the snapshot
    delivered, in that order, each with the path, the base and the end
    (base plus size) of its module; or, where anything failed before the
    walk was through, the empty table, with nothing kept of the modules
    already walked.  Only the full table is remembered.  And where the
    libraries load, the symbol engine starts and the snapshot is taken,
    the walk goes through, and the table is that of all the modules of
    the snapshot, exactly when every module either loads its symbols or
    fails to with the error of a module that is not found or of an
    invalid handle; any other error empties the table. *)
Theorem GetSharedLibraryAddresses_all_or_nothing :
  forall (K : Symbols.Win32) (p : Symbols.process K),
    SymbolsMore.nothing_yet p ->
    out (Symbols.GetSharedLibraryAddresses K p)
    = Returned
        (if Symbols.symbols_loaded
              (final (Symbols.GetSharedLibraryAddresses K p))
         then map (SymbolsMore.address_of K)
                  (SymbolsMore.walked
                     (trace (Symbols.GetSharedLibraryAddresses K p)))
         else []) /\
    (Symbols.symbols_loaded (final (Symbols.GetSharedLibraryAddresses K p))
     = false ->
     SymbolsMore.nothing_yet (final (Symbols.GetSharedLibraryAddresses K p))) /\
    (forall s1 options s2 options' s3 s4 snapshot entries s5,
        out (Symbols.LoadDbgHelpAndTlHelp32 K p) = Returned true ->
        Symbols.SymInitialize K (Symbols.GetCurrentProcess K)
          (Symbols.os (final (Symbols.LoadDbgHelpAndTlHelp32 K p)))
        = (true, s1) ->
        Symbols.SymGetOptions K s1 = (options, s2) ->
        Symbols.SymSetOptions K
          (Z.lor (Z.lor options Symbols.SYMOPT_LOAD_LINES)
                 Symbols.SYMOPT_FAIL_CRITICAL_ERRORS) s2
        = (options', s3) ->
        Symbols.SymGetSearchPath K (Symbols.GetCurrentProcess K)
          (Symbols.kStackWalkMaxNameLen K) s3
        = (true, s4) ->
        Symbols.CreateToolhelp32Snapshot K Symbols.TH32CS_SNAPMODULE
          (Symbols.GetCurrentProcessId K) s4
        = ((snapshot, entries), s5) ->
        snapshot <> Symbols.INVALID_HANDLE_VALUE ->
        out (Symbols.GetSharedLibraryAddresses K p)
        = Returned
            (if SymbolsMore.walk_goes_through
                  K (Symbols.GetCurrentProcess K) entries s5
             then map (SymbolsMore.address_of K) entries
             else []) /\
        Symbols.symbols_loaded (final (Symbols.GetSharedLibraryAddresses K p))
        = SymbolsMore.walk_goes_through
            K (Symbols.GetCurrentProcess K) entries s5).
Proof.
  intros K p [Hloaded Hresult].
  assert (Hwhole :
            post (Symbols.GetSharedLibraryAddresses K) p
                 (fun o tr p' =>
                    o = Returned
                          (if Symbols.symbols_loaded p'
                           then map (SymbolsMore.address_of K)
                                    (SymbolsMore.walked tr)
                           else []) /\
                    (Symbols.symbols_loaded p' = false ->
                     SymbolsMore.nothing_yet p'))).
  { unfold Symbols.GetSharedLibraryAddresses. apply post_bind.
    eapply post_weaken; [apply LoadDbgHelpAndTlHelp32_walked|].
    intros o tr p1 (b & -> & Hw & Hs & Hr).
    destruct b; cbn [negb].
    - eapply post_weaken;
        [apply LoadSymbols_walked; split; congruence|].
      intros o tr' p' (-> & Hres). cbv beta.
      rewrite walked_app, Hw. cbn [app]. split.
      + rewrite Hres. reflexivity.
      + intros Hnot. split; [exact Hnot|]. rewrite Hres, Hnot. reflexivity.
    - apply post_ret. rewrite Hs, Hloaded. split; [reflexivity|].
      intros _. split; congruence. }
  unfold post in Hwhole. destruct Hwhole as [Hout Hkept].
  split; [exact Hout|]. split; [exact Hkept|].
  intros s1 options s2 options' s3 s4 snapshot entries s5
    Hloader Hinit Hget Hset Hpath Hsnap Hvalid.
  pose proof (LoadDbgHelpAndTlHelp32_walked K p) as Hl. unfold post in Hl.
  destruct Hl as (b & _ & _ & Hs & Hr).
  assert (Hyet : SymbolsMore.nothing_yet
                   (final (Symbols.LoadDbgHelpAndTlHelp32 K p)))
    by (split; congruence).
  pose proof (LoadSymbols_goes_through K (Symbols.GetCurrentProcess K)
                (final (Symbols.LoadDbgHelpAndTlHelp32 K p))
                s1 options s2 options' s3 s4 snapshot entries s5
                Hyet Hinit Hget Hset Hpath Hsnap Hvalid) as Hwalk.
  unfold post in Hwalk.
  unfold Symbols.GetSharedLibraryAddresses, bind. rewrite Hloader.
  cbn [negb out trace final]. exact Hwalk.
Qed.

(** The symbols of icu.dll are not found, or its handle is invalid, and
    the walk goes on: the table has all three modules.  With another
    error for it the table is empty. *)
Lemma GetSharedLibraryAddresses_all_or_nothing_witness :
  out (Symbols.GetSharedLibraryAddresses SymbolsMore.picky
         (Symbols.initial_process SymbolsMore.picky 126))
  = Returned (map (SymbolsMore.address_of SymbolsMore.picky)
                  SymbolsMore.three_modules) /\
  out (Symbols.GetSharedLibraryAddresses SymbolsMore.picky
         (Symbols.initial_process SymbolsMore.picky 6))
  = Returned (map (SymbolsMore.address_of SymbolsMore.picky)
                  SymbolsMore.three_modules) /\
  out (Symbols.GetSharedLibraryAddresses SymbolsMore.picky
         (Symbols.initial_process SymbolsMore.picky 5))
  = Returned [].
Proof.
  split; [|split].
  - refine (proj1 (proj2 (proj2 (GetSharedLibraryAddresses_all_or_nothing
                                   SymbolsMore.picky
                                   (Symbols.initial_process SymbolsMore.picky
                                      126)
                                   (conj eq_refl eq_refl)))
                     126 0 126 0x210 126 126 77 SymbolsMore.three_modules 126
                     eq_refl eq_refl eq_refl eq_refl eq_refl eq_refl _)).
    discriminate.
  - refine (proj1 (proj2 (proj2 (GetSharedLibraryAddresses_all_or_nothing
                                   SymbolsMore.picky
                                   (Symbols.initial_process SymbolsMore.picky
                                      6)
                                   (conj eq_refl eq_refl)))
                     6 0 6 0x210 6 6 77 SymbolsMore.three_modules 6
                     eq_refl eq_refl eq_refl eq_refl eq_refl eq_refl _)).
    discriminate.
  - refine (proj1 (proj2 (proj2 (GetSharedLibraryAddresses_all_or_nothing
                                   SymbolsMore.picky
                                   (Symbols.initial_process SymbolsMore.picky
                                      5)
                                   (conj eq_refl eq_refl)))
                     5 0 5 0x210 5 5 77 SymbolsMore.three_modules 5
                     eq_refl eq_refl eq_refl eq_refl eq_refl eq_refl _)).
    discriminate.
Defined.

(** ** Calls through the function pointers *)

Section PointerFacts.
Import Symbols SymbolsMore.
Variable K : Win32.

Lemma LOAD_DLL_FUNCS_quiet module names : forall (p : process K),
  post (LOAD_DLL_FUNCS K module names) p
       (fun o tr p' =>
          o = Returned tt /\ existsb through_a_pointer tr = false /\
          dbghelp_loaded p' = dbghelp_loaded p).
Proof.
  induction names as [|name names IH]; intros p.
  - apply post_ret. auto.
  - simpl. apply post_bind, post_os_call. intros f s _.
    apply post_bind, post_get. apply post_bind, post_put.
    eapply post_weaken; [apply IH|].
    intros o tr p' (-> & Hq & Hd). cbn in *. auto.
Qed.

Lemma LoadDbgHelpAndTlHelp32_ready (p : process K) :
  pointers_ready p ->
  post (LoadDbgHelpAndTlHelp32 K) p
       (fun o tr p' =>
          exists b, o = Returned b /\
                    existsb through_a_pointer tr = false /\
                    dbghelp_loaded p' = b /\
                    pointers_ready p').
Proof.
  intros Hready. unfold LoadDbgHelpAndTlHelp32.
  apply post_bind, post_get.
  destruct (dbghelp_loaded p) eqn:Hloaded.
  - apply post_ret. exists true. auto.
  - apply post_bind, post_os_call. intros module s _.
    destruct (module =? 0)%Z.
    + apply post_ret. exists false. cbn. repeat split; auto;
        try (unfold pointers_ready; cbn; rewrite Hloaded; discriminate).
    + apply post_bind.
      eapply post_weaken; [apply LOAD_DLL_FUNCS_quiet|].
      intros o tr p1 (-> & Hq1 & Hd1). cbn in Hd1.
      apply post_bind, post_os_call. intros module' s' _.
      destruct (module' =? 0)%Z.
      * apply post_ret. exists false.
        repeat first [progress cbn [existsb app through_a_pointer orb]
                     | rewrite existsb_app].
        rewrite Hq1. cbn.
        repeat split; try (rewrite Hd1; exact Hloaded);
          try (unfold pointers_ready; cbn; rewrite Hd1, Hloaded; discriminate).
      * apply post_bind.
        eapply post_weaken; [apply LOAD_DLL_FUNCS_quiet|].
        intros o tr' p2 (-> & Hq2 & Hd2).
        apply post_bind, post_get. apply post_bind, post_put.
        apply post_ret. eexists.
        repeat first [progress cbn [existsb app through_a_pointer orb]
                     | rewrite existsb_app].
        rewrite Hq1, Hq2. cbn.
        repeat split; try (unfold pointers_ready; cbn; auto).
Qed.

Lemma LoadSymbols_loop_keeps_pointers process_handle snapshot entries :
  forall first (p : process K),
    post (LoadSymbols_loop K process_handle snapshot first entries) p
         (fun o tr p' =>
            dll_funcs p' = dll_funcs p /\
            dbghelp_loaded p' = dbghelp_loaded p).
Proof.
  induction entries as [|e entries IH]; intros first p.
  - simpl. apply post_bind, post_os_call. intros r s _.
    apply post_ret. cbn. auto.
  - simpl. apply post_bind, post_os_call. intros r s _.
    apply post_bind, post_os_call. intros base s' _.
    apply post_bind.
    eapply post_weaken
      with (Q := fun o tr p' =>
                   (exists stop : bool, o = Returned stop) /\
                   p' = with_os K (with_os K p s) s').
    { destruct (base =? 0)%Z; [apply post_bind, post_get|]; apply post_ret;
        split; eauto. }
    intros o tr p' ((stop & ->) & ->). destruct stop.
    + apply post_bind, post_put. apply post_ret. cbn. auto.
    + apply post_bind, post_get. apply post_bind, post_put.
      eapply post_weaken; [apply IH|].
      intros o tr' p' H. exact H.
Qed.

Lemma LoadSymbols_keeps_pointers process_handle (p : process K) :
  post (LoadSymbols K process_handle) p
       (fun o tr p' =>
          dll_funcs p' = dll_funcs p /\
          dbghelp_loaded p' = dbghelp_loaded p).
Proof.
  unfold LoadSymbols.
  apply post_bind, post_get.
  destruct (symbols_loaded p).
  { apply post_get. auto. }
  apply post_bind, post_os_call. intros ok s _.
  destruct ok; cbn [negb].
  2:{ apply post_get. cbn. auto. }
  apply post_bind, post_os_call. intros options s1 _.
  apply post_bind, post_os_call. intros options' s2 _.
  apply post_bind, post_os_call. intros ok s3 _.
  destruct ok; cbn [negb].
  2:{ apply post_bind, post_get. apply post_bind, post_os_call. intros [] s4 _.
      apply post_get. cbn. auto. }
  apply post_bind, post_os_call. intros [snapshot entries] s4 _.
  cbn [fst snd].
  destruct (snapshot =? INVALID_HANDLE_VALUE)%Z.
  { apply post_get. cbn. auto. }
  apply post_bind.
  eapply post_weaken; [apply LoadSymbols_loop_keeps_pointers|].
  intros o tr p1 (Hf & Hd). cbn in Hf, Hd.
  destruct o as [finished|]; [|cbn; auto].
  destruct finished.
  - apply post_bind, post_os_call. intros r s5 _.
    apply post_bind, post_put. apply post_get. cbn. auto.
  - apply post_get. cbn. auto.
Qed.
End PointerFacts.

(** X17.  [GetSharedLibraryAddresses] never calls through a function
    pointer that is null: whenever its run makes a call into the symbol
    engine or the snapshot functions, all thirteen pointers of the two
    function lists were found, and [dbghelp_loaded] is set.  And
    [dbghelp_loaded] is never left set without the pointers. *)
Theorem no_call_through_a_null_pointer :
  forall (K : Symbols.Win32) (p : Symbols.process K),
    SymbolsMore.pointers_ready p ->
    SymbolsMore.pointers_ready (final (Symbols.GetSharedLibraryAddresses K p)) /\
    (existsb SymbolsMore.through_a_pointer
             (trace (Symbols.GetSharedLibraryAddresses K p)) = true ->
     Symbols.dbghelp_loaded (final (Symbols.GetSharedLibraryAddresses K p))
     = true /\
     Symbols.DLL_FUNCS_LOADED
       (Symbols.dll_funcs (final (Symbols.GetSharedLibraryAddresses K p)))
     = true).
Proof.
  intros K p Hready.
  change (post (Symbols.GetSharedLibraryAddresses K) p
               (fun o tr p' =>
                  SymbolsMore.pointers_ready p' /\
                  (existsb SymbolsMore.through_a_pointer tr = true ->
                   Symbols.dbghelp_loaded p' = true /\
                   Symbols.DLL_FUNCS_LOADED (Symbols.dll_funcs p') = true))).
  unfold Symbols.GetSharedLibraryAddresses. apply post_bind.
  eapply post_weaken; [apply LoadDbgHelpAndTlHelp32_ready, Hready|].
  intros o tr p1 (b & -> & Hquiet & Hloaded & Hready1).
  destruct b; cbn [negb].
  - eapply post_weaken; [apply LoadSymbols_keeps_pointers|].
    intros o tr' p' (Hf & Hd). cbv beta.
    assert (Hready' : SymbolsMore.pointers_ready p').
    { unfold SymbolsMore.pointers_ready in *. rewrite Hf, Hd. exact Hready1. }
    split; [exact Hready'|]. intros _.
    assert (Hl : Symbols.dbghelp_loaded p' = true) by congruence.
    split; [exact Hl | exact (Hready' Hl)].
  - apply post_ret. split; [exact Hready1|].
    rewrite app_nil_r, Hquiet. discriminate.
Qed.

Lemma no_call_through_a_null_pointer_witness :
  SymbolsMore.pointers_ready
    (Symbols.initial_process SymbolsMore.picky 126) /\
  Symbols.DLL_FUNCS_LOADED
    (Symbols.dll_funcs
       (final (Symbols.GetSharedLibraryAddresses SymbolsMore.picky
                 (Symbols.initial_process SymbolsMore.picky 126))))
  = true.
Proof.
  assert (Hready : SymbolsMore.pointers_ready
                     (Symbols.initial_process SymbolsMore.picky 126))
    by (intros H; discriminate H).
  split; [exact Hready|].
  apply (proj2 (no_call_through_a_null_pointer
                  SymbolsMore.picky
                  (Symbols.initial_process SymbolsMore.picky 126) Hready)).
  reflexivity.
Defined.

(** ** User time *)

(** X18.  [GetUserTime] returns -1 and leaves both outputs alone when
    [GetThreadTimes] fails.  Otherwise it returns 0, the microseconds it
    stores are below a million, and, for a thread that has run for less
    than 2^32 seconds, seconds and microseconds together are the user
    time in whole microseconds; past that the seconds wrap around. *)
Theorem GetUserTime_splits_the_time :
  forall (K : UserTime.Win32) secs usecs (s : UserTime.os_state K),
    (fst (UserTime.GetThreadTimes K s) = None ->
     out (UserTime.GetUserTime K secs usecs s) = Returned (-1, secs, usecs)) /\
    (forall usertime,
        fst (UserTime.GetThreadTimes K s) = Some usertime ->
        0 <= usertime < 2 ^ 64 ->
        exists secs' usecs',
          out (UserTime.GetUserTime K secs usecs s)
          = Returned (0, secs', usecs') /\
          0 <= secs' < 2 ^ 32 /\
          0 <= usecs' < 1000000 /\
          (secs' * 1000000 + usecs') mod (2 ^ 32 * 1000000)
          = (usertime / 10) mod (2 ^ 32 * 1000000) /\
          (usertime < 2 ^ 32 * 10000000 ->
           secs' * 1000000 + usecs' = usertime / 10)).
Proof.
  intros K secs usecs s.
  unfold UserTime.GetUserTime, bind, UserTime.call_GetThreadTimes, ret.
  destruct (UserTime.GetThreadTimes K s) as [[usertime|] s'];
    cbn [out trace final fst]; split; try discriminate; try reflexivity.
  intros u [= <-] Hrange.
  eexists. eexists. split; [reflexivity|].
  unfold UserTime.wrap_uint32.
  change (2 ^ 64) with 18446744073709551616 in Hrange.
  change (2 ^ 32) with 4294967296.
  assert (Hmicro : usertime / 10 mod 1000000 mod 4294967296
                   = usertime / 10 mod 1000000).
  { apply Z.mod_small.
    pose proof (Z.mod_pos_bound (usertime / 10) 1000000). lia. }
  rewrite Hmicro.
  split; [apply Z.mod_pos_bound; lia|].
  split; [apply Z.mod_pos_bound; lia|].
  split.
  - Z.div_mod_to_equations. lia.
  - intros Hshort. rewrite Z.mod_small.
    + Z.div_mod_to_equations. lia.
    + Z.div_mod_to_equations. lia.
Qed.

(** A thread that has run for 3.5000012 seconds. *)
Lemma GetUserTime_splits_the_time_witness :
  out (UserTime.GetUserTime UserTime.scripted 0 0 (Some 35000012%N))
  = Returned (0, 3, 500001).
Proof.
  destruct (proj2 (GetUserTime_splits_the_time
                     UserTime.scripted 0 0 (Some 35000012%N))
                  35000012 eq_refl)
    as (secs' & usecs' & Hout & _ & Hmicro & _ & Hwhole).
  - split; [discriminate | reflexivity].
  - rewrite Hout.
    assert (Hsum : secs' * 1000000 + usecs' = 3500001)
      by (apply Hwhole; reflexivity).
    assert (Hsecs : secs' = 3) by lia.
    assert (Husecs : usecs' = 500001) by lia.
    rewrite Hsecs, Husecs. reflexivity.
Defined.

(** ** Temporary files *)

Section TempFileFacts.
Import TempFile.
Variable K : Win32.

Lemma post_temp_call {A} (f : os_state K -> A * os_state K) (ev : A -> event)
      (call : IO K A) (s : os_state K)
      (Q : outcome A -> list event -> os_state K -> Prop) :
  (forall s0, call s0 = let (r, s') := f s0 in mkRun (Returned r) [ev r] s') ->
  (forall r s', f s = (r, s') -> Q (Returned r) [ev r] s') ->
  post call s Q.
Proof.
  intros Hcall H. unfold post. rewrite Hcall.
  destruct (f s) as [r s']. apply H. reflexivity.
Qed.

(** What [OpenTemporaryFile] has made, opened and deleted when it
    returns. *)
(** The cases of a stream that is null, or is not. *)
Ltac null_stream :=
  repeat split; auto; try lia; try contradiction;
  try (intros Hnull; exfalso; apply Hnull; reflexivity);
  try (exfalso;
       match goal with
       | Hnull : ?stream <> ?stream |- _ => apply Hnull; reflexivity
       end).

Lemma OpenTemporaryFile_post (s : os_state K) :
  post (OpenTemporaryFile K) s
       (fun o tr _ =>
          exists stream,
            o = Returned stream /\
            deleted tr = (if stream =? 0 then [] else made tr) /\
            (List.length (made tr) <= 1)%nat /\
            (stream <> 0 ->
             opened tr = made tr /\ List.length (made tr) = 1%nat)).
Proof.
  unfold OpenTemporaryFile. apply post_bind.
  apply (post_temp_call (GetTempPathA K MAX_PATH)
           (fun r => EvGetTempPathA MAX_PATH (fst r) (snd r)));
    [reflexivity|].
  intros [path_result tempPathBuffer] s1 _. cbn [fst snd].
  destruct ((path_result >? MAX_PATH) || (path_result =? 0)).
  { apply post_ret. exists 0. cbn. null_stream. }
  apply post_bind.
  apply (post_temp_call (GetTempFileNameA K tempPathBuffer "" 0)
           (fun r => EvGetTempFileNameA tempPathBuffer "" 0 (fst r) (snd r)));
    [reflexivity|].
  intros [name_result tempNameBuffer] s2 _. cbn [fst snd].
  destruct (name_result =? 0) eqn:Hname.
  { apply post_ret. exists 0. cbn. rewrite Hname. null_stream. }
  apply post_bind. unfold FOpen. apply post_bind.
  apply (post_temp_call (fopen_s K tempNameBuffer "w+")
           (fun r => EvFopen tempNameBuffer "w+" (fst r) (snd r)));
    [reflexivity|].
  intros [error stream] s3 _. cbn [fst snd].
  destruct (error =? 0) eqn:Herror; apply post_ret.
  - destruct (stream =? 0) eqn:Hstream; cbn [negb].
    + apply post_bind, post_ret. apply post_ret.
      exists stream. cbn. rewrite Hname, Herror, Hstream.
      apply Z.eqb_eq in Hstream. null_stream.
    + apply post_bind. unfold Remove. apply post_bind, post_bind.
      apply (post_temp_call (DeleteFileA K tempNameBuffer)
               (EvDeleteFileA tempNameBuffer)); [reflexivity|].
      intros r s4 _. apply post_ret, post_ret, post_ret.
      exists stream. cbn. rewrite Hname, Herror, Hstream.
      null_stream.
  - cbn [negb Z.eqb]. apply post_bind, post_ret. apply post_ret.
    exists 0. cbn. rewrite Hname, Herror. null_stream.
Qed.
End TempFileFacts.

(** X19.  [OpenTemporaryFile] always returns.  When it returns a stream,
    the file it opened is the one temporary file that [GetTempFileNameA]
    made for it, and it has asked for that file, and no other, to be
    deleted.  When it returns null it has deleted nothing: a temporary
    file that was made but could not be opened stays where it is. *)
Theorem OpenTemporaryFile_deletes_what_it_opened :
  forall (K : TempFile.Win32) (s : TempFile.os_state K),
  exists stream,
    out (TempFile.OpenTemporaryFile K s) = Returned stream /\
    TempFile.deleted (trace (TempFile.OpenTemporaryFile K s))
    = (if stream =? 0 then []
       else TempFile.made (trace (TempFile.OpenTemporaryFile K s))) /\
    (List.length (TempFile.made (trace (TempFile.OpenTemporaryFile K s)))
     <= 1)%nat /\
    (stream <> 0 ->
     TempFile.opened (trace (TempFile.OpenTemporaryFile K s))
     = TempFile.made (trace (TempFile.OpenTemporaryFile K s)) /\
     List.length (TempFile.made (trace (TempFile.OpenTemporaryFile K s)))
     = 1%nat).
Proof. intros K s. exact (OpenTemporaryFile_post K s). Qed.

(** The temporary file is made, and cannot be opened: it is not
    deleted. *)
Example OpenTemporaryFile_leaves_the_file :
  out (TempFile.OpenTemporaryFile TempFile.scripted (8, 1, 13))
  = Returned 0 /\
  TempFile.made (trace (TempFile.OpenTemporaryFile TempFile.scripted (8, 1, 13)))
  = ["C:/Temp/1A2B.tmp"%string] /\
  TempFile.deleted
    (trace (TempFile.OpenTemporaryFile TempFile.scripted (8, 1, 13)))
  = [].
Proof. repeat split. Qed.

(** ** Console output *)

Section OutputFacts.
Import Output.
Variable K : Win32.

Lemma post_output_call {A} (f : os_state K -> A * os_state K) (ev : A -> event)
      (p : process K) (Q : outcome A -> list event -> process K -> Prop) :
  (forall r s, f (os p) = (r, s) ->
               Q (Returned r) [ev r] (mkProcess K s (output_mode p))) ->
  post (os_call K f ev) p Q.
Proof.
  unfold post, os_call. destruct (f (os p)) as [r s]. intros H.
  apply H. reflexivity.
Qed.

Lemma length_store str : forall i byte,
  List.length (store str i byte) = List.length str.
Proof.
  induction str as [|c str IH]; intros [|i] byte; simpl; auto.
Qed.

Lemma nth_error_store str : forall i byte,
  (i < List.length str)%nat -> nth_error (store str i byte) i = Some byte.
Proof.
  induction str as [|c str IH]; intros [|i] byte Hi; simpl in *; try lia.
  - reflexivity.
  - apply IH. lia.
Qed.

(** Once the mode is known, [HasConsole] only reads it. *)
Lemma HasConsole_known (p : process K) :
  output_mode p <> UNKNOWN ->
  HasConsole K p
  = mkRun (Returned (OutputMode_eqb (output_mode p) CONSOLE)) [] p.
Proof.
  intros Hknown. unfold HasConsole, bind, get_output_mode, ret.
  cbn [out trace final].
  destruct (output_mode p) eqn:Hmode; [contradiction | |];
    cbn [OutputMode_eqb out trace final app]; rewrite Hmode; reflexivity.
Qed.

(** A hypothesis that an output mode differs from itself. *)
Ltac absurd_mode :=
  try (intros Habsurd; exfalso; apply Habsurd; reflexivity);
  try (exfalso;
       match goal with
       | Habsurd : ?mode <> ?mode |- _ => apply Habsurd; reflexivity
       end).

Lemma HasConsole_post (p : process K) :
  post (HasConsole K) p
       (fun o tr p' =>
          o = Returned (OutputMode_eqb (output_mode p') CONSOLE) /\
          output_mode p' <> UNKNOWN /\
          written tr = [] /\ debugged tr = [] /\
          (output_mode p <> UNKNOWN -> tr = [] /\ p' = p)).
Proof.
  destruct (output_mode p) eqn:Hmode.
  - unfold HasConsole. apply post_bind. unfold post at 1, get_output_mode.
    cbn [out trace final]. rewrite Hmode. cbn [OutputMode_eqb].
    apply post_bind, post_bind, post_output_call. intros handle s1 _.
    destruct (handle =? INVALID_HANDLE_VALUE); cbn [negb].
    { unfold post, set_output_mode, bind, get_output_mode, ret.
      cbn [out trace final output_mode app].
      repeat split; try discriminate; absurd_mode. }
    apply post_bind, post_output_call. intros handle' s2 _.
    apply post_bind, post_output_call. intros type s3 _.
    destruct (type =? FILE_TYPE_UNKNOWN); cbn [negb];
      unfold post, set_output_mode, bind, get_output_mode, ret;
      cbn [out trace final output_mode app];
      repeat split; try discriminate; absurd_mode.
  - unfold post. rewrite HasConsole_known by (rewrite Hmode; discriminate).
    cbn [out trace final]. rewrite Hmode.
    repeat split; auto; discriminate.
  - unfold post. rewrite HasConsole_known by (rewrite Hmode; discriminate).
    cbn [out trace final]. rewrite Hmode.
    repeat split; auto; discriminate.
Qed.

(** [VSNPrintF] returns -1 or a length below that of the buffer, and
    under the contract of the C runtime it leaves a terminated string. *)
Lemma VSNPrintF_post str length format args (p : process K) :
  post (VSNPrintF K str length format args) p
       (fun o tr p' =>
          exists n str',
            o = Returned (n, str') /\
            (n = -1 \/ 0 <= n < length) /\
            written tr = [] /\ debugged tr = [] /\
            output_mode p' = output_mode p /\
            (vsnprintf_contract K ->
             0 < length ->
             (Z.to_nat length <= List.length str)%nat ->
             List.length str' = List.length str /\
             terminated_within length str')).
Proof.
  unfold VSNPrintF. apply post_bind, post_output_call.
  intros [n str'] s Hcall. cbn [fst snd].
  assert (Hkept : vsnprintf_contract K -> List.length str' = List.length str).
  { intros Hcontract.
    destruct (Hcontract str length format args (os p)) as [Hlen _].
    rewrite Hcall in Hlen. exact Hlen. }
  destruct ((n <? 0) || (n >=? length)) eqn:Htruncated.
  - destruct (Z.gtb_spec length 0) as [Hpos | Hzero]; apply post_ret.
    + exists (-1), (store str' (Z.to_nat (length - 1)) 0).
      split; [reflexivity|]. split; [left; reflexivity|].
      split; [reflexivity|]. split; [reflexivity|]. split; [reflexivity|].
      intros Hcontract _ Hfits. specialize (Hkept Hcontract).
      split; [rewrite length_store; exact Hkept|].
      exists (Z.to_nat (length - 1)). split; [lia|].
      apply nth_error_store. lia.
    + exists (-1), str'.
      split; [reflexivity|]. split; [left; reflexivity|].
      split; [reflexivity|]. split; [reflexivity|]. split; [reflexivity|].
      intros _ Hpos. lia.
  - apply orb_false_elim in Htruncated. destruct Htruncated as [Hneg Hlong].
    apply Z.ltb_ge in Hneg. rewrite Z.geb_leb in Hlong.
    apply Z.leb_gt in Hlong.
    apply post_ret. exists n, str'.
    split; [reflexivity|]. split; [right; lia|].
    split; [reflexivity|]. split; [reflexivity|]. split; [reflexivity|].
    intros Hcontract _ Hfits. split; [exact (Hkept Hcontract)|].
    destruct (Hcontract str length format args (os p)) as [_ Hend].
    rewrite Hcall in Hend. cbn [fst snd] in Hend.
    exists (Z.to_nat n). split; [lia|]. apply Hend. lia.
Qed.
End OutputFacts.

Section WindowedFacts.
Import Output.

Lemma windowed_contract : vsnprintf_contract windowed.
Proof.
  intros str length format args s. cbn [windowed _vsnprintf_s fst snd].
  destruct (Z.ltb_spec (Z.of_nat s) length) as [Hfits | Hlong];
    cbn [andb fst snd]; [|split; [reflexivity | lia]].
  destruct (Nat.ltb_spec s (List.length str)) as [Hin | Hout];
    cbn [fst snd]; [|split; [reflexivity | lia]].
  assert (Hlen : List.length (repeat 120 s ++ skipn s str) = List.length str).
  { rewrite length_app, repeat_length, length_skipn. lia. }
  split.
  - rewrite length_store. exact Hlen.
  - intros _. rewrite Nat2Z.id. apply nth_error_store. lia.
Qed.
End WindowedFacts.

(** X20.  The output mode is decided once: [HasConsole] never leaves it
    unknown, and called again it asks nothing of the OS, changes nothing
    and gives the answer it gave before. *)
Theorem HasConsole_decides_once :
  forall (K : Output.Win32) (p : Output.process K),
    out (Output.HasConsole K p)
    = Returned (Output.OutputMode_eqb
                  (Output.output_mode (final (Output.HasConsole K p)))
                  Output.CONSOLE) /\
    Output.output_mode (final (Output.HasConsole K p)) <> Output.UNKNOWN /\
    Output.HasConsole K (final (Output.HasConsole K p))
    = mkRun (out (Output.HasConsole K p)) []
            (final (Output.HasConsole K p)).
Proof.
  intros K p.
  pose proof (HasConsole_post K p) as (Hout & Hknown & _).
  unfold post in Hout, Hknown.
  split; [exact Hout|]. split; [exact Hknown|].
  rewrite (HasConsole_known K _ Hknown), Hout. reflexivity.
Qed.

(** X21.  [VSNPrintF] returns -1 or a length below that of the buffer,
    never more; and with a C runtime that keeps its contract, the buffer
    holds a terminated string afterwards also when the output was
    truncated or the formatting failed. *)
Theorem VSNPrintF_leaves_a_string :
  forall (K : Output.Win32) str length format args (p : Output.process K),
    Output.vsnprintf_contract K ->
    0 < length ->
    (Z.to_nat length <= List.length str)%nat ->
    exists n str',
      out (Output.VSNPrintF K str length format args p) = Returned (n, str') /\
      (n = -1 \/ 0 <= n < length) /\
      List.length str' = List.length str /\
      Output.terminated_within length str'.
Proof.
  intros K str length format args p Hcontract Hpos Hfits.
  pose proof (VSNPrintF_post K str length format args p)
    as (n & str' & Hout & Hn & _ & _ & _ & Hstring).
  destruct (Hstring Hcontract Hpos Hfits) as [Hlen Hend].
  exists n, str'. auto.
Qed.

(** Three letters fit a buffer of four bytes; five do not, and the
    buffer is terminated all the same. *)
Lemma VSNPrintF_leaves_a_string_witness :
  out (Output.VSNPrintF Output.windowed [1; 1; 1; 1; 1; 1] 4 "%s" 0
         (Output.initial_process Output.windowed 3%nat))
  = Returned (3, [120; 120; 120; 0; 1; 1]) /\
  out (Output.VSNPrintF Output.windowed [1; 1; 1; 1; 1; 1] 4 "%s" 0
         (Output.initial_process Output.windowed 5%nat))
  = Returned (-1, [1; 1; 1; 0; 1; 1]) /\
  Output.terminated_within 4 [1; 1; 1; 0; 1; 1].
Proof.
  split; [reflexivity|]. split; [reflexivity|].
  destruct (VSNPrintF_leaves_a_string
              Output.windowed [1; 1; 1; 1; 1; 1] 4 "%s" 0
              (Output.initial_process Output.windowed 5%nat)
              windowed_contract)
    as (n & str' & Hout & _ & _ & Hend).
  - lia.
  - cbn. lia.
  - injection Hout as _ <-. exact Hend.
Defined.

(** X22.  Every print goes to exactly one place.  A stream other than
    the standard output and the standard error is written with
    [vfprintf], and the console is not even looked for.  The two
    standard streams are written with [vfprintf] when the process has a
    console; when it has none, nothing is written to the stream, and the
    debugger is given one buffer, which, with a C runtime that keeps its
    contract, holds a string that ends within its 4096 bytes whatever the
    length of the output. *)
Theorem VPrintHelper_prints_once :
  forall (K : Output.Win32) stream format args buffer (p : Output.process K),
    out (Output.VPrintHelper K stream format args buffer p) = Returned tt /\
    if (stream =? Output.stdout K) || (stream =? Output.stderr K)
    then
      if Output.OutputMode_eqb
           (Output.output_mode
              (final (Output.VPrintHelper K stream format args buffer p)))
           Output.CONSOLE
      then
        Output.written
          (trace (Output.VPrintHelper K stream format args buffer p))
        = [stream] /\
        Output.debugged
          (trace (Output.VPrintHelper K stream format args buffer p))
        = []
      else
        Output.written
          (trace (Output.VPrintHelper K stream format args buffer p))
        = [] /\
        exists text,
          Output.debugged
            (trace (Output.VPrintHelper K stream format args buffer p))
          = [text] /\
          (Output.vsnprintf_contract K ->
           List.length buffer = 4096%nat ->
           Output.terminated_within 4096 text)
    else
      trace (Output.VPrintHelper K stream format args buffer p)
      = [Output.EvVfprintf stream format args
           (fst (Output.vfprintf K stream format args (Output.os p)))] /\
      Output.output_mode
        (final (Output.VPrintHelper K stream format args buffer p))
      = Output.output_mode p.
Proof.
  intros K stream format args buffer p.
  change (post (Output.VPrintHelper K stream format args buffer) p
            (fun o tr p' =>
               o = Returned tt /\
               if (stream =? Output.stdout K) || (stream =? Output.stderr K)
               then
                 if Output.OutputMode_eqb (Output.output_mode p') Output.CONSOLE
                 then Output.written tr = [stream] /\ Output.debugged tr = []
                 else
                   Output.written tr = [] /\
                   exists text,
                     Output.debugged tr = [text] /\
                     (Output.vsnprintf_contract K ->
                      List.length buffer = 4096%nat ->
                      Output.terminated_within 4096 text)
               else
                 tr = [Output.EvVfprintf stream format args
                         (fst (Output.vfprintf K stream format args
                                 (Output.os p)))] /\
                 Output.output_mode p' = Output.output_mode p)).
  unfold Output.VPrintHelper. apply post_bind.
  destruct ((stream =? Output.stdout K) || (stream =? Output.stderr K)).
  - apply post_bind.
    eapply post_weaken; [apply HasConsole_post|].
    intros o tr p1 (-> & _ & Hw & Hd & _).
    apply post_ret.
    destruct (Output.OutputMode_eqb (Output.output_mode p1) Output.CONSOLE)
      eqn:Hconsole; cbn [negb].
    + apply post_bind, post_output_call. intros r s _.
      apply post_ret. cbn [Output.output_mode]. rewrite Hconsole.
      split; [reflexivity|].
      unfold Output.written, Output.debugged in *.
      repeat first [progress cbn [flat_map app] | rewrite flat_map_app].
      rewrite Hw, Hd. split; reflexivity.
    + apply post_bind.
      eapply post_weaken; [apply VSNPrintF_post|].
      intros o tr' p2 (n & text & -> & _ & Hw' & Hd' & Hmode & Hstring).
      apply post_output_call. intros [] s _.
      cbn [Output.output_mode snd]. rewrite Hmode, Hconsole.
      split; [reflexivity|].
      unfold Output.written, Output.debugged in *.
      repeat first [progress cbn [flat_map app] | rewrite flat_map_app].
      rewrite Hw, Hd, Hw', Hd'. split; [reflexivity|].
      exists text. split; [reflexivity|].
      intros Hcontract Hbuffer. apply Hstring; auto; lia.
  - apply post_ret. apply post_bind, post_output_call. intros r s Hcall.
    apply post_ret. rewrite Hcall. cbn. auto.
Qed.

(** A process without a console prints a line that is too long to its
    standard output: the debugger gets it cut and terminated. *)
Lemma VPrintHelper_prints_once_witness :
  Output.written
    (trace (Output.VPrintHelper Output.windowed 0x1000 "%s" 0
              (repeat 1 4096)
              (Output.initial_process Output.windowed 5000%nat)))
  = [] /\
  exists text,
    Output.debugged
      (trace (Output.VPrintHelper Output.windowed 0x1000 "%s" 0
                (repeat 1 4096)
                (Output.initial_process Output.windowed 5000%nat)))
    = [text] /\
    Output.terminated_within 4096 text.
Proof.
  pose proof (VPrintHelper_prints_once Output.windowed 0x1000 "%s" 0
                (repeat 1 4096)
                (Output.initial_process Output.windowed 5000%nat))
    as [_ Hsink].
  change ((0x1000 =? Output.stdout Output.windowed)
          || (0x1000 =? Output.stderr Output.windowed)) with true in Hsink.
  cbv iota in Hsink.
  assert (Hmode : Output.output_mode
                    (final (Output.VPrintHelper Output.windowed 0x1000 "%s"
                              0 (repeat 1 4096)
                              (Output.initial_process Output.windowed
                                 5000%nat)))
                  = Output.ODS) by reflexivity.
  rewrite Hmode in Hsink. cbn [Output.OutputMode_eqb] in Hsink.
  destruct Hsink as (Hwritten & text & Hdebugged & Hstring).
  split; [exact Hwritten|]. exists text. split; [exact Hdebugged|].
  apply Hstring; [exact windowed_contract | apply repeat_length].
Defined.

(** ** Threads *)

Section ThreadFacts.
Import Threads.
Variable K : Win32.




Lemma kNoThread_all_ones :
  0 <= pointer_bits K -> kNoThread K = 2 ^ pointer_bits K - 1.
Proof.
  intros Hbits. unfold kNoThread, wrap_size_t.
  assert (0 < 2 ^ pointer_bits K) by (apply Z.pow_pos_nonneg; lia).
  symmetry. apply (Z.mod_unique _ _ (-1)); lia.
Qed.

End ThreadFacts.

(** X23.  A thread's handle is closed by its destructor, and only there.
    The destructor of a thread that was never started closes nothing.
    [Start] keeps what [_beginthreadex] returns as the handle, whether or
    not the thread started, and returns whether it is not null; the
    destructor then closes that handle, so that after a failed [Start]
    it closes the null handle. *)
Theorem Thread_closes_its_handle :
  forall (K : Threads.Win32) t (s s' : Threads.os_state K),
    0 < Threads.pointer_bits K ->
    (Threads.thread_ (Threads.data_ t) = Threads.kNoThread K ->
     trace (Threads.Thread_delete K t s') = []) /\
    exists started t',
      out (Threads.Start K t s) = Returned (started, t') /\
      Threads.thread_ (Threads.data_ t')
      = Threads.wrap_size_t K (fst (fst (Threads._beginthreadex K
                                           (Threads.wrap_unsigned
                                              (Threads.stack_size_ t)) s))) /\
      started = negb (Threads.thread_ (Threads.data_ t') =? 0) /\
      Threads.closed (trace (Threads.Start K t s)) = [] /\
      Threads.closed (trace (Threads.Thread_delete K t' s'))
      = (if Threads.thread_ (Threads.data_ t') =? Threads.kNoThread K
         then [] else [Threads.thread_ (Threads.data_ t')]) /\
      (started = false ->
       Threads.closed (trace (Threads.Thread_delete K t' s')) = [0]).
Proof.
  intros K t s s' Hbits. split.
  - intros Hnever. unfold Threads.Thread_delete.
    rewrite Hnever, Z.eqb_refl. reflexivity.
  - unfold Threads.Start, bind, Threads.os_call, ret.
    destruct (Threads._beginthreadex K _ s) as [[result id] s1].
    cbn [out trace final fst snd].
    eexists. eexists. split; [reflexivity|].
    cbn [Threads.thread_ Threads.data_].
    split; [reflexivity|]. split; [reflexivity|]. split; [reflexivity|].
    assert (Hdelete :
              forall handle,
                Threads.closed
                  (trace (Threads.Thread_delete K
                            (Threads.mkThread
                               (Threads.name_ t) (Threads.stack_size_ t)
                               (Threads.start_semaphore_ t)
                               (Threads.mkData handle
                                  match id with
                                  | Some id' => id'
                                  | None => Threads.thread_id_ (Threads.data_ t)
                                  end)) s'))
                = (if handle =? Threads.kNoThread K then [] else [handle])).
    { intros handle. unfold Threads.Thread_delete, bind, Threads.os_call, ret.
      cbn [Threads.thread_ Threads.data_].
      destruct (handle =? Threads.kNoThread K); cbn [negb]; [reflexivity|].
      destruct (Threads.CloseHandle K handle s'). reflexivity. }
    split; [apply Hdelete|].
    intros Hfailed. apply negb_false_iff, Z.eqb_eq in Hfailed.
    rewrite Hdelete, Hfailed.
    replace (0 =? Threads.kNoThread K) with false; [reflexivity|].
    symmetry. apply Z.eqb_neq.
    rewrite (kNoThread_all_ones K) by lia.
    assert (2 ^ 1 <= 2 ^ Threads.pointer_bits K)
      by (apply Z.pow_le_mono_r; lia).
    change (2 ^ 1) with 2 in *. lia.
Qed.

(** A thread that could not be started: its destructor closes the null
    handle. *)
Lemma Thread_closes_its_handle_witness :
  out (Threads.Start Threads.scripted
         (Threads.mkThread (repeat 0 16) 0 0
            (Threads.mkData (Threads.kNoThread Threads.scripted) 7)) [])
  = Returned (false,
              Threads.mkThread (repeat 0 16) 0 0 (Threads.mkData 0 7)) /\
  Threads.closed
    (trace (Threads.Thread_delete Threads.scripted
              (Threads.mkThread (repeat 0 16) 0 0 (Threads.mkData 0 7)) []))
  = [0].
Proof.
  split; [reflexivity|].
  destruct (Thread_closes_its_handle
              Threads.scripted
              (Threads.mkThread (repeat 0 16) 0 0
                 (Threads.mkData (Threads.kNoThread Threads.scripted) 7))
              [] [])
    as (_ & started & t' & Hout & _ & _ & _ & _ & Hfailed).
  - reflexivity.
  - injection Hout as <- <-. apply Hfailed. reflexivity.
Defined.


